(** * Copperx Telegram bot: token store, API client, flows and notification bridge

    A shallow embedding of the TypeScript sources and the properties
    checked against them.

    Conventions of the embedding.
    - A JavaScript value read from an API payload is a [JSON] value; the
      tests the source applies to it ([if (v)], [v && v.f], [v.f === "x"])
      are the functions [truthy], [get] and [is_str] below.
    - [string] holds a JavaScript string in UTF-8, as the literals of
      this file are written. Substring tests and the classes of ASCII
      characters read the same on these bytes as on the code units of
      the engine; the e-mail format check, whose white space goes beyond
      ASCII, is applied to the code units, [code_units].
    - An [async] function is a computation [M W A]: it reads and updates a
      world [W] and ends with a value ([Ok]), with a thrown error
      ([Throw], the world keeps every update made before the throw), or
      does not end ([Diverge]: the recursion budget of the API client
      ran out, or an awaited call never settled).
    - The handlers of Part I take a call of Telegram as accepted and a
      call of the API as answered, with a response or an error. The
      module [Wire] repeats the handlers whose state depends on it with
      both calls as they are: a call may also be rejected, or never
      settle.
    - [Date.now()], the network and the JavaScript built-ins whose results
      the sources cannot know ([Date] parsing, [parseFloat]) are inputs:
      fields of the world or parameters. *)

From Stdlib Require Import ZArith String Ascii List Lia Bool.
From stdpp Require Import base gmap strings list pretty.

#[local] Set Warnings "-register-all".

Local Open Scope string_scope.
Local Open Scope Z_scope.

(* ================================================================== *)
(** * Part I: the embedding *)
(* ================================================================== *)

(** ** JavaScript values, responses and errors *)

Inductive JSON : Type :=
| JUndefined
| JNull
| JBool (b : bool)
| JNum (n : Z)
| JStr (s : string)
| JArr (items : list JSON)
| JObj (fields : list (string * JSON)).

(** ToBoolean. *)
Definition truthy (v : JSON) : bool :=
  match v with
  | JUndefined | JNull => false
  | JBool b => b
  | JNum n => negb (n =? 0)
  | JStr s => negb (String.eqb s "")
  | JArr _ | JObj _ => true
  end.

Fixpoint assoc (k : string) (fields : list (string * JSON)) : JSON :=
  match fields with
  | [] => JUndefined
  | (k', v) :: rest => if String.eqb k k' then v else assoc k rest
  end.

(** [v.k] where [v] is known not to be [null] or [undefined]: a property
    of an object, [undefined] on the other values. *)
Definition get (v : JSON) (k : string) : JSON :=
  match v with
  | JObj fields => assoc k fields
  | _ => JUndefined
  end.

(** [v === "s"]. *)
Definition is_str (v : JSON) (s : string) : bool :=
  match v with
  | JStr t => String.eqb t s
  | _ => false
  end.

(** [v === n] for a number literal [n]. *)
Definition is_num (v : JSON) (n : Z) : bool :=
  match v with
  | JNum m => m =? n
  | _ => false
  end.

(** [a || b] on values. *)
Definition js_or (a b : JSON) : JSON := if truthy a then a else b.

(** [s.includes(sub)] on strings. *)
Fixpoint includes (s sub : string) : bool :=
  String.prefix sub s ||
  match s with
  | EmptyString => false
  | String _ rest => includes rest sub
  end.

Definition lower_ascii (c : ascii) : ascii :=
  let n := nat_of_ascii c in
  if ((65 <=? n)%nat && (n <=? 90)%nat)%bool then ascii_of_nat (n + 32) else c.

(** [s.toLowerCase()] on the letters A-Z; no other code unit below 256
    maps to a letter of the words compared below. *)
Fixpoint toLowerCase (s : string) : string :=
  match s with
  | EmptyString => EmptyString
  | String c rest => String (lower_ascii c) (toLowerCase rest)
  end.

(** The value of the [Authorization] header, written
    [`Bearer ${token}`] in the sources. *)
Inductive AuthValue : Type := Bearer (token : JSON).

Inductive Method : Type := GET | POST.

(** An axios request configuration; [_retry] is the flag the response
    interceptor adds to a configuration it has retried. *)
Record Config : Type := mkConfig {
  method : Method;
  url : string;
  body : JSON;
  headers_Authorization : option AuthValue;
  _retry : bool
}.

Definition request_config (m : Method) (u : string) (b : JSON) : Config :=
  {| method := m; url := u; body := b;
     headers_Authorization := None; _retry := false |}.

Record Response : Type := mkResponse { status : Z; data : JSON }.

(** What can be thrown: an error raised by the axios instance (it carries
    the response, when there is one, and the request configuration), an
    [Error] built by the sources with [new Error(message)], and a
    [TypeError] raised by the engine (its message is the engine's). *)
Inductive Error : Type :=
| AxiosError (message : string) (response : option Response) (config : Config)
| JsError (message : string)
| TypeError (message : string).

Definition error_message (e : Error) : string :=
  match e with
  | AxiosError m _ _ => m
  | JsError m => m
  | TypeError m => m
  end.

Definition error_response (e : Error) : option Response :=
  match e with
  | AxiosError _ r _ => r
  | _ => None
  end.

(** ** Computations *)

Inductive Res (A : Type) : Type :=
| Ok (a : A)
| Throw (e : Error)
| Diverge.

Arguments Ok {A} a.
Arguments Throw {A} e.
Arguments Diverge {A}.

Definition M (W A : Type) : Type := W -> Res A * W.

Definition ret {W A} (a : A) : M W A := fun w => (Ok a, w).

Definition bind {W A B} (m : M W A) (k : A -> M W B) : M W B :=
  fun w =>
    match m w with
    | (Ok a, w') => k a w'
    | (Throw e, w') => (Throw e, w')
    | (Diverge, w') => (Diverge, w')
    end.

Definition throw {W A} (e : Error) : M W A := fun w => (Throw e, w).

(** [try { m } catch (e) { h e }]. *)
Definition try_catch {W A} (m : M W A) (h : Error -> M W A) : M W A :=
  fun w =>
    match m w with
    | (Throw e, w') => h e w'
    | r => r
    end.

Definition gets {W A} (f : W -> A) : M W A := fun w => (Ok (f w), w).

Definition modify {W} (f : W -> W) : M W unit := fun w => (Ok tt, f w).

Notation "x <- c ;; k" := (bind c (fun x => k))
  (at level 100, c at next level, right associativity).
Notation "c ;; k" := (bind c (fun _ => k))
  (at level 100, right associativity).

(** ** The token store ([src/utils/api.ts], lines 48-90) *)

(** The module state of [api.ts] together with what it observes and
    produces: the clock, the timers it schedules, the requests handed to
    the network and the console. *)
Record ApiState : Type := mkApiState {
  authToken : JSON;                           (* let authToken: string | null *)
  tokenExpiry : option Z;                     (* let tokenExpiry: number | null *)
  defaults_Authorization : option AuthValue;  (* api.defaults.headers.common *)
  now : Z;                                    (* Date.now(), milliseconds *)
  timers : list Z;                            (* delays given to setTimeout *)
  sent : list Config;                         (* requests sent, latest first *)
  console : list string                       (* console lines, latest first *)
}.

Definition set_authToken (t : JSON) (w : ApiState) : ApiState :=
  {| authToken := t; tokenExpiry := tokenExpiry w;
     defaults_Authorization := defaults_Authorization w; now := now w;
     timers := timers w; sent := sent w; console := console w |}.

Definition set_tokenExpiry (e : option Z) (w : ApiState) : ApiState :=
  {| authToken := authToken w; tokenExpiry := e;
     defaults_Authorization := defaults_Authorization w; now := now w;
     timers := timers w; sent := sent w; console := console w |}.

Definition set_defaults_Authorization (h : option AuthValue) (w : ApiState)
  : ApiState :=
  {| authToken := authToken w; tokenExpiry := tokenExpiry w;
     defaults_Authorization := h; now := now w;
     timers := timers w; sent := sent w; console := console w |}.

Definition add_timer (d : Z) (w : ApiState) : ApiState :=
  {| authToken := authToken w; tokenExpiry := tokenExpiry w;
     defaults_Authorization := defaults_Authorization w; now := now w;
     timers := d :: timers w; sent := sent w; console := console w |}.

Definition add_console (line : string) (w : ApiState) : ApiState :=
  {| authToken := authToken w; tokenExpiry := tokenExpiry w;
     defaults_Authorization := defaults_Authorization w; now := now w;
     timers := timers w; sent := sent w; console := line :: console w |}.

(** [console.log], [console.warn] and [console.error]: a line is
    recorded by its literal text, up to the first value printed in it. *)
Definition console_log (line : string) : M ApiState unit :=
  modify (add_console line).

(** The truth value of an optional number: [undefined], [NaN] (both
    [None]) and [0] are false. *)
Definition num_truthy (n : option Z) : bool :=
  match n with
  | Some k => negb (k =? 0)
  | None => false
  end.

Definition DAY_SECONDS : Z := 24 * 60 * 60.

(** [setAuthToken(token, expiresIn?)], lines 52-74. *)
Definition setAuthToken (token : JSON) (expiresIn : option Z)
  : M ApiState unit :=
  modify (set_authToken token) ;;
  modify (set_defaults_Authorization (Some (Bearer token))) ;;
  t <- gets now ;;
  match expiresIn with
  | Some e =>
      if num_truthy expiresIn
      then modify (set_tokenExpiry (Some (t + e * 1000))) ;;
           modify (add_timer ((e - 300) * 1000))
      else modify (set_tokenExpiry (Some (t + DAY_SECONDS * 1000)))
  | None => modify (set_tokenExpiry (Some (t + DAY_SECONDS * 1000)))
  end.

(** [clearAuthToken()], lines 77-81. *)
Definition clearAuthToken : M ApiState unit :=
  modify (set_authToken JNull) ;;
  modify (set_tokenExpiry None) ;;
  modify (set_defaults_Authorization None).

Definition BUFFER_MS : Z := 5 * 60 * 1000.

(** [isTokenExpired()], lines 84-90. *)
Definition isTokenExpired (w : ApiState) : bool :=
  match tokenExpiry w with
  | None => false
  | Some e => if e =? 0 then false else now w >? e - BUFFER_MS
  end.

(** ** The API client ([src/utils/api.ts], lines 92-164) and the token
    refresh ([services/auth.service.ts]) *)

Definition set_headers_Authorization (h : option AuthValue) (c : Config)
  : Config :=
  {| method := method c; url := url c; body := body c;
     headers_Authorization := h; _retry := _retry c |}.

Definition set_retry (b : bool) (c : Config) : Config :=
  {| method := method c; url := url c; body := body c;
     headers_Authorization := headers_Authorization c; _retry := b |}.

(** What [refreshToken] returns when it does not return [null]; the
    number [expiresIn] is [None] when it is [NaN]. *)
Record TokenInfo : Type := mkTokenInfo {
  token : JSON;
  expiresIn : option Z
}.

(** What the network does with a request. *)
Inductive Answer : Type :=
| Answered (r : Response)          (* a response with an HTTP status *)
| Unanswered (message : string).   (* no response: network error, timeout *)

(** The environment of the client: the network, which answers a request
    knowing the requests sent before it and says how many milliseconds
    pass meanwhile, and the built-in [new Date(v).getTime()] ([None] is
    [NaN]). *)
Record Env : Type := mkEnv {
  network : list Config -> Config -> Answer * Z;
  getTime : JSON -> option Z
}.

Definition record_sent (c : Config) (dt : Z) (w : ApiState) : ApiState :=
  {| authToken := authToken w; tokenExpiry := tokenExpiry w;
     defaults_Authorization := defaults_Authorization w;
     now := now w + Z.max 0 dt;
     timers := timers w; sent := c :: sent w; console := console w |}.

(** The axios adapter and its default [validateStatus]: a status in
    [200, 300) resolves, every other outcome rejects. *)
Definition dispatchRequest (env : Env) (config : Config)
  : M ApiState Response :=
  fun w =>
    let '(answer, dt) := network env (sent w) config in
    let w' := record_sent config dt w in
    match answer with
    | Answered r =>
        if ((200 <=? status r) && (status r <? 300))%bool
        then (Ok r, w')
        else (Throw (AxiosError
                       ("Request failed with status code " +:+ pretty (status r))
                       (Some r) config), w')
    | Unanswered message => (Throw (AxiosError message None config), w')
    end.

(** axios merges the instance defaults into the configuration of a
    request before the interceptors run; a header of the request wins. *)
Definition mergeConfig (config : Config) : M ApiState Config :=
  d <- gets defaults_Authorization ;;
  match headers_Authorization config with
  | Some _ => ret config
  | None => ret (set_headers_Authorization d config)
  end.

Section Client.

(** The two functions the interceptors call: [refreshToken()] and the
    instance itself, [api(config)]. *)
Variable refreshToken : M ApiState (option TokenInfo).
Variable api : Config -> M ApiState Response.

(** [(newToken.expiresIn || 24 * 60 * 60)]. *)
Definition expiresIn_or_day (nt : TokenInfo) : Z :=
  match expiresIn nt with
  | Some e => if num_truthy (expiresIn nt) then e else DAY_SECONDS
  | None => DAY_SECONDS
  end.

(** Lines 103-105 and 147-149. *)
Definition store_refreshed (nt : TokenInfo) : M ApiState unit :=
  modify (set_authToken (token nt)) ;;
  t <- gets now ;;
  modify (set_tokenExpiry (Some (t + expiresIn_or_day nt * 1000))).

(** The request interceptor, lines 93-121. The [try] block yields
    [None] when control falls through to line 118 and [Some config] for
    the [return config] of the [catch] block. *)
Definition request_interceptor (config : Config) : M ApiState Config :=
  tok <- gets authToken ;;
  if truthy tok then
    expired <- gets isTokenExpired ;;
    early <-
      (if expired then
         try_catch
           (console_log "Token expired, attempting to refresh..." ;;
            newToken <- refreshToken ;;
            match newToken with
            | Some nt =>
                store_refreshed nt ;;
                console_log "Token refreshed successfully" ;;
                ret None
            | None => ret None
            end)
           (fun error =>
              console_log "Failed to refresh token:" ;;
              clearAuthToken ;;
              ret (Some config))
       else ret None) ;;
    match early with
    | Some c => ret c
    | None =>
        tok' <- gets authToken ;;
        ret (set_headers_Authorization (Some (Bearer tok')) config)
    end
  else ret config.

(** The response interceptor's handler of rejections, lines 132-163.
    [originalRequest] is the configuration held by the error, so setting
    [_retry] and the header changes the error that is rejected at the
    end. [return api(originalRequest)] hands the promise of the retry
    back without awaiting it: what the retry throws is not caught by the
    [catch] of line 155, hence the retry is run after the [try]. *)
Definition response_interceptor (error : Error) : M ApiState Response :=
  match error with
  | AxiosError message (Some r) config =>
      if ((status r =? 401) && negb (_retry config))%bool then
        let originalRequest := set_retry true config in
        retry <-
          try_catch
            (console_log "Unauthorized error, attempting to refresh token..." ;;
             newToken <- refreshToken ;;
             match newToken with
             | Some nt =>
                 store_refreshed nt ;;
                 tok <- gets authToken ;;
                 ret (Some (set_headers_Authorization (Some (Bearer tok))
                              originalRequest))
             | None => ret None
             end)
            (fun refreshError =>
               console_log "Failed to refresh token:" ;;
               clearAuthToken ;;
               ret None) ;;
        match retry with
        | Some again => api again
        | None => throw (AxiosError message (Some r) originalRequest)
        end
      else throw error
  | _ => throw error
  end.

End Client.

Section RefreshToken.

Variable env : Env.
Variable api : Config -> M ApiState Response.

(** [expireAt ? Math.floor((new Date(expireAt).getTime() - Date.now()) / 1000)
             : 24 * 60 * 60]. *)
Definition expiresIn_of (expireAt : JSON) (t : Z) : option Z :=
  if truthy expireAt then
    match getTime env expireAt with
    | Some ms => Some ((ms - t) / 1000)
    | None => None
    end
  else Some DAY_SECONDS.

(** [refreshToken()], [auth.service.ts] lines 204-227 (both copies). *)
Definition refreshToken : M ApiState (option TokenInfo) :=
  try_catch
    (response <- api (request_config POST "/auth/refresh-token" JUndefined) ;;
     if (truthy (data response) &&
         truthy (get (data response) "accessToken"))%bool
     then
       let accessToken := get (data response) "accessToken" in
       let expireAt := get (data response) "expireAt" in
       t <- gets now ;;
       ret (Some {| token := accessToken;
                    expiresIn := expiresIn_of expireAt t |})
     else ret None)
    (fun error =>
       console_log "Error refreshing token:" ;;
       ret None).

End RefreshToken.

(** The instance [api]: defaults merged, then the chain request
    interceptor, adapter, response interceptor; a rejection anywhere in
    the chain reaches the response interceptor's handler. [refreshToken]
    posts through the same instance, and so does the retry: the budget
    [fuel] bounds the depth of these nested calls. *)
Fixpoint request (fuel : nat) (env : Env) (config : Config)
  : M ApiState Response :=
  match fuel with
  | O => fun w => (Diverge, w)
  | S n =>
      let api := request n env in
      let refresh := refreshToken env api in
      merged <- mergeConfig config ;;
      try_catch
        (prepared <- request_interceptor refresh merged ;;
         dispatchRequest env prepared)
        (response_interceptor refresh api)
  end.

(** ** More of JavaScript, used by the services and the handlers *)

(** [String(v)], also the text of [v] inside a template literal. *)
Fixpoint toString (v : JSON) : string :=
  match v with
  | JUndefined => "undefined"
  | JNull => "null"
  | JBool true => "true"
  | JBool false => "false"
  | JNum n => pretty n
  | JStr s => s
  | JArr items =>
      String.concat ","
        (map (fun x => match x with
                       | JUndefined | JNull => ""
                       | _ => toString x
                       end) items)
  | JObj _ => "[object Object]"
  end.

(** [v.k] where [v] may be [null] or [undefined]: the engine throws. *)
Definition prop {W} (v : JSON) (k : string) : M W JSON :=
  match v with
  | JUndefined | JNull =>
      throw (TypeError ("Cannot read properties of " +:+ toString v))
  | _ => ret (get v k)
  end.

(** [v.length > 0] for a truthy [v]; a [length] that is not a number is
    taken as not greater than zero. *)
Definition length_positive (v : JSON) : bool :=
  match v with
  | JArr items => (0 <? length items)%nat
  | JStr s => (0 <? String.length s)%nat
  | JObj fields => match assoc "length" fields with
                   | JNum n => 0 <? n
                   | _ => false
                   end
  | _ => false
  end.

(** [v[0]] for a truthy [v]. *)
Definition first_item (v : JSON) : JSON :=
  match v with
  | JArr items => match items with x :: _ => x | [] => JUndefined end
  | JStr s => match s with
              | String c _ => JStr (String c EmptyString)
              | EmptyString => JUndefined
              end
  | JObj fields => assoc "0" fields
  | _ => JUndefined
  end.

(** [v.toLowerCase()]: a method of strings only. *)
Definition toLowerCase_of {W} (v : JSON) : M W string :=
  match v with
  | JStr s => ret (toLowerCase s)
  | JUndefined | JNull =>
      throw (TypeError ("Cannot read properties of " +:+ toString v))
  | _ => throw (TypeError "toLowerCase is not a function")
  end.

(** [v?.includes(sub)]: [undefined] (false) when [v] is [null] or
    [undefined], substring on a string, membership on an array; on the
    other values [includes] is not a function, and the message of the
    engine names the callee as the source writes it, [callee]. *)
Definition includes_of {W} (callee : string) (v : JSON) (sub : string)
  : M W bool :=
  match v with
  | JUndefined | JNull => ret false
  | JStr s => ret (includes s sub)
  | JArr items => ret (existsb (fun x => is_str x sub) items)
  | _ => throw (TypeError (callee +:+ " is not a function"))
  end.

(** The sign of the number [parseFloat(v)], all that the sources use
    of it. *)
Inductive FloatSign : Type := IsNaN | Negative | Zero | Positive.

(** [x <= 0]. *)
Definition le_zero (s : FloatSign) : bool :=
  match s with
  | Negative | Zero => true
  | IsNaN | Positive => false
  end.

(** ** The e-mail format check

    [/^[^\s@]+@[^\s@]+\.[^\s@]+$/.test(email)], in [handleEmailInput] of
    both handler files. The expression has no [u] flag: it reads the
    text by code units. *)

Local Open Scope N_scope.

(** A byte of the form [10xxxxxx], and its six bits. *)
Definition continuation (c : ascii) : bool :=
  (128 <=? N_of_ascii c) && (N_of_ascii c <? 192).

Definition low6 (c : ascii) : N := N_of_ascii c - 128.

(** U+FFFD, which the decoder of the engine puts for a byte that is
    part of no well-formed sequence. *)
Definition REPLACEMENT : N := 65533.

(** The code units of a code point: itself, or a surrogate pair. *)
Definition units_of_point (p : N) : list N :=
  if p <? 65536 then [p]
  else [55296 + (p - 65536) / 1024; 56320 + (p - 65536) mod 1024].

(** A well-formed sequence of two, three and four bytes: no overlong
    form, no encoded surrogate, nothing above U+10FFFF. *)
Definition two_bytes (n0 : N) (c1 : ascii) : bool :=
  (194 <=? n0) && (n0 <? 224) && continuation c1.

Definition three_bytes (n0 : N) (c1 c2 : ascii) : bool :=
  (224 <=? n0) && (n0 <? 240) && continuation c1 && continuation c2 &&
  (negb (n0 =? 224) || (160 <=? N_of_ascii c1)) &&
  (negb (n0 =? 237) || (N_of_ascii c1 <? 160)).

Definition four_bytes (n0 : N) (c1 c2 c3 : ascii) : bool :=
  (240 <=? n0) && (n0 <? 245) &&
  continuation c1 && continuation c2 && continuation c3 &&
  (negb (n0 =? 240) || (144 <=? N_of_ascii c1)) &&
  (negb (n0 =? 244) || (N_of_ascii c1 <? 144)).

(** The code units of the JavaScript string a text stands for
    ([s.charCodeAt(i)] for every [i]). The decoder of the engine may
    put one U+FFFD where this one puts several; no test of the sources
    tells them apart. *)
Fixpoint code_units (s : string) : list N :=
  match s with
  | EmptyString => []
  | String c0 rest =>
      let n0 := N_of_ascii c0 in
      if n0 <? 128 then n0 :: code_units rest
      else
        match rest with
        | EmptyString => [REPLACEMENT]
        | String c1 rest1 =>
            if two_bytes n0 c1
            then ((n0 - 192) * 64 + low6 c1) :: code_units rest1
            else
              match rest1 with
              | EmptyString => REPLACEMENT :: code_units rest
              | String c2 rest2 =>
                  if three_bytes n0 c1 c2
                  then ((n0 - 224) * 4096 + low6 c1 * 64 + low6 c2)
                         :: code_units rest2
                  else
                    match rest2 with
                    | EmptyString => REPLACEMENT :: code_units rest
                    | String c3 rest3 =>
                        if four_bytes n0 c1 c2 c3
                        then (units_of_point
                                ((n0 - 240) * 262144 + low6 c1 * 4096 +
                                 low6 c2 * 64 + low6 c3)
                                ++ code_units rest3)%list
                        else REPLACEMENT :: code_units rest
                    end
              end
        end
  end.

(** [\s]: tab, line feed, vertical tab, form feed, carriage return,
    space, no-break space, U+1680, U+2000 to U+200A, the line and
    paragraph separators, U+202F, U+205F, U+3000 and U+FEFF. *)
Definition is_space (u : N) : bool :=
  ((9 <=? u) && (u <=? 13)) || (u =? 32) || (u =? 160) || (u =? 5760) ||
  ((8192 <=? u) && (u <=? 8202)) || (u =? 8232) || (u =? 8233) ||
  (u =? 8239) || (u =? 8287) || (u =? 12288) || (u =? 65279).

Definition AT : N := 64.
Definition DOT : N := 46.

(** [[^\s@]]. *)
Definition plain (u : N) : bool := negb (is_space u) && negb (u =? AT).

(** The code units before the first [@] and those after it. *)
Fixpoint split_at (l : list N) : option (list N * list N) :=
  match l with
  | [] => None
  | u :: rest =>
      if u =? AT then Some ([], rest)
      else match split_at rest with
           | Some (a, b) => Some (u :: a, b)
           | None => None
           end
  end.

(** A dot that is followed by at least one more code unit. *)
Fixpoint dot_inside (l : list N) : bool :=
  match l with
  | [] => false
  | u :: rest =>
      match rest with
      | [] => false
      | _ :: _ => (u =? DOT) || dot_inside rest
      end
  end.

Definition emailRegex_units (l : list N) : bool :=
  match split_at l with
  | Some (a0 :: a, b0 :: b) =>
      forallb plain (a0 :: a) && forallb plain (b0 :: b) && dot_inside b
  | _ => false
  end.

Definition emailRegex_test (email : string) : bool :=
  emailRegex_units (code_units email).

(** The reading of the regular expression itself: a non-empty run of
    plain code units, [@], a non-empty run, a dot, a non-empty run. *)
Definition email_shape (email : string) : Prop :=
  exists a b c : list N,
    code_units email = (a ++ AT :: b ++ DOT :: c)%list /\
    a <> [] /\ b <> [] /\ c <> [] /\
    forallb plain a = true /\ forallb plain b = true /\
    forallb plain c = true.

Local Close Scope N_scope.

(** ** Sessions and the chat ([src/types/index.ts]) *)

Record UserSession : Type := mkUserSession {
  userId : string;
  user_email : string;
  firstName : option string;
  lastName : option string;
  user_token : string;
  organizationId : string;
  user_status : option string
}.

Record AuthState : Type := mkAuthState {
  auth_email : option string;
  awaitingOTP : bool;
  sid : JSON
}.

Record TransferState : Type := mkTransferState {
  type : option string;
  recipient : option string;
  amount : option string;
  transfer_network : option string
}.

(** [{}]. *)
Definition empty_transferState : TransferState :=
  {| type := None; recipient := None; amount := None;
     transfer_network := None |}.

Record HistoryState : Type := mkHistoryState { page : Z; limit : Z }.

Record DepositState : Type := mkDepositState {
  deposit_network : option string;
  chainId : option string;
  deposit_amount : option string
}.

Record Session : Type := mkSession {
  user : option UserSession;
  authState : option AuthState;
  transferState : option TransferState;
  historyState : option HistoryState;
  walletAddresses : option (list string);
  depositState : option DepositState
}.

(** [{}]. *)
Definition empty_session : Session :=
  {| user := None; authState := None; transferState := None;
     historyState := None; walletAddresses := None; depositState := None |}.

Definition set_authState (a : option AuthState) (s : Session) : Session :=
  {| user := user s; authState := a; transferState := transferState s;
     historyState := historyState s; walletAddresses := walletAddresses s;
     depositState := depositState s |}.

Definition set_transferState (t : option TransferState) (s : Session)
  : Session :=
  {| user := user s; authState := authState s; transferState := t;
     historyState := historyState s; walletAddresses := walletAddresses s;
     depositState := depositState s |}.

Definition set_historyState (h : option HistoryState) (s : Session)
  : Session :=
  {| user := user s; authState := authState s;
     transferState := transferState s; historyState := h;
     walletAddresses := walletAddresses s; depositState := depositState s |}.

(** The keyboard sent with a message. An inline button is its label and
    its callback data. *)
Inductive Markup : Type :=
| NoMarkup
| Keyboard (rows : list (list string))
| ForceReply (placeholder : string)
| InlineKeyboard (rows : list (list (string * string))).

(** What a handler asks of the chat transport. *)
Inductive ChatAction : Type :=
| Reply (text : string) (markup : Markup)
| EditMessageText (text : string)
| DeleteMessage.

(** The world of a handler: the state of the API client, the session
    attached to the update ([ctx.session], absent when the update has no
    chat), what the chat received and the calls made on the API client,
    both latest first. *)
Record World : Type := mkWorld {
  api_state : ApiState;
  ctx_session : option Session;
  chat : list ChatAction;
  calls : list Config
}.

Definition set_api_state (a : ApiState) (w : World) : World :=
  {| api_state := a; ctx_session := ctx_session w; chat := chat w;
     calls := calls w |}.

Definition set_ctx_session (s : option Session) (w : World) : World :=
  {| api_state := api_state w; ctx_session := s; chat := chat w;
     calls := calls w |}.

Definition add_chat (a : ChatAction) (w : World) : World :=
  {| api_state := api_state w; ctx_session := ctx_session w;
     chat := a :: chat w; calls := calls w |}.

Definition add_call (c : Config) (w : World) : World :=
  {| api_state := api_state w; ctx_session := ctx_session w;
     chat := chat w; calls := c :: calls w |}.

(** A computation of the API client, run inside a handler. *)
Definition lift_api {A} (m : M ApiState A) : M World A :=
  fun w => let '(r, a) := m (api_state w) in (r, set_api_state a w).

Definition log (line : string) : M World unit :=
  lift_api (console_log line).

(** [ctx.reply], [ctx.editMessageText] and [ctx.telegram.deleteMessage]
    when Telegram accepts the call; [Wire.reply] and the others are the
    calls that may be rejected. *)
Definition reply (text : string) (markup : Markup) : M World unit :=
  modify (add_chat (Reply text markup)).

Definition editMessageText (text : string) : M World unit :=
  modify (add_chat (EditMessageText text)).

Definition deleteMessage : M World unit :=
  modify (add_chat DeleteMessage).

(** [ctx.session?.user]. *)
Definition session_user (w : World) : option UserSession :=
  match ctx_session w with
  | Some s => user s
  | None => None
  end.

(** [if (!ctx.session) ctx.session = {}]. *)
Definition ensure_session : M World unit :=
  modify (fun w => match ctx_session w with
                   | Some _ => w
                   | None => set_ctx_session (Some empty_session) w
                   end).

(** An assignment to a field of [ctx.session]. *)
Definition update_session (f : Session -> Session) : M World unit :=
  fun w =>
    match ctx_session w with
    | Some s => (Ok tt, set_ctx_session (Some (f s)) w)
    | None => (Throw (TypeError "Cannot set properties of undefined"), w)
    end.

(** [ctx.session.f] read. *)
Definition read_session {A} (f : Session -> A) : M World A :=
  fun w =>
    match ctx_session w with
    | Some s => (Ok (f s), w)
    | None => (Throw (TypeError "Cannot read properties of undefined"), w)
    end.

(** ** The services *)

Section Services.

(** The API client as the services see it when its calls settle: a call
    ends with a response or with an error and may change the state of
    the client. [Wire.api_call] is the call that may not settle. *)
Variable api : Config -> ApiState -> (Response + Error) * ApiState.

Definition api_call (config : Config) : M World Response :=
  fun w =>
    let '(outcome, a) := api config (api_state w) in
    let w' := add_call config (set_api_state a w) in
    match outcome with
    | inl response => (Ok response, w')
    | inr error => (Throw error, w')
    end.

Definition api_get (u : string) : M World Response :=
  api_call (request_config GET u JUndefined).

Definition api_post (u : string) (b : JSON) : M World Response :=
  api_call (request_config POST u b).

(** [requestEmailOTP(email)], [auth.service.ts]; it returns
    [response.data]. *)
Definition requestEmailOTP (email : string) : M World JSON :=
  log "Requesting OTP for email: " ;;
  response <- api_post "/auth/email-otp/request"
                (JObj [("email", JStr email)]) ;;
  log "OTP request response:" ;;
  ret (data response).

(** [getKYCStatus()], second copy of [auth.service.ts]. *)
Definition getKYCStatus : M World Response :=
  try_catch
    (log "Fetching KYC status..." ;;
     response <- api_get "/kycs" ;;
     log "KYC Response:" ;;
     ret response)
    (fun error =>
       log "Error fetching KYC status:" ;;
       throw error).

(** [isKycApproved()], second copy of [auth.service.ts]. *)
Definition isKycApproved : M World bool :=
  try_catch
    (log "Checking if KYC is approved..." ;;
     response <- getKYCStatus ;;
     let kycs := data response in
     if (truthy kycs && truthy (get kycs "data") &&
         length_positive (get kycs "data"))%bool
     then
       let latestKyc := first_item (get kycs "data") in
       st <- prop latestKyc "status" ;;
       lowered <- toLowerCase_of st ;;
       let isApproved := String.eqb lowered "approved" in
       log "KYC status: " ;;
       ret isApproved
     else
       log "No KYC data found" ;;
       ret false)
    (fun error =>
       log "Error checking KYC approval status:" ;;
       ret false).

(** [getDefaultWallet()], [wallet.service.ts]; the value is the [data]
    of what it returns. *)
Definition getDefaultWallet : M World JSON :=
  try_catch
    (response <- api_get "/wallets/default" ;;
     ret (data response))
    (fun error =>
       log "Error fetching default wallet:" ;;
       ret JNull).

(** [getWalletBalance()], [wallet.service.ts]; the value is the [data]
    of what it returns. *)
Definition getWalletBalance : M World JSON :=
  try_catch
    (response <- api_get "/wallets/balance" ;;
     ret (data response))
    (fun error =>
       log "Error fetching wallet balance:" ;;
       ret JNull).

(** [getTransfers(page, limit)], [transfer.service.ts]. *)
Definition getTransfers (p l : Z) : M World Response :=
  api_get ("/transfers?page=" +:+ pretty p +:+ "&limit=" +:+ pretty l).

Definition not_eligible (reason : string) : JSON :=
  JObj [("isEligible", JBool false); ("reason", JStr reason)].

Definition eligible : JSON := JObj [("isEligible", JBool true)].

(** [error.response?.data?.message || error.message || "Unknown error"]. *)
Definition errorMessage_of (error : Error) : JSON :=
  let from_response :=
    match error_response error with
    | Some r => match data r with
                | JUndefined | JNull => JUndefined
                | d => get d "message"
                end
    | None => JUndefined
    end in
  js_or from_response (js_or (JStr (error_message error)) (JStr "Unknown error")).

(** The status of the response of an error, when it has one. *)
Definition error_status (error : Error) : option Z :=
  match error_response error with
  | Some r => Some (status r)
  | None => None
  end.

Definition status_is (error : Error) (n : Z) : bool :=
  match error_status error with
  | Some s => s =? n
  | None => false
  end.

(** The [catch (userError)] block of [checkRecipientEligibility],
    lines 55-89. *)
Definition on_userError (email : string) (userError : Error) : M World JSON :=
  if (status_is userError 404 || status_is userError 400)%bool then
    cannot_get <-
      (if status_is userError 404 then
         match error_response userError with
         | Some r =>
             match data r with
             | JUndefined | JNull => ret false
             | d => includes_of "userError.response.data?.message?.includes"
                      (get d "message") "Cannot GET"
             end
         | None => ret false
         end
       else ret false) ;;
    if cannot_get then
      log "User endpoint not available, using fallback eligibility check" ;;
      log "⚠️ WARNING: Unable to verify eligibility for recipient " ;;
      ret eligible
    else ret (not_eligible "Recipient is not registered with Copperx")
  else
    log "Error checking user status:" ;;
    ret eligible.

(** [checkRecipientEligibility(email)], [transfer.service.ts] lines
    17-102 (the same text in both copies). *)
Definition checkRecipientEligibility (email : string) : M World JSON :=
  try_catch
    (try_catch
       (response <- api_post "/transfers/check-recipient"
                      (JObj [("email", JStr email)]) ;;
        ret (data response))
       (fun apiError =>
          if negb (status_is apiError 404) then throw apiError
          else
            log "Using mock implementation for recipient eligibility check" ;;
            try_catch
              (userResponse <- api_get ("/users/by-email/" +:+ email) ;;
               let user := data userResponse in
               hasWallets <- prop user "hasWallets" ;;
               if negb (truthy hasWallets) then
                 ret (not_eligible "Recipient does not have any wallets set up")
               else if negb (is_str (get user "kycStatus") "APPROVED") then
                 ret (not_eligible "Recipient has not completed KYC verification")
               else ret eligible)
              (on_userError email)))
    (fun error =>
       log "Error checking recipient eligibility:" ;;
       ret (not_eligible
              ("Failed to verify recipient: " +:+ toString (errorMessage_of error)))).

(** [sendToEmail(email, amount)], [transfer.service.ts] lines 110-131;
    the other copy posts the body [{email, amount, message}]. *)
Definition sendToEmail (email amount : string) : M World Response :=
  eligibility <- checkRecipientEligibility email ;;
  isEligible <- prop eligibility "isEligible" ;;
  if negb (truthy isEligible) then
    throw (JsError (toString (js_or (get eligibility "reason")
                      (JStr "Recipient is not eligible to receive funds"))))
  else
    api_post "/transfers/send"
      (JObj [("email", JStr email); ("amount", JStr amount);
             ("purposeCode", JStr "self"); ("currency", JStr "USD");
             ("note", JUndefined)]).

(** [sendToWallet(address, amount, network)], lines 139-150; the other
    copy posts the body [{address, amount, network}]. *)
Definition sendToWallet (address amount network : string)
  : M World Response :=
  api_post "/transfers/wallet-withdraw"
    (JObj [("walletAddress", JStr address); ("amount", JStr amount);
           ("purposeCode", JStr "self"); ("currency", JStr "USD")]).

End Services.

(** ** The handlers ([handlers/transfer.handler.ts], [handlers/auth.handler.ts]) *)

(** A string as a condition: [undefined] and the empty string are false. *)
Definition present (s : option string) : bool :=
  match s with
  | Some t => negb (String.eqb t "")
  | None => false
  end.

(** [s === "lit"] on an optional string. *)
Definition is_lit (s : option string) (lit : string) : bool :=
  match s with
  | Some t => String.eqb t lit
  | None => false
  end.

Definition transfer_keyboard : Markup :=
  Keyboard [["💰 Balance"; "📜 History"]; ["👤 Profile"; "ℹ️ Help"]].

Definition MSG_LOGIN_FIRST : string :=
  "❌ You need to login first to use this feature.".

Definition MSG_KYC_NOT_APPROVED : string :=
  "❌ Your KYC is not approved. You cannot perform transfers until your KYC is approved." +:+
  String (ascii_of_nat 10) (String (ascii_of_nat 10)
    "Please complete your KYC on the Copperx platform.").

Definition MSG_NO_DEFAULT_WALLET : string :=
  "❌ You don't have a default wallet set up. Please set up a wallet first.".

Definition MSG_NO_BALANCE : string :=
  "❌ Your wallet doesn't have sufficient balance to perform transfers.".

Definition MSG_ELIGIBILITY_FAILED : string :=
  "❌ Failed to verify transfer eligibility. Please try again later.".

Definition MSG_ENTER_RECIPIENT : string :=
  "Please enter the recipient's email address:".

Definition MSG_INVALID_SESSION : string :=
  "❌ Invalid session state. Please start the transfer process again.".

Definition MSG_MISSING_FIELDS : string :=
  "❌ Missing recipient or amount. Please start the transfer process again.".

Definition MSG_MISSING_NETWORK : string :=
  "❌ Missing network. Please start the transfer process again.".

Definition MSG_TRANSFER_OK : string :=
  "✅ Transfer initiated successfully!" +:+
  String (ascii_of_nat 10) (String (ascii_of_nat 10)
    "You can check the status in your transaction history with /history.").

Definition MSG_TRANSFER_FAILED : string :=
  "❌ Failed to process transfer. Please try again later.".

Definition MSG_NOT_ELIGIBLE (message : string) : string :=
  "❌ Transfer failed: " +:+ message +:+
  String (ascii_of_nat 10) (String (ascii_of_nat 10)
    "The recipient may not have completed their account setup or KYC verification.").

Definition MSG_UNEXPECTED : string :=
  "❌ An unexpected error occurred. Please try again later.".

Definition MSG_INVALID_EMAIL : string :=
  "❌ Invalid email format. Please enter a valid email address.".

Definition MSG_OTP_SENT : string :=
  "✅ OTP has been sent to your email address." +:+
  String (ascii_of_nat 10) (String (ascii_of_nat 10)
    "Please enter the OTP to complete the login process:").

Definition MSG_OTP_FAILED : string :=
  "❌ Failed to send OTP. Please try again later.".

Definition MSG_ENTER_EMAIL : string :=
  "Please enter your email address to login to your Copperx account:".

Section Handlers.

Variable api : Config -> ApiState -> (Response + Error) * ApiState.

(** The sign of [parseFloat(v)]. *)
Variable parseFloat : JSON -> FloatSign.

(** The text of a page of the history, built from the transactions, the
    pagination record and the page number; dates are formatted by the
    engine. *)
Variable history_text : list JSON -> JSON -> Z -> string.

(** [p < v] for a page number [p] and a [v] that is a string, an array
    or an object: the engine converts [v] to a number first. *)
Variable lessThan : Z -> JSON -> bool.

(** [checkAuth(ctx)], [transfer.handler.ts] lines 11-23. *)
Definition checkAuth : M World bool :=
  u <- gets session_user ;;
  match u with
  | None =>
      reply MSG_LOGIN_FIRST (Keyboard [["🔑 Login"]]) ;;
      ret false
  | Some usr =>
      lift_api (setAuthToken (JStr (user_token usr)) None) ;;
      ret true
  end.

(** [canPerformTransfers(ctx)], [transfer.handler.ts] lines 28-94: the
    gate by name. This file's [sendHandler] does not call it, it runs the
    same checks itself after [checkAuth]. *)
Definition canPerformTransfers : M World bool :=
  u <- gets session_user ;;
  match u with
  | None =>
      reply "❌ You need to login first to perform transfers."
        (Keyboard [["🔑 Login"]]) ;;
      ret false
  | Some usr =>
      try_catch
        (lift_api (setAuthToken (JStr (user_token usr)) None) ;;
         kycApproved <- isKycApproved api ;;
         if negb kycApproved then
           reply MSG_KYC_NOT_APPROVED transfer_keyboard ;;
           ret false
         else
           wallet <- getDefaultWallet api ;;
           if (negb (truthy wallet) ||
               negb (truthy (get wallet "walletAddress")))%bool
           then
             reply MSG_NO_DEFAULT_WALLET transfer_keyboard ;;
             ret false
           else
             balance <- getWalletBalance api ;;
             if (negb (truthy balance) || negb (truthy (get balance "balance")) ||
                 le_zero (parseFloat (get balance "balance")))%bool
             then
               reply MSG_NO_BALANCE transfer_keyboard ;;
               ret false
             else ret true)
        (fun error =>
           log "Error checking transfer eligibility:" ;;
           reply MSG_ELIGIBILITY_FAILED NoMarkup ;;
           ret false)
  end.

(** [sendHandler(ctx)], [transfer.handler.ts] lines 295-366. *)
Definition sendHandler : M World unit :=
  authenticated <- checkAuth ;;
  if negb authenticated then ret tt
  else
    try_catch
      (kycApproved <- isKycApproved api ;;
       if negb kycApproved then reply MSG_KYC_NOT_APPROVED transfer_keyboard
       else
         wallet <- getDefaultWallet api ;;
         if (negb (truthy wallet) || negb (truthy (get wallet "walletAddress")))%bool
         then reply MSG_NO_DEFAULT_WALLET transfer_keyboard
         else
           balance <- getWalletBalance api ;;
           if (negb (truthy balance) || negb (truthy (get balance "balance")) ||
               le_zero (parseFloat (get balance "balance")))%bool
           then reply MSG_NO_BALANCE transfer_keyboard
           else
             ensure_session ;;
             update_session
               (set_transferState
                  (Some {| type := Some "EMAIL"; recipient := None;
                           amount := None; transfer_network := None |})) ;;
             reply MSG_ENTER_RECIPIENT (ForceReply "Enter recipient email"))
      (fun error =>
         log "Error checking transfer eligibility:" ;;
         reply MSG_ELIGIBILITY_FAILED NoMarkup).

(** The [try] block of lines 531-553: [true] when control reaches its
    end, [false] for the [return] of line 542. *)
Definition perform_transfer (st : TransferState) (r a : string)
  : M World bool :=
  if is_lit (type st) "EMAIL" then
    sendToEmail api r a ;;
    ret true
  else if is_lit (type st) "WALLET" then
    if negb (present (transfer_network st)) then
      reply MSG_MISSING_NETWORK NoMarkup ;;
      ret false
    else
      sendToWallet api r a (default "" (transfer_network st)) ;;
      ret true
  else ret true.

(** [handleTransferConfirm(ctx)], [transfer.handler.ts] lines 508-587. *)
Definition handleTransferConfirm : M World unit :=
  authenticated <- checkAuth ;;
  if negb authenticated then ret tt
  else
    ts <- read_session transferState ;;
    match ts with
    | None => reply MSG_INVALID_SESSION NoMarkup
    | Some st =>
        try_catch
          (if (negb (present (recipient st)) || negb (present (amount st)))%bool
           then reply MSG_MISSING_FIELDS NoMarkup
           else
             try_catch
               (completed <- perform_transfer st
                               (default "" (recipient st))
                               (default "" (amount st)) ;;
                if completed then
                  editMessageText MSG_TRANSFER_OK ;;
                  update_session (set_transferState (Some empty_transferState))
                else ret tt)
               (fun error =>
                  log "Error processing transfer:" ;;
                  (if (negb (String.eqb (error_message error) "") &&
                       (includes (error_message error) "not eligible" ||
                        includes (error_message error) "Failed to verify recipient"))%bool
                   then editMessageText (MSG_NOT_ELIGIBLE (error_message error))
                   else editMessageText MSG_TRANSFER_FAILED) ;;
                  update_session (set_transferState (Some empty_transferState))))
          (fun error =>
             log "Error in transfer confirmation handler:" ;;
             reply MSG_UNEXPECTED NoMarkup ;;
             modify (fun w =>
                       match ctx_session w with
                       | Some s =>
                           set_ctx_session
                             (Some (set_transferState (Some empty_transferState) s)) w
                       | None => w
                       end))
    end.

(** [handleTransferCancel(ctx)], lines 592-599. *)
Definition handleTransferCancel : M World unit :=
  modify (fun w =>
            match ctx_session w with
            | Some s =>
                set_ctx_session
                  (Some (set_transferState (Some empty_transferState) s)) w
            | None => w
            end) ;;
  editMessageText "❌ Transfer cancelled.".

(** One turn of the [forEach] of lines 152-196, for what it can throw
    and the button it adds: reading a field of a transaction that is
    [null] or [undefined] throws, and so does [getStatusEmoji] on a
    status that is not a string. *)
Definition history_row (index : nat) (transaction : JSON)
  : M World (list (list (string * string))) :=
  prop transaction "createdAt" ;;
  (if truthy (get transaction "status") then
     match get transaction "status" with
     | JStr _ => ret tt
     | _ => throw (TypeError "status.toUpperCase is not a function")
     end
   else ret tt) ;;
  if truthy (get transaction "id") then
    ret [[("🔍 View Details #" +:+ pretty (Z.of_nat index + 1),
           "view:transfer:" +:+ toString (get transaction "id"))]]
  else ret [].

Fixpoint history_rows (index : nat) (transactions : list JSON)
  : M World (list (list (string * string))) :=
  match transactions with
  | [] => ret []
  | t :: rest =>
      row <- history_row index t ;;
      more <- history_rows (S index) rest ;;
      ret (row ++ more)%list
  end.

(** [data.length === 0] for a truthy [data]. *)
Definition length_is_zero (v : JSON) : bool :=
  match v with
  | JArr items => (length items =? 0)%nat
  | JStr s => (String.length s =? 0)%nat
  | JObj fields => is_num (assoc "length" fields) 0
  | _ => false
  end.

(** [page < pagination.totalPages] for a truthy [pagination]. A
    [totalPages] that is not a number is converted to one: [undefined]
    to [NaN], which nothing is below, [null] to 0, [false] and [true] to
    0 and 1, the other values by [lessThan]. *)
Definition page_before_last (p : Z) (pagination : JSON) : bool :=
  match get pagination "totalPages" with
  | JNum n => p <? n
  | JUndefined => false
  | JNull => p <? 0
  | JBool b => p <? (if b then 1 else 0)
  | v => lessThan p v
  end.

(** The pagination buttons of lines 204-221. *)
Definition paginationButtons (p : Z) (pagination : JSON)
  : list (string * string) :=
  ((if 1 <? p then [("◀️ Previous", "history:prev")] else []) ++
   (if (truthy pagination && page_before_last p pagination)%bool
    then [("Next ▶️", "history:next")] else []) ++
   [("🔄 Refresh", "history:refresh")])%list.

Definition first_page : HistoryState := {| page := 1; limit := 5 |}.

(** [if (!ctx.session.historyState) ctx.session.historyState = {...}],
    then the state read back. *)
Definition ensure_historyState : M World HistoryState :=
  hs <- read_session historyState ;;
  match hs with
  | Some h => ret h
  | None =>
      update_session (set_historyState (Some first_page)) ;;
      ret first_page
  end.

(** [fetchAndDisplayHistory(ctx)], lines 119-242. *)
Definition fetchAndDisplayHistory : M World unit :=
  h <- ensure_historyState ;;
  try_catch
    (reply "🔄 Fetching your transaction history..." NoMarkup ;;
     response <- getTransfers api (page h) (limit h) ;;
     transactions <- prop (data response) "data" ;;
     let pagination := get (data response) "pagination" in
     deleteMessage ;;
     if (negb (truthy transactions) || length_is_zero transactions)%bool
     then reply "📭 You don't have any transactions yet." NoMarkup
     else
       match transactions with
       | JArr items =>
           buttons <- history_rows 0 items ;;
           reply (history_text items pagination (page h))
             (InlineKeyboard
                (buttons ++ [paginationButtons (page h) pagination])%list)
       | _ => throw (TypeError "data.forEach is not a function")
       end)
    (fun error =>
       log "Error fetching transaction history:" ;;
       reply "❌ Failed to fetch transaction history. Please try again later."
         NoMarkup).

(** [handleHistoryPagination(ctx, action)], lines 265-290. *)
Definition handleHistoryPagination (action : string) : M World unit :=
  authenticated <- checkAuth ;;
  if negb authenticated then ret tt
  else
    h <- ensure_historyState ;;
    (if (String.eqb action "prev" && (1 <? page h))%bool then
       update_session
         (set_historyState (Some {| page := page h - 1; limit := limit h |}))
     else if String.eqb action "next" then
       update_session
         (set_historyState (Some {| page := page h + 1; limit := limit h |}))
     else ret tt) ;;
    fetchAndDisplayHistory.

(** [loginHandler(ctx)], [auth.handler.ts] lines 103-119. *)
Definition loginHandler : M World unit :=
  ensure_session ;;
  update_session
    (set_authState
       (Some {| auth_email := None; awaitingOTP := false; sid := JUndefined |})) ;;
  reply MSG_ENTER_EMAIL (ForceReply "Enter your email").

(** An assignment to a field of [ctx.session.authState]. *)
Definition update_authState (f : AuthState -> AuthState) : M World unit :=
  a <- read_session authState ;;
  match a with
  | Some st => update_session (set_authState (Some (f st)))
  | None => throw (TypeError "Cannot set properties of undefined")
  end.

(** [handleEmailInput(ctx, email)], [auth.handler.ts] lines 124-166. *)
Definition handleEmailInput (email : string) : M World unit :=
  ensure_session ;;
  a <- read_session authState ;;
  (match a with
   | Some _ => ret tt
   | None =>
       update_session
         (set_authState
            (Some {| auth_email := None; awaitingOTP := false;
                     sid := JUndefined |}))
   end) ;;
  if negb (emailRegex_test email) then reply MSG_INVALID_EMAIL NoMarkup
  else
    try_catch
      (response <- requestEmailOTP api email ;;
       update_authState
         (fun st => {| auth_email := Some email;
                       awaitingOTP := awaitingOTP st; sid := sid st |}) ;;
       update_authState
         (fun st => {| auth_email := auth_email st;
                       awaitingOTP := true; sid := sid st |}) ;;
       s <- prop response "sid" ;;
       update_authState
         (fun st => {| auth_email := auth_email st;
                       awaitingOTP := awaitingOTP st; sid := s |}) ;;
       log "Stored session ID: " ;;
       reply MSG_OTP_SENT (ForceReply "Enter OTP"))
      (fun error =>
         log "Error requesting OTP:" ;;
         reply MSG_OTP_FAILED NoMarkup).

(** [ctx.session?.authState?.awaitingOTP === false]. *)
Definition awaiting_email (w : World) : bool :=
  match ctx_session w with
  | Some s => match authState s with
              | Some a => negb (awaitingOTP a)
              | None => false
              end
  | None => false
  end.

(** The handler of text messages, first file of the sources, lines
    74-139: its first test, which routes a reply to the e-mail prompt;
    [otherwise] is the rest of the handler. *)
Definition on_text (replyText text : string) (otherwise : M World unit)
  : M World unit :=
  is_awaiting <- gets awaiting_email ;;
  if (negb (String.eqb replyText "") && is_awaiting &&
      includes replyText "enter your email address")%bool
  then handleEmailInput text
  else otherwise.

End Handlers.

(** ** The notification bridge ([handlers/notification.handler.ts]) *)

(** A client of the push provider, as the handler configures it: its
    authorization endpoint and header, the channel subscribed, the
    events bound, and whether it is connected. *)
Record Pusher : Type := mkPusher {
  authEndpoint : string;
  auth_Authorization : AuthValue;
  channel : string;
  bound_events : list string;
  connected : bool
}.

(** The module state of the handler: the clients created so far (a
    client is referred to by its position), and the object
    [activePusherInstances], keyed by [`${chatId}:${organizationId}`]. *)
Record Bridge : Type := mkBridge {
  bridge_api : ApiState;
  pushers : list Pusher;
  activePusherInstances : gmap string nat
}.

Definition set_bridge_api (a : ApiState) (w : Bridge) : Bridge :=
  {| bridge_api := a; pushers := pushers w;
     activePusherInstances := activePusherInstances w |}.

Definition set_pushers (l : list Pusher) (w : Bridge) : Bridge :=
  {| bridge_api := bridge_api w; pushers := l;
     activePusherInstances := activePusherInstances w |}.

Definition set_instances (m : gmap string nat) (w : Bridge) : Bridge :=
  {| bridge_api := bridge_api w; pushers := pushers w;
     activePusherInstances := m |}.

Definition bridge_lift {A} (m : M ApiState A) : M Bridge A :=
  fun w => let '(r, a) := m (bridge_api w) in (r, set_bridge_api a w).

Definition bridge_log (line : string) : M Bridge unit :=
  bridge_lift (console_log line).

Definition disconnect (p : Pusher) : Pusher :=
  {| authEndpoint := authEndpoint p;
     auth_Authorization := auth_Authorization p;
     channel := channel p; bound_events := bound_events p;
     connected := false |}.

(** [`${chatId}:${organizationId}`]. *)
Definition instanceKey (chatId : Z) (organizationId : string) : string :=
  pretty chatId +:+ ":" +:+ organizationId.

Section Bridge.

(** [config.apiBaseUrl]. *)
Variable apiBaseUrl : string.

(** The provider's library: whether [new Pusher(...)] returns a client,
    given the clients created so far, or throws. *)
Variable provider_accepts : list Pusher -> bool.

(** [new Pusher(key, options)], [pusher.subscribe(channel)] and the two
    [channel.bind] calls of lines 65-222. *)
Definition new_subscribed_Pusher (token organizationId : string)
  : M Bridge nat :=
  fun w =>
    if provider_accepts (pushers w) then
      let p := {| authEndpoint := apiBaseUrl +:+ "/notifications/auth";
                  auth_Authorization := Bearer (JStr token);
                  channel := "private-organization." +:+ organizationId;
                  bound_events := ["deposit"; "withdrawal"];
                  connected := true |} in
      (Ok (length (pushers w)), set_pushers (pushers w ++ [p])%list w)
    else (Throw (JsError "Pusher"), w).

(** [initializeUserPusher(bot, chatId, token, organizationId)], lines
    45-230. *)
Definition initializeUserPusher (chatId : Z) (token organizationId : string)
  : M Bridge unit :=
  let key := instanceKey chatId organizationId in
  existing <- gets (fun w => activePusherInstances w !! key) ;;
  match existing with
  | Some _ => bridge_log "Pusher already initialized for user "
  | None =>
      try_catch
        (bridge_log "Initializing Pusher for user " ;;
         bridge_lift (setAuthToken (JStr token) None) ;;
         pusher <- new_subscribed_Pusher token organizationId ;;
         modify (fun w => set_instances
                            (<[key := pusher]> (activePusherInstances w)) w) ;;
         bridge_log "Pusher initialized for user ")
        (fun error => bridge_log "Error initializing Pusher for user ")
  end.

(** [cleanupUserPusher(chatId, organizationId)], lines 251-258. *)
Definition cleanupUserPusher (chatId : Z) (organizationId : string)
  : M Bridge unit :=
  let key := instanceKey chatId organizationId in
  existing <- gets (fun w => activePusherInstances w !! key) ;;
  match existing with
  | Some pusher =>
      bridge_log "Cleaning up Pusher for user " ;;
      modify (fun w => set_pushers
                         (alter disconnect pusher (pushers w)) w) ;;
      modify (fun w => set_instances (delete key (activePusherInstances w)) w)
  | None => ret tt
  end.

(** The clients of the provider that are connected and subscribed to the
    channel of an organization. *)
Definition active_subscriptions (organizationId : string) (w : Bridge)
  : list Pusher :=
  filter (fun p => connected p = true /\
                   channel p = "private-organization." +:+ organizationId)
         (pushers w).

End Bridge.

(** ** More of JavaScript, used by the rest of the services and handlers *)

(** A line feed, written [\n] in the sources. *)
Definition LF : string := String (ascii_of_nat 10) EmptyString.

(** [\d]: a decimal digit. *)
Definition is_digit (c : ascii) : bool :=
  let n := nat_of_ascii c in ((48 <=? n) && (n <=? 57))%nat.

Fixpoint all_digits (s : string) : bool :=
  match s with
  | EmptyString => true
  | String c rest => (is_digit c && all_digits rest)%bool
  end.

(** [/^\d+$/.test(otp)], [auth.handler.ts] line 185. *)
Definition otpRegex_test (otp : string) : bool :=
  match otp with
  | EmptyString => false
  | String _ _ => all_digits otp
  end.

(** What is left of a text after the digits it starts with. *)
Fixpoint after_digits (s : string) : string :=
  match s with
  | EmptyString => EmptyString
  | String c rest => if is_digit c then after_digits rest else s
  end.

(** [/^\d+(\.\d{1,6})?$/.test(amount)], [transfer.handler.ts] line 411:
    a digit first, then after the run of digits either the end, or a dot
    and one to six digits up to the end. *)
Definition amountRegex_test (amount : string) : bool :=
  match amount with
  | EmptyString => false
  | String c _ =>
      (is_digit c &&
       match after_digits amount with
       | EmptyString => true
       | String d fraction =>
           Ascii.eqb d "." && all_digits fraction &&
           (1 <=? String.length fraction)%nat && (String.length fraction <=? 6)%nat
       end)%bool
  end.

(** The reading of that regular expression itself. *)
Definition amount_shape (amount : string) : Prop :=
  exists whole : string,
    whole <> "" /\ all_digits whole = true /\
    (amount = whole \/
     exists fraction : string,
       amount = whole +:+ "." +:+ fraction /\ all_digits fraction = true /\
       (1 <= String.length fraction <= 6)%nat).

(** [Array.isArray(v)]. *)
Definition isArray (v : JSON) : bool :=
  match v with
  | JArr _ => true
  | _ => false
  end.

(** [items.join(sep)]: [null] and [undefined] give the empty text. *)
Definition join (sep : string) (items : list JSON) : string :=
  String.concat sep
    (map (fun x => match x with
                   | JUndefined | JNull => ""
                   | _ => toString x
                   end) items).

(** An optional string inside a template literal. *)
Definition opt_text (s : option string) : string := default "undefined" s.

(** [s || fallback] on an optional string. *)
Definition or_text (s : option string) (fallback : string) : string :=
  if present s then default "" s else fallback.

(** A value of a payload stored in a session field that
    [types/index.ts] declares a [string]: the string itself, as the
    types of the API have it; of a value of another type the text is
    kept. *)
Definition as_string (v : JSON) : string := toString v.

(** The same for a field declared [string | undefined]. *)
Definition as_optional_string (v : JSON) : option string :=
  match v with
  | JUndefined => None
  | _ => Some (toString v)
  end.

(** A payload that follows the declared type [User]. *)
Definition typed_user (user : JSON) : bool :=
  (match get user "id" with JStr _ => true | _ => false end &&
   match get user "email" with JStr _ => true | _ => false end &&
   match get user "organizationId" with JStr _ => true | _ => false end &&
   match get user "firstName" with JStr _ | JUndefined => true | _ => false end &&
   match get user "lastName" with JStr _ | JUndefined => true | _ => false end)%bool.

Definition set_user (u : option UserSession) (s : Session) : Session :=
  {| user := u; authState := authState s; transferState := transferState s;
     historyState := historyState s; walletAddresses := walletAddresses s;
     depositState := depositState s |}.

Definition set_user_token (t : string) (u : UserSession) : UserSession :=
  {| userId := userId u; user_email := user_email u; firstName := firstName u;
     lastName := lastName u; user_token := t;
     organizationId := organizationId u; user_status := user_status u |}.

(** [parseInt(s, 10)] of a run of decimal digits. *)
Definition digit_value (c : ascii) : Z := Z.of_nat (nat_of_ascii c) - 48.

Fixpoint parseInt_from (acc : Z) (s : string) : Z :=
  match s with
  | EmptyString => acc
  | String c rest => parseInt_from (acc * 10 + digit_value c) rest
  end.

Definition parseInt_digits (s : string) : Z := parseInt_from 0 s.

(** ** More of the services ([wallet.service.ts], [auth.service.ts],
    [transfer.service.ts]) *)

(** An element of the argument of [sendBatch]. *)
Record BatchTransfer : Type := mkBatchTransfer {
  batch_email : string;
  batch_amount : string;
  batch_message : option string
}.

(** The chain ids [createDeposit] accepts, lines 218-227. *)
Definition validChainIds : list string :=
  ["137"; "42161"; "10"; "8453"; "1"; "56"; "43114"; "23434"].

Definition MSG_AMOUNT_BELOW_ONE : string :=
  "Validation error: Amount must be at least 1 USDC".

Definition MSG_INVALID_CHAIN : string :=
  "Validation error: Invalid chain ID. Supported chains are: " +:+
  String.concat ", " validChainIds.

Section MoreServices.

Variable api : Config -> ApiState -> (Response + Error) * ApiState.

(** [encodeURIComponent]. *)
Variable encodeURIComponent : string -> string.

(** [new Date(v).getTime()]; [None] is [NaN]. *)
Variable getTime : JSON -> option Z.

(** [isNaN(parseFloat(amount)) || parseFloat(amount) < 1]. *)
Variable below_one : string -> bool.

(** [getUserProfile()], [auth.service.ts]. *)
Definition getUserProfile : M World Response := api_get api "/auth/me".

(** [authenticateWithOTP(email, otp, sid)], [auth.service.ts] (the same
    text in both copies); it returns [response.data]. Destructuring a
    [data] that is [null] or [undefined] throws. *)
Definition authenticateWithOTP (email otp : string) (sid : JSON)
  : M World JSON :=
  log "Authenticating with OTP for email: " ;;
  try_catch
    (response <- api_post api "/auth/email-otp/authenticate"
                   (JObj [("email", JStr email); ("otp", JStr otp);
                          ("sid", sid)]) ;;
     log "Authentication successful:" ;;
     accessToken <- prop (data response) "accessToken" ;;
     let expireAt := get (data response) "expireAt" in
     (if truthy accessToken then
        t <- lift_api (gets now) ;;
        let expiresIn :=
          if truthy expireAt then
            match getTime expireAt with
            | Some ms => Some ((ms - t) / 1000)
            | None => None
            end
          else None in
        lift_api (setAuthToken accessToken expiresIn)
      else ret tt) ;;
     ret (data response))
    (fun error =>
       log "Authentication error:" ;;
       (match error_response error with
        | Some r =>
            log "Error response status:" ;;
            log "Error response data:" ;;
            if (truthy (data r) && truthy (get (data r) "message"))%bool then
              if isArray (get (data r) "message")
              then log "Validation errors:"
              else log "Error message:"
            else ret tt
        | None => ret tt
        end) ;;
       throw error).

(** [getFeeInfo(type, amount, network?)], [transfer.service.ts] lines
    291-313. *)
Definition getFeeInfo (type amount : string) (network : option string)
  : M World Response :=
  let params :=
    ([("type", type); ("amount", amount)] ++
     (if present network then [("network", default "" network)] else []))%list in
  let queryString :=
    String.concat "&"
      (map (fun kv => fst kv +:+ "=" +:+ encodeURIComponent (snd kv)) params) in
  api_get api ("/transfers/fee-info" +:+ "?" +:+ queryString).

(** The [for] loop of [sendBatch], lines 172-179. *)
Fixpoint check_recipients (transfers : list BatchTransfer) : M World unit :=
  match transfers with
  | [] => ret tt
  | transfer :: rest =>
      eligibility <- checkRecipientEligibility api (batch_email transfer) ;;
      isEligible <- prop eligibility "isEligible" ;;
      if negb (truthy isEligible) then
        throw (JsError ("Recipient " +:+ batch_email transfer +:+
                        " is not eligible: " +:+
                        toString (get eligibility "reason")))
      else check_recipients rest
  end.

(** One element of [requests], lines 182-191. *)
Definition batch_request (index : nat) (transfer : BatchTransfer) : JSON :=
  JObj [("requestId", JStr ("req_" +:+ pretty index));
        ("request",
         JObj [("email", JStr (batch_email transfer));
               ("amount", JStr (batch_amount transfer));
               ("purposeCode", JStr "self"); ("currency", JStr "USD");
               ("note", match batch_message transfer with
                        | Some m => JStr m
                        | None => JUndefined
                        end)])].

(** [sendBatch(transfers)], [transfer.service.ts] lines 168-194. *)
Definition sendBatch (transfers : list BatchTransfer) : M World Response :=
  check_recipients transfers ;;
  api_post api "/transfers/send-batch"
    (JObj [("requests", JArr (imap batch_request transfers))]).

(** [messages.map((m) => m.property)], line 266. *)
Fixpoint properties_of (messages : list JSON) : M World (list JSON) :=
  match messages with
  | [] => ret []
  | m :: rest =>
      p <- prop m "property" ;;
      more <- properties_of rest ;;
      ret (p :: more)
  end.

(** [createDeposit(amount, depositChainId)], [transfer.service.ts]
    lines 209-275. [parseInt] is reached with a member of
    [validChainIds] only, a run of decimal digits. *)
Definition createDeposit (amount depositChainId : string)
  : M World Response :=
  try_catch
    (if below_one amount then throw (JsError MSG_AMOUNT_BELOW_ONE)
     else if negb (existsb (String.eqb depositChainId) validChainIds)
     then throw (JsError MSG_INVALID_CHAIN)
     else
       log "Creating deposit with amount=" ;;
       api_post api "/transfers/deposit"
         (JObj [("amount", JStr amount);
                ("depositChainId", JNum (parseInt_digits depositChainId));
                ("sourceOfFunds", JStr "salary")]))
    (fun error =>
       if (negb (String.eqb (error_message error) "") &&
           includes (error_message error) "Validation error")%bool
       then throw error
       else
         (match error_response error with
          | Some r =>
              log "Deposit API error:" ;;
              if status r =? 422 then
                messages <- prop (data r) "message" ;;
                match messages with
                | JArr items =>
                    details <- properties_of items ;;
                    throw (JsError ("Validation error: Invalid " +:+
                                    join ", " details))
                | _ => ret tt
                end
              else ret tt
          | None => ret tt
          end) ;;
         throw error).

End MoreServices.

(** ** More of the handlers ([handlers/transfer.handler.ts]) *)

(** The object literal of [formatNetworkName], lines 856-863. *)
Definition networkMap : list (string * string) :=
  [("1", "Ethereum"); ("137", "Polygon"); ("56", "BSC");
   ("42161", "Arbitrum"); ("8453", "Base"); ("23434", "Blast")].

Fixpoint own_property (k : string) (fields : list (string * string))
  : option string :=
  match fields with
  | [] => None
  | (k', v) :: rest => if String.eqb k k' then Some v else own_property k rest
  end.

Definition confirm_keyboard : Markup :=
  InlineKeyboard [[("✅ Confirm", "transfer:confirm");
                   ("❌ Cancel", "transfer:cancel")]].

Definition MSG_ENTER_AMOUNT_SEND : string :=
  "Please enter the amount to send (in USDC):".

Definition MSG_ENTER_AMOUNT_WITHDRAW : string :=
  "Please enter the amount to withdraw (in USDC):".

Definition MSG_INVALID_AMOUNT : string :=
  "❌ Invalid amount format. Please enter a valid number.".

(** [if (!ctx.session.transferState) ctx.session.transferState = {}]. *)
Definition ensure_transferState : M World unit :=
  ts <- read_session transferState ;;
  match ts with
  | Some _ => ret tt
  | None => update_session (set_transferState (Some empty_transferState))
  end.

(** An assignment to a field of [ctx.session.transferState]. *)
Definition update_transferState (f : TransferState -> TransferState)
  : M World unit :=
  ts <- read_session transferState ;;
  match ts with
  | Some st => update_session (set_transferState (Some (f st)))
  | None => throw (TypeError "Cannot set properties of undefined")
  end.

Definition set_type (t : option string) (st : TransferState) : TransferState :=
  {| type := t; recipient := recipient st; amount := amount st;
     transfer_network := transfer_network st |}.

Definition set_recipient (r : option string) (st : TransferState)
  : TransferState :=
  {| type := type st; recipient := r; amount := amount st;
     transfer_network := transfer_network st |}.

Definition set_amount (a : option string) (st : TransferState) : TransferState :=
  {| type := type st; recipient := recipient st; amount := a;
     transfer_network := transfer_network st |}.

Definition set_transfer_network (n : option string) (st : TransferState)
  : TransferState :=
  {| type := type st; recipient := recipient st; amount := amount st;
     transfer_network := n |}.

Section MoreHandlers.

Variable api : Config -> ApiState -> (Response + Error) * ApiState.
Variable history_text : list JSON -> JSON -> Z -> string.
Variable lessThan : Z -> JSON -> bool.
Variable encodeURIComponent : string -> string.

(** The text of a property that every object inherits ([constructor],
    [toString], ...), for a name that is one; [None] for the other
    names. *)
Variable inherited : string -> option string.

(** [formatNetworkName(network)], lines 855-866:
    [networkMap[network] || network]. *)
Definition formatNetworkName (network : string) : string :=
  match own_property network networkMap with
  | Some name => name
  | None => default network (inherited network)
  end.

(** [historyHandler(ctx)], lines 99-114. *)
Definition historyHandler : M World unit :=
  authenticated <- checkAuth ;;
  if negb authenticated then ret tt
  else
    hs <- read_session historyState ;;
    (match hs with
     | None => update_session (set_historyState (Some first_page))
     | Some h =>
         update_session
           (set_historyState (Some {| page := 1; limit := limit h |}))
     end) ;;
    fetchAndDisplayHistory api history_text lessThan.

(** The lines of the confirmation that name the transfer, lines 437-444
    and 480-487. *)
Definition confirm_details (transferType : string) (recipient network : option string)
    (amount : string) : string :=
  if String.eqb transferType "EMAIL" then
    "*Recipient:* " +:+ opt_text recipient +:+ LF +:+
    "*Amount:* " +:+ amount +:+ " USDC" +:+ LF
  else if String.eqb transferType "WALLET" then
    "*Recipient Address:* `" +:+ opt_text recipient +:+ "`" +:+ LF +:+
    "*Network:* " +:+ formatNetworkName (or_text network "") +:+ LF +:+
    "*Amount:* " +:+ amount +:+ " USDC" +:+ LF
  else "".

(** The lines of the confirmation that give the fee, lines 447-459. *)
Definition fee_details (feeInfo : JSON) : string :=
  if truthy feeInfo then
    (if truthy (get feeInfo "fee")
     then "*Fee:* " +:+ toString (get feeInfo "fee") +:+ " USDC" +:+ LF
     else "") +:+
    (if truthy (get feeInfo "totalAmount")
     then "*Total Amount:* " +:+ toString (get feeInfo "totalAmount") +:+
          " USDC" +:+ LF
     else "") +:+
    (if truthy (get feeInfo "estimatedTime")
     then "*Estimated Time:* " +:+ toString (get feeInfo "estimatedTime") +:+ LF
     else "")
  else "".

Definition confirm_message (details fees : string) : string :=
  "📤 *Confirm Transfer*" +:+ LF +:+ LF +:+ details +:+ fees +:+
  LF +:+ "Do you want to proceed with this transfer?".

(** [handleAmountInput(ctx, amount)], lines 400-503. *)
Definition handleAmountInput (amount : string) : M World unit :=
  authenticated <- checkAuth ;;
  if negb authenticated then ret tt
  else
    ts <- read_session transferState ;;
    match ts with
    | None => reply MSG_INVALID_SESSION NoMarkup
    | Some st =>
        if negb (amountRegex_test amount) then reply MSG_INVALID_AMOUNT NoMarkup
        else
          update_transferState (set_amount (Some amount)) ;;
          let transferType := or_text (type st) "EMAIL" in
          let recipient := recipient st in
          let network := transfer_network st in
          try_catch
            (feeResponse <- getFeeInfo api encodeURIComponent
                              transferType amount network ;;
             let feeInfo := data feeResponse in
             reply (confirm_message
                      (confirm_details transferType recipient network amount)
                      (fee_details feeInfo))
               confirm_keyboard)
            (fun error =>
               log "Error getting fee information:" ;;
               reply (confirm_message
                        (confirm_details transferType recipient network amount)
                        "")
                 confirm_keyboard)
    end.

(** [handleNetworkSelection(ctx, network)], lines 726-746. *)
Definition handleNetworkSelection (network : string) : M World unit :=
  authenticated <- checkAuth ;;
  if negb authenticated then ret tt
  else
    ensure_transferState ;;
    update_transferState (set_type (Some "WALLET")) ;;
    update_transferState (set_transfer_network (Some network)) ;;
    reply ("Network selected: " +:+ network +:+ LF +:+ LF +:+
           "Please enter the recipient wallet address:")
      (ForceReply "Enter wallet address").

(** [handleWalletAddressInput(ctx, address)], lines 751-768. *)
Definition handleWalletAddressInput (address : string) : M World unit :=
  authenticated <- checkAuth ;;
  if negb authenticated then ret tt
  else
    ensure_transferState ;;
    update_transferState (set_recipient (Some address)) ;;
    reply MSG_ENTER_AMOUNT_WITHDRAW (ForceReply "Enter amount").

End MoreHandlers.

(** [handleEmailInput] of [transfer.handler.ts], lines 371-395; the
    first file of the sources calls it [transferHandler.handleEmailInput]. *)
Module transferHandler.

Definition handleEmailInput (email : string) : M World unit :=
  authenticated <- checkAuth ;;
  if negb authenticated then ret tt
  else
    ensure_transferState ;;
    if negb (emailRegex_test email) then reply MSG_INVALID_EMAIL NoMarkup
    else
      update_transferState (set_type (Some "EMAIL")) ;;
      update_transferState (set_recipient (Some email)) ;;
      reply MSG_ENTER_AMOUNT_SEND (ForceReply "Enter amount").

End transferHandler.

(** ** More of the login flow ([handlers/auth.handler.ts] and the
    actions of the first file of the sources) *)

Definition login_keyboard : Markup :=
  Keyboard [["🔑 Login"]; ["ℹ️ Help"; "📞 Support"]].

Definition main_keyboard : Markup :=
  Keyboard [["👤 Profile"; "🔑 KYC Status"];
            ["🪙 Wallets"; "💰 Balance"];
            ["💸 Send Money"; "📥 Deposit"];
            ["⚙️ Set Default Wallet"; "➕ Add Payee"];
            ["📜 Transactions"; "🔒 Logout"]].

Definition retry_keyboard : Markup :=
  InlineKeyboard [[("Yes, send new OTP", "login:new_otp");
                   ("No, cancel login", "login:cancel")]].

Definition MSG_INVALID_LOGIN_STATE : string :=
  "❌ Invalid session state. Please start the login process again.".

Definition MSG_INVALID_OTP : string :=
  "❌ Invalid OTP format. OTP should contain only numbers. Please try again.".

Definition MSG_AUTH_FAILED : string :=
  "❌ Authentication failed. Please try again.".

Definition MSG_KYC_PENDING : string :=
  "⚠️ Your KYC is not approved yet. Some features may be limited." +:+
  LF +:+ LF +:+ "Please complete your KYC on the Copperx platform.".

Definition MSG_KYC_MISSING : string :=
  "⚠️ You haven't submitted your KYC yet. Some features may be limited." +:+
  LF +:+ LF +:+ "Please complete your KYC on the Copperx platform.".

Definition MSG_NEW_OTP_SENT : string :=
  "✅ A new OTP has been sent to your email address." +:+ LF +:+ LF +:+
  "Please enter the OTP to complete the login process:".

Definition MSG_LOGGED_OUT : string :=
  "✅ You have been logged out successfully.".

Definition MSG_HELP : string :=
  "🤖 *Available Commands*" +:+ LF +:+ LF +:+
  "*Authentication*" +:+ LF +:+
  "• /login - Log in to your account" +:+ LF +:+
  "• /logout - Log out from your account" +:+ LF +:+
  "• /profile - View your profile information" +:+ LF +:+
  "• /kycstatus - Check your KYC verification status" +:+ LF +:+ LF +:+
  "*Wallet Management*" +:+ LF +:+
  "• /balance - Check your wallet balance" +:+ LF +:+
  "• /wallets - List your wallets" +:+ LF +:+
  "• /setdefault - Set your default wallet" +:+ LF +:+ LF +:+
  "*Transfers*" +:+ LF +:+
  "• /send - Send funds to another user" +:+ LF +:+
  "• /withdraw - Withdraw funds" +:+ LF +:+
  "• /deposit - Get deposit information" +:+ LF +:+
  "• /history - View transaction history" +:+ LF +:+ LF +:+
  "*Support*" +:+ LF +:+
  "• /help - Show this help message" +:+ LF +:+
  "• /support - Get support information" +:+ LF +:+ LF +:+
  "💡 *Tip:* Most commands require you to be logged in first.".

(** [helpHandler(ctx)], [auth.handler.ts] lines 59-86. *)
Definition helpHandler : M World unit := reply MSG_HELP NoMarkup.

(** [logoutHandler(ctx)], [auth.handler.ts] lines 321-334. *)
Definition logoutHandler : M World unit :=
  u <- gets session_user ;;
  match u with
  | None => reply "You are not logged in." NoMarkup
  | Some _ =>
      update_session (set_user None) ;;
      reply MSG_LOGGED_OUT login_keyboard
  end.

(** The state in which [handleOTPInput] goes on, lines 172-176: the
    e-mail address and the [sid] of a flow that awaits the OTP. *)
Definition otp_awaited (w : World) : option (string * JSON) :=
  match ctx_session w with
  | Some s =>
      match authState s with
      | Some a =>
          if (present (auth_email a) && awaitingOTP a && truthy (sid a))%bool
          then Some (default "" (auth_email a), sid a)
          else None
      | None => None
      end
  | None => None
  end.

(** The action [login:cancel], first file of the sources, lines
    179-198. *)
Definition login_cancel : M World unit :=
  modify (fun w =>
            match ctx_session w with
            | Some s =>
                set_ctx_session
                  (Some (set_authState
                           (Some {| auth_email := None; awaitingOTP := false;
                                    sid := JUndefined |}) s)) w
            | None => w
            end) ;;
  editMessageText
    "❌ Login cancelled. You can try again by clicking the Login button." ;;
  reply "Use the buttons below to navigate:" login_keyboard.

(** [ctx.session?.authState?.email]. *)
Definition session_email (w : World) : option string :=
  match ctx_session w with
  | Some s => match authState s with
              | Some a => auth_email a
              | None => None
              end
  | None => None
  end.

(** [ctx.session && ctx.session.authState]. *)
Definition has_authState (w : World) : bool :=
  match ctx_session w with
  | Some s => match authState s with
              | Some _ => true
              | None => false
              end
  | None => false
  end.

Section MoreLogin.

Variable api : Config -> ApiState -> (Response + Error) * ApiState.
Variable getTime : JSON -> option Z.

(** [JSON.stringify]. *)
Variable stringify : JSON -> string.

(** The message of the [catch] block of [handleOTPInput], lines
    260-303. *)
Definition otp_error_message (error : Error) : string :=
  "❌ Authentication failed. " +:+
  match error_response error with
  | Some r =>
      let message := match data r with
                     | JUndefined | JNull => JUndefined
                     | d => get d "message"
                     end in
      if status r =? 422 then
        "The OTP validation failed. " +:+
        (if (truthy (data r) && truthy message && isArray message)%bool then
           let specificError := stringify message in
           if includes specificError "expired"
           then "The OTP has expired. Please request a new OTP."
           else if includes specificError "invalid"
           then "The OTP is invalid. Please check and try again."
           else if includes specificError "sid"
           then "Session expired. Please request a new OTP."
           else specificError
         else "Please request a new OTP and try again.")
      else if status r =? 401 then
        "Invalid credentials. Please check your email and try again."
      else if status r =? 429 then
        "Too many attempts. Please wait a few minutes before trying again."
      else if (truthy (data r) && truthy message)%bool then
        match message with
        | JArr items => join ", " items
        | _ => toString message
        end
      else ""
  | None => "Please try again later."
  end.

(** The session record of lines 213-220. *)
Definition user_of_profile (user accessToken : JSON) : UserSession :=
  {| userId := as_string (get user "id");
     user_email := as_string (get user "email");
     firstName := as_optional_string (get user "firstName");
     lastName := as_optional_string (get user "lastName");
     user_token := as_string accessToken;
     organizationId := as_string (get user "organizationId");
     user_status := None |}.

(** The KYC notice after a login, lines 235-255. *)
Definition kyc_notice : M World unit :=
  try_catch
    (kycResponse <- getKYCStatus api ;;
     let kycs := data kycResponse in
     if (truthy kycs && truthy (get kycs "data") &&
         length_positive (get kycs "data"))%bool
     then
       let latestKyc := first_item (get kycs "data") in
       st <- prop latestKyc "status" ;;
       lowered <- toLowerCase_of st ;;
       if negb (String.eqb lowered "approved")
       then reply MSG_KYC_PENDING NoMarkup
       else ret tt
     else reply MSG_KYC_MISSING NoMarkup)
    (fun error => log "Error checking KYC status:").

(** [handleOTPInput(ctx, otp)], [auth.handler.ts] lines 171-316. *)
Definition handleOTPInput (otp : string) : M World unit :=
  awaited <- gets otp_awaited ;;
  match awaited with
  | None => reply MSG_INVALID_LOGIN_STATE (Keyboard [["🔑 Login"]])
  | Some (email, sid) =>
      if negb (otpRegex_test otp) then reply MSG_INVALID_OTP NoMarkup
      else
        try_catch
          (response <- authenticateWithOTP api getTime email otp sid ;;
           accessToken <- prop response "accessToken" ;;
           if negb (truthy accessToken) then reply MSG_AUTH_FAILED NoMarkup
           else
             lift_api (setAuthToken accessToken None) ;;
             profileResponse <- getUserProfile api ;;
             let user := data profileResponse in
             prop user "id" ;;
             update_session (set_user (Some (user_of_profile user accessToken))) ;;
             reply ("✅ Login successful!" +:+ LF +:+ LF +:+ "Welcome " +:+
                    toString (js_or (get user "firstName") (get user "email")) +:+
                    "!")
               main_keyboard ;;
             kyc_notice)
          (fun error =>
             log "Error authenticating with OTP:" ;;
             reply (otp_error_message error) NoMarkup ;;
             reply "Would you like to request a new OTP?" retry_keyboard)
  end.

(** The action [login:new_otp], first file of the sources, lines
    148-177. *)
Definition login_new_otp : M World unit :=
  email <- gets session_email ;;
  if negb (present email) then
    editMessageText "❌ Session expired. Please start the login process again."
  else
    try_catch
      (response <- requestEmailOTP api (default "" email) ;;
       armed <- gets has_authState ;;
       (if armed then
          update_authState
            (fun st => {| auth_email := auth_email st; awaitingOTP := true;
                          sid := sid st |}) ;;
          s <- prop response "sid" ;;
          update_authState
            (fun st => {| auth_email := auth_email st;
                          awaitingOTP := awaitingOTP st; sid := s |})
        else ret tt) ;;
       editMessageText MSG_NEW_OTP_SENT)
      (fun error =>
         log "Error requesting OTP:" ;;
         editMessageText MSG_OTP_FAILED).

End MoreLogin.

(** ** The handler of text messages (first file of the sources, lines
    74-139) *)

(** [ctx.session?.authState?.awaitingOTP === true]. *)
Definition awaiting_otp (w : World) : bool :=
  match ctx_session w with
  | Some s => match authState s with
              | Some a => awaitingOTP a
              | None => false
              end
  | None => false
  end.

(** [ctx.session?.transferState?.type === lit]. *)
Definition transfer_type_is (lit : string) (w : World) : bool :=
  match ctx_session w with
  | Some s => match transferState s with
              | Some st => is_lit (type st) lit
              | None => false
              end
  | None => false
  end.

(** [ctx.session?.transferState] and [ctx.session?.depositState] as
    conditions. *)
Definition has_transferState (w : World) : bool :=
  match ctx_session w with
  | Some s => match transferState s with
              | Some _ => true
              | None => false
              end
  | None => false
  end.

Definition has_depositState (w : World) : bool :=
  match ctx_session w with
  | Some s => match depositState s with
              | Some _ => true
              | None => false
              end
  | None => false
  end.

Section Router.

Variable api : Config -> ApiState -> (Response + Error) * ApiState.
Variable getTime : JSON -> option Z.
Variable stringify : JSON -> string.
Variable encodeURIComponent : string -> string.
Variable inherited : string -> option string.

(** [transferHandler.handleDepositAmountInput], which is not embedded. *)
Variable handleDepositAmountInput : string -> M World unit.

(** The whole handler; its first test is [on_text]. *)
Definition on_text_message (replyText text : string) : M World unit :=
  let replied := negb (String.eqb replyText "") in
  on_text api replyText text
    (is_otp <- gets awaiting_otp ;;
     if (replied && is_otp && includes replyText "enter the OTP")%bool
     then handleOTPInput api getTime stringify text
     else
       to_email <- gets (transfer_type_is "EMAIL") ;;
       if (replied && to_email &&
           includes replyText "recipient's email address")%bool
       then transferHandler.handleEmailInput text
       else
         to_wallet <- gets (transfer_type_is "WALLET") ;;
         if (replied && to_wallet &&
             includes replyText "recipient wallet address")%bool
         then handleWalletAddressInput text
         else
           in_transfer <- gets has_transferState ;;
           if (replied && in_transfer && includes replyText "amount")%bool
           then handleAmountInput api encodeURIComponent inherited text
           else
             in_deposit <- gets has_depositState ;;
             if (replied && in_deposit &&
                 includes replyText "amount you want to deposit")%bool
             then handleDepositAmountInput text
             else
               log "Unknown command received:" ;;
               helpHandler).

End Router.

(** ** The middleware (sixth file of the sources) *)

(** The bot between two updates: the [Map] of the session middleware,
    keyed by chat id, the state of the API client, and what was sent to
    the chats and asked of the API. *)
Record Bot : Type := mkBot {
  sessions : gmap Z Session;
  bot_api : ApiState;
  bot_chat : list ChatAction;
  bot_calls : list Config
}.

(** The world of the handlers of one update, whose [ctx.session] is
    [s]. *)
Definition world_in (b : Bot) (s : option Session) : World :=
  {| api_state := bot_api b; ctx_session := s; chat := bot_chat b;
     calls := bot_calls b |}.

(** The bot after the handlers of an update, with the given [Map]. *)
Definition bot_after (m : gmap Z Session) (w : World) : Bot :=
  {| sessions := m; bot_api := api_state w; bot_chat := chat w;
     bot_calls := calls w |}.

(** [sessionMiddleware], lines 10-28. The session attached to the
    context is the object stored in the [Map], when there is one: what
    the handlers assign to its fields is in the [Map] at once, also when
    they throw before line 27 is reached. A session created at line 18
    is in the [Map] only after line 27. No handler assigns
    [ctx.session] itself when it is set. *)
Definition sessionMiddleware (chatId : option Z) (next : M World unit)
  : M Bot unit :=
  fun b =>
    let without_chat :=
      let '(r, w) := next (world_in b None) in
      (r, bot_after (sessions b) w) in
    match chatId with
    | None => without_chat
    | Some id =>
        if id =? 0 then without_chat
        else
          let stored := sessions b !! id in
          let '(r, w) := next (world_in b (Some (default empty_session stored))) in
          let saved :=
            match ctx_session w with
            | Some s => <[id := s]> (sessions b)
            | None => delete id (sessions b)
            end in
          match r with
          | Ok _ => (Ok tt, bot_after saved w)
          | _ =>
              (r, bot_after (match stored with
                             | Some _ => saved
                             | None => sessions b
                             end) w)
          end
    end.

(** The session the handlers of the next update of a chat start with,
    lines 11-21. *)
Definition session_seen (chatId : option Z) (b : Bot) : option Session :=
  match chatId with
  | None => None
  | Some id =>
      if id =? 0 then None
      else Some (default empty_session (sessions b !! id))
  end.

Section AuthMiddleware.

(** [refreshToken()] of [auth.service.ts]. *)
Variable refreshToken : M ApiState (option TokenInfo).

(** An assignment to [ctx.session.user.token]. *)
Definition update_user_token (t : string) : M World unit :=
  u <- read_session user ;;
  match u with
  | Some usr => update_session (set_user (Some (set_user_token t usr)))
  | None => throw (TypeError "Cannot set properties of undefined")
  end.

(** [authMiddleware], lines 37-70. *)
Definition authMiddleware (next : M World unit) : M World unit :=
  u <- gets session_user ;;
  (match u with
   | Some usr =>
       expired <- lift_api (gets isTokenExpired) ;;
       if expired then
         log "Session token expired, attempting to refresh..." ;;
         try_catch
           (newToken <- lift_api refreshToken ;;
            match newToken with
            | Some nt =>
                update_user_token (as_string (token nt)) ;;
                lift_api (setAuthToken (token nt) (expiresIn nt)) ;;
                log "Session token refreshed successfully"
            | None =>
                log "Failed to refresh token, clearing session" ;;
                update_session (set_user None)
            end)
           (fun error =>
              log "Error refreshing session token:" ;;
              update_session (set_user None))
       else lift_api (setAuthToken (JStr (user_token usr)) None)
   | None => ret tt
   end) ;;
  next.

End AuthMiddleware.

(** ** The handlers on the wire

    The transfer confirmation and the history reset or keep their state
    around awaited calls, so what they leave behind depends on how those
    calls end. This module follows the same source lines as the handlers
    above with the calls as they are: Telegram accepts a call, rejects
    it (the promise of [ctx.reply] rejects and the [await] throws) or
    never answers, and a call of the API client returns, throws or never
    settles (the client of [api.ts] is such a function,
    [request fuel env]). *)

(** What Telegram does with a call: it accepts it, rejects it with an
    error, or never answers. *)
Inductive Delivery : Type :=
| Accepted
| Rejected (e : Error)
| NoAnswer.

Module Wire.

Section Wire.

(** What Telegram does with a call, given what the chat received so
    far. *)
Variable telegram : list ChatAction -> ChatAction -> Delivery.

(** The API client: [api.get] and [api.post]. *)
Variable client : Config -> M ApiState Response.

Variable history_text : list JSON -> JSON -> Z -> string.
Variable lessThan : Z -> JSON -> bool.

(** An awaited call of Telegram. *)
Definition send (a : ChatAction) : M World unit :=
  fun w =>
    match telegram (chat w) a with
    | Accepted => (Ok tt, add_chat a w)
    | Rejected e => (Throw e, w)
    | NoAnswer => (Diverge, w)
    end.

Definition reply (text : string) (markup : Markup) : M World unit :=
  send (Reply text markup).

Definition editMessageText (text : string) : M World unit :=
  send (EditMessageText text).

Definition deleteMessage : M World unit := send DeleteMessage.

(** An awaited call of the API client. *)
Definition api_call (config : Config) : M World Response :=
  fun w =>
    let '(r, a) := client config (api_state w) in
    (r, add_call config (set_api_state a w)).

Definition api_get (u : string) : M World Response :=
  api_call (request_config GET u JUndefined).

Definition api_post (u : string) (b : JSON) : M World Response :=
  api_call (request_config POST u b).

(** [getTransfers(page, limit)], [transfer.service.ts]. *)
Definition getTransfers (p l : Z) : M World Response :=
  api_get ("/transfers?page=" +:+ pretty p +:+ "&limit=" +:+ pretty l).

(** [checkRecipientEligibility(email)], [transfer.service.ts] lines
    17-102. *)
Definition checkRecipientEligibility (email : string) : M World JSON :=
  try_catch
    (try_catch
       (response <- api_post "/transfers/check-recipient"
                      (JObj [("email", JStr email)]) ;;
        ret (data response))
       (fun apiError =>
          if negb (status_is apiError 404) then throw apiError
          else
            log "Using mock implementation for recipient eligibility check" ;;
            try_catch
              (userResponse <- api_get ("/users/by-email/" +:+ email) ;;
               let user := data userResponse in
               hasWallets <- prop user "hasWallets" ;;
               if negb (truthy hasWallets) then
                 ret (not_eligible "Recipient does not have any wallets set up")
               else if negb (is_str (get user "kycStatus") "APPROVED") then
                 ret (not_eligible "Recipient has not completed KYC verification")
               else ret eligible)
              (on_userError email)))
    (fun error =>
       log "Error checking recipient eligibility:" ;;
       ret (not_eligible
              ("Failed to verify recipient: " +:+ toString (errorMessage_of error)))).

(** [sendToEmail(email, amount)], lines 110-131. *)
Definition sendToEmail (email amount : string) : M World Response :=
  eligibility <- checkRecipientEligibility email ;;
  isEligible <- prop eligibility "isEligible" ;;
  if negb (truthy isEligible) then
    throw (JsError (toString (js_or (get eligibility "reason")
                      (JStr "Recipient is not eligible to receive funds"))))
  else
    api_post "/transfers/send"
      (JObj [("email", JStr email); ("amount", JStr amount);
             ("purposeCode", JStr "self"); ("currency", JStr "USD");
             ("note", JUndefined)]).

(** [sendToWallet(address, amount, network)], lines 139-150. *)
Definition sendToWallet (address amount network : string)
  : M World Response :=
  api_post "/transfers/wallet-withdraw"
    (JObj [("walletAddress", JStr address); ("amount", JStr amount);
           ("purposeCode", JStr "self"); ("currency", JStr "USD")]).

(** [checkAuth(ctx)], [transfer.handler.ts] lines 11-23. *)
Definition checkAuth : M World bool :=
  u <- gets session_user ;;
  match u with
  | None =>
      reply MSG_LOGIN_FIRST (Keyboard [["🔑 Login"]]) ;;
      ret false
  | Some usr =>
      lift_api (setAuthToken (JStr (user_token usr)) None) ;;
      ret true
  end.

(** The [try] block of lines 531-553: [true] when control reaches its
    end, [false] for the [return] of line 542. *)
Definition perform_transfer (st : TransferState) (r a : string)
  : M World bool :=
  if is_lit (type st) "EMAIL" then
    sendToEmail r a ;;
    ret true
  else if is_lit (type st) "WALLET" then
    if negb (present (transfer_network st)) then
      reply MSG_MISSING_NETWORK NoMarkup ;;
      ret false
    else
      sendToWallet r a (default "" (transfer_network st)) ;;
      ret true
  else ret true.

(** The [catch] block of lines 554-577. *)
Definition on_transfer_error (error : Error) : M World unit :=
  log "Error processing transfer:" ;;
  (if (negb (String.eqb (error_message error) "") &&
       (includes (error_message error) "not eligible" ||
        includes (error_message error) "Failed to verify recipient"))%bool
   then editMessageText (MSG_NOT_ELIGIBLE (error_message error))
   else editMessageText MSG_TRANSFER_FAILED) ;;
  update_session (set_transferState (Some empty_transferState)).

(** The [catch] block of lines 578-586. *)
Definition on_handler_error (error : Error) : M World unit :=
  log "Error in transfer confirmation handler:" ;;
  reply MSG_UNEXPECTED NoMarkup ;;
  modify (fun w =>
            match ctx_session w with
            | Some s =>
                set_ctx_session
                  (Some (set_transferState (Some empty_transferState) s)) w
            | None => w
            end).

(** [handleTransferConfirm(ctx)], [transfer.handler.ts] lines 508-587. *)
Definition handleTransferConfirm : M World unit :=
  authenticated <- checkAuth ;;
  if negb authenticated then ret tt
  else
    ts <- read_session transferState ;;
    match ts with
    | None => reply MSG_INVALID_SESSION NoMarkup
    | Some st =>
        try_catch
          (if (negb (present (recipient st)) || negb (present (amount st)))%bool
           then reply MSG_MISSING_FIELDS NoMarkup
           else
             try_catch
               (completed <- perform_transfer st
                               (default "" (recipient st))
                               (default "" (amount st)) ;;
                if completed then
                  editMessageText MSG_TRANSFER_OK ;;
                  update_session (set_transferState (Some empty_transferState))
                else ret tt)
               on_transfer_error)
          on_handler_error
    end.

(** [fetchAndDisplayHistory(ctx)], lines 119-242. *)
Definition fetchAndDisplayHistory : M World unit :=
  h <- ensure_historyState ;;
  try_catch
    (reply "🔄 Fetching your transaction history..." NoMarkup ;;
     response <- getTransfers (page h) (limit h) ;;
     transactions <- prop (data response) "data" ;;
     let pagination := get (data response) "pagination" in
     deleteMessage ;;
     if (negb (truthy transactions) || length_is_zero transactions)%bool
     then reply "📭 You don't have any transactions yet." NoMarkup
     else
       match transactions with
       | JArr items =>
           buttons <- history_rows 0 items ;;
           reply (history_text items pagination (page h))
             (InlineKeyboard
                (buttons ++ [paginationButtons lessThan (page h) pagination])%list)
       | _ => throw (TypeError "data.forEach is not a function")
       end)
    (fun error =>
       log "Error fetching transaction history:" ;;
       reply "❌ Failed to fetch transaction history. Please try again later."
         NoMarkup).

(** [handleHistoryPagination(ctx, action)], lines 265-290. *)
Definition handleHistoryPagination (action : string) : M World unit :=
  authenticated <- checkAuth ;;
  if negb authenticated then ret tt
  else
    h <- ensure_historyState ;;
    (if (String.eqb action "prev" && (1 <? page h))%bool then
       update_session
         (set_historyState (Some {| page := page h - 1; limit := limit h |}))
     else if String.eqb action "next" then
       update_session
         (set_historyState (Some {| page := page h + 1; limit := limit h |}))
     else ret tt) ;;
    fetchAndDisplayHistory.

End Wire.

End Wire.

(** A Telegram that accepts every call, and the client of a service
    whose calls settle. With these two the handlers on the wire are the
    handlers of Part I. *)
Definition accepting (received : list ChatAction) (a : ChatAction)
  : Delivery := Accepted.

Definition settled (api : Config -> ApiState -> (Response + Error) * ApiState)
    (config : Config) : M ApiState Response :=
  fun a =>
    match api config a with
    | (inl response, a') => (Ok response, a')
    | (inr error, a') => (Throw error, a')
    end.

(** ** Concrete states and environments, used to run the embedding *)

(** A client with no token, at time 1000. *)
Definition fresh_client : ApiState :=
  {| authToken := JNull; tokenExpiry := None;
     defaults_Authorization := None; now := 1000;
     timers := []; sent := []; console := [] |}.

(** A client holding the token ["T"], at time [t], with the given expiry. *)
Definition client_with_token (t expiry : Z) : ApiState :=
  {| authToken := JStr "T"; tokenExpiry := Some expiry;
     defaults_Authorization := Some (Bearer (JStr "T")); now := t;
     timers := []; sent := []; console := [] |}.

(** The network of the failing run of C1: the refresh endpoint answers
    500 and every other request is answered 401. *)
Definition network_refresh_fails (history : list Config) (c : Config)
  : Answer * Z :=
  if String.eqb (url c) "/auth/refresh-token"
  then (Answered {| status := 500; data := JNull |}, 5)
  else (Answered {| status := 401; data := JNull |}, 7).

Definition env_refresh_fails : Env :=
  {| network := network_refresh_fails; getTime := fun _ => None |}.

(** A network that answers every request with 200 and no data. *)
Definition network_ok (history : list Config) (c : Config) : Answer * Z :=
  (Answered {| status := 200; data := JNull |}, 5).

Definition env_ok : Env :=
  {| network := network_ok; getTime := fun _ => None |}.

Definition get_wallets : Config := request_config GET "/wallets" JUndefined.

(** ** Notions used in the statements *)

(** A computation that never ends by throwing. *)
Definition never_throws {W A} (m : M W A) : Prop :=
  forall (w : W) (e : Error), fst (m w) <> Throw e.

(** The line printed first by the two [catch] blocks of the
    interceptors, and how often the console holds it. *)
Definition REFRESH_CATCH_LINE : string := "Failed to refresh token:".

Definition catch_lines (w : ApiState) : nat :=
  count_occ string_dec (console w) REFRESH_CATCH_LINE.

(** A computation that never prints that line. *)
Definition keeps_quiet {A} (m : M ApiState A) : Prop :=
  forall w : ApiState, catch_lines (snd (m w)) = catch_lines w.

(** The request [refreshToken] posts. *)
Definition refresh_config : Config :=
  request_config POST "/auth/refresh-token" JUndefined.

(** The two requests of [checkRecipientEligibility]. *)
Definition check_recipient_config (email : string) : Config :=
  request_config POST "/transfers/check-recipient" (JObj [("email", JStr email)]).

Definition user_by_email_config (email : string) : Config :=
  request_config GET ("/users/by-email/" +:+ email) JUndefined.

(** Whether the body of a 404 says that the route does not exist: the
    reading of [response.data?.message?.includes("Cannot GET")] where
    [includes] is defined. *)
Definition says_cannot_get (r : Response) : option bool :=
  match data r with
  | JUndefined | JNull => Some false
  | d => match get d "message" with
         | JUndefined | JNull => Some false
         | JStr s => Some (includes s "Cannot GET")
         | JArr items => Some (existsb (fun x => is_str x "Cannot GET") items)
         | _ => None
         end
  end.

(** A handler world with the given client and session, before anything
    is said to the chat or asked of the API. *)
Definition world_of (a : ApiState) (s : option Session) : World :=
  {| api_state := a; ctx_session := s; chat := []; calls := [] |}.

Definition status_error (n : Z) (d : JSON) (c : Config) : Error :=
  AxiosError ("Request failed with status code " +:+ pretty n)
    (Some {| status := n; data := d |}) c.

(** An API whose every call is answered 500. *)
Definition api_500 (c : Config) (a : ApiState) : (Response + Error) * ApiState :=
  (inr (status_error 500 JNull c), a).

(** An API without the eligibility endpoint and without the user lookup:
    both answer 404, the lookup in the words of the framework. *)
Definition api_no_endpoints (c : Config) (a : ApiState)
  : (Response + Error) * ApiState :=
  if String.prefix "/users/by-email/" (url c)
  then (inr (status_error 404
               (JObj [("message", JStr "Cannot GET /api/users/by-email/x")]) c), a)
  else (inr (status_error 404 JNull c), a).

(** The state of the client in which the user lookup is made: after the
    first call and the warning that the mock implementation is used. *)
Definition after_check (a1 : ApiState) : ApiState :=
  add_console "Using mock implementation for recipient eligibility check" a1.

(** An API whose eligibility endpoint is absent and whose user lookup
    answers with the given user. *)
Definition api_lookup (user : JSON) (c : Config) (a : ApiState)
  : (Response + Error) * ApiState :=
  if String.prefix "/users/by-email/" (url c)
  then (inl {| status := 200; data := user |}, a)
  else (inr (status_error 404 JNull c), a).

(** The state after a successful [checkAuth]: the token of the session
    is stored in the client. *)
Definition after_checkAuth (u : UserSession) (w : World) : World :=
  set_api_state
    (snd (setAuthToken (JStr (user_token u)) None (api_state w))) w.

(** A call that moves funds: the post of [sendToEmail] or of
    [sendToWallet]. *)
Definition is_transfer (c : Config) : bool :=
  (String.eqb (url c) "/transfers/send" ||
   String.eqb (url c) "/transfers/wallet-withdraw")%bool.

Definition transfer_calls (w : World) : nat :=
  length (List.filter is_transfer (calls w)).

(** A computation that ends, and leaves the session, the chat and the
    number of transfer calls as they were. *)
Definition harmless {A} (m : M World A) : Prop :=
  forall w : World,
    fst (m w) <> Diverge /\
    ctx_session (snd (m w)) = ctx_session w /\
    chat (snd (m w)) = chat w /\
    transfer_calls (snd (m w)) = transfer_calls w.

(** A computation that ends with a value. *)
Definition returns {A} (m : M World A) : Prop :=
  forall w : World, exists (a : A) (w' : World), m w = (Ok a, w').

(** The flow state [sendHandler] creates. *)
Definition email_transfer_started : TransferState :=
  {| type := Some "EMAIL"; recipient := None; amount := None;
     transfer_network := None |}.

(** A logged-in user and her session. *)
Definition alice : UserSession :=
  {| userId := "u1"; user_email := "alice@example.com"; firstName := None;
     lastName := None; user_token := "T"; organizationId := "org1";
     user_status := None |}.

Definition session_of_alice : Session :=
  {| user := Some alice; authState := None; transferState := None;
     historyState := None; walletAddresses := None; depositState := None |}.

Definition ok_response (d : JSON) (a : ApiState) : (Response + Error) * ApiState :=
  (inl {| status := 200; data := d |}, a).

(** An API for a user whose latest KYC record has the given status, with
    a default wallet and a balance of 100.50. *)
Definition api_account (kyc : string) (c : Config) (a : ApiState)
  : (Response + Error) * ApiState :=
  if String.eqb (url c) "/kycs"
  then ok_response (JObj [("data", JArr [JObj [("status", JStr kyc)]])]) a
  else if String.eqb (url c) "/wallets/default"
  then ok_response (JObj [("walletAddress", JStr "0xabc")]) a
  else if String.eqb (url c) "/wallets/balance"
  then ok_response (JObj [("balance", JStr "100.50")]) a
  else ok_response JNull a.

(** The same account with the given balance. *)
Definition api_balance (balance : JSON) (c : Config) (a : ApiState)
  : (Response + Error) * ApiState :=
  if String.eqb (url c) "/wallets/balance"
  then ok_response (JObj [("balance", balance)]) a
  else api_account "approved" c a.

(** [parseFloat] on the balances of the examples. *)
Definition parseFloat_example (v : JSON) : FloatSign :=
  match v with
  | JStr s => if String.eqb s "100.50" then Positive
              else if String.eqb s "0" then Zero else IsNaN
  | _ => IsNaN
  end.

(** A computation that ends, leaves the session and the chat as they
    were, and makes at most one transfer call. *)
Definition one_transfer_at_most {A} (m : M World A) : Prop :=
  forall w : World,
    fst (m w) <> Diverge /\
    ctx_session (snd (m w)) = ctx_session w /\
    chat (snd (m w)) = chat w /\
    (transfer_calls (snd (m w)) <= transfer_calls w + 1)%nat.

(** The session after a confirmation that went through the transfer
    step: the flow state is [{}]. *)
Definition transfer_reset (s : Session) : Session :=
  set_transferState (Some empty_transferState) s.

(** The flow state has what a transfer needs: a recipient, an amount
    and, for a wallet transfer, a network. *)
Definition transfer_ready (st : TransferState) : bool :=
  (present (recipient st) && present (amount st) &&
   (negb (is_lit (type st) "WALLET") || present (transfer_network st)))%bool.

(** A flow state after the recipient was entered and before the amount. *)
Definition transfer_without_amount : TransferState :=
  {| type := Some "EMAIL"; recipient := Some "friend@example.com";
     amount := None; transfer_network := None |}.

(** A flow state ready to be confirmed. *)
Definition transfer_to_friend : TransferState :=
  {| type := Some "EMAIL"; recipient := Some "friend@example.com";
     amount := Some "100.50"; transfer_network := None |}.

Definition alice_confirms (st : TransferState) : World :=
  world_of fresh_client
    (Some (set_transferState (Some st) session_of_alice)).

(** A computation that ends and leaves the session and the calls as
    they were: it only talks to the chat and the console. *)
Definition talks_only {A} (m : M World A) : Prop :=
  forall w : World,
    fst (m w) <> Diverge /\
    ctx_session (snd (m w)) = ctx_session w /\
    calls (snd (m w)) = calls w.

(** The request of [getTransfers(page, limit)]. *)
Definition transfers_config (p l : Z) : Config :=
  request_config GET
    ("/transfers?page=" +:+ pretty p +:+ "&limit=" +:+ pretty l) JUndefined.

(** The paging state in force: the stored one, or the first page. *)
Definition paging_of (s : Session) : HistoryState :=
  default first_page (historyState s).

Definition with_page (p : Z) (h : HistoryState) : HistoryState :=
  {| page := p; limit := limit h |}.

(** The paging state after an action of the history buttons. *)
Definition page_after (action : string) (h : HistoryState) : HistoryState :=
  if (String.eqb action "prev" && (1 <? page h))%bool
  then with_page (page h - 1) h
  else if String.eqb action "next" then with_page (page h + 1) h
  else h.

(** The world in which the page is fetched after an action. *)
Definition turned_to (h : HistoryState) (u : UserSession) (s : Session)
    (w : World) : World :=
  set_ctx_session (Some (set_historyState (Some h) s)) (after_checkAuth u w).

Definition NEXT_BUTTON : string * string := ("Next ▶️", "history:next").

Definition MSG_FETCHING : string := "🔄 Fetching your transaction history...".

(** An API whose history has three pages of five transfers. *)
Definition api_three_pages (c : Config) (a : ApiState)
  : (Response + Error) * ApiState :=
  ok_response
    (JObj [("data", JArr [JObj [("id", JStr "t1"); ("type", JStr "send")]]);
           ("pagination", JObj [("totalPages", JNum 3); ("totalItems", JNum 15)])])
    a.

Definition plain_history_text (items : list JSON) (pagination : JSON) (p : Z)
  : string := "Transaction History".

(** The comparison of a page number with a text, for the examples:
    right on the texts that are a run of decimal digits. *)
Definition lessThan_example (p : Z) (v : JSON) : bool :=
  match v with
  | JStr s => (all_digits s && negb (String.eqb s "") && (p <? parseInt_digits s))%bool
  | _ => false
  end.

(** Alice on page [p] of her history, five transfers a page. *)
Definition alice_on_page (p : Z) : World :=
  world_of fresh_client
    (Some (set_historyState (Some {| page := p; limit := 5 |}) session_of_alice)).

(** The request of [requestEmailOTP(email)], and the state of the client
    in which it is made. *)
Definition otp_config (email : string) : Config :=
  request_config POST "/auth/email-otp/request" (JObj [("email", JStr email)]).

Definition before_otp_request (a : ApiState) : ApiState :=
  add_console "Requesting OTP for email: " a.

(** Alice's chat after [/login]: the flow awaits the e-mail address. *)
Definition login_started : Session :=
  {| user := None;
     authState := Some {| auth_email := None; awaitingOTP := false;
                          sid := JUndefined |};
     transferState := None; historyState := None; walletAddresses := None;
     depositState := None |}.

(** An API whose OTP endpoint answers with the session id ["sid-1"]. *)
Definition api_otp (c : Config) (a : ApiState) : (Response + Error) * ApiState :=
  ok_response (JObj [("email", JStr "user@example.com"); ("sid", JStr "sid-1")]) a.

(** The bridge before any chat is armed, and a provider that accepts
    every client. *)
Definition fresh_bridge : Bridge :=
  {| bridge_api := fresh_client; pushers := [];
     activePusherInstances := ∅ |}.

Definition always_accepts (clients : list Pusher) : bool := true.

(** The client [initializeUserPusher] creates for a token and an
    organization. *)
Definition subscribed_Pusher (apiBaseUrl token organizationId : string)
  : Pusher :=
  {| authEndpoint := apiBaseUrl +:+ "/notifications/auth";
     auth_Authorization := Bearer (JStr token);
     channel := "private-organization." +:+ organizationId;
     bound_events := ["deposit"; "withdrawal"];
     connected := true |}.

(** A network that answers every request with 401. *)
Definition always_unauthorized (env : Env) : Prop :=
  forall (history : list Config) (c : Config),
    exists (d : JSON) (dt : Z),
      network env history c = (Answered {| status := 401; data := d |}, dt).

(** A network whose refresh endpoint issues the token ["N"] and whose
    other endpoints accept that token only. *)
Definition network_refresh_works (history : list Config) (c : Config)
  : Answer * Z :=
  if String.eqb (url c) "/auth/refresh-token"
  then (Answered {| status := 200;
                    data := JObj [("accessToken", JStr "N")] |}, 5)
  else match headers_Authorization c with
       | Some (Bearer (JStr t)) =>
           if String.eqb t "N"
           then (Answered {| status := 200; data := JStr "wallets" |}, 7)
           else (Answered {| status := 401; data := JNull |}, 7)
       | _ => (Answered {| status := 401; data := JNull |}, 7)
       end.

Definition env_refresh_works : Env :=
  {| network := network_refresh_works; getTime := fun _ => None |}.

(** ** Notions used in the statements about the rest of the code *)

(** The configuration the request interceptor hands to the adapter when
    it attempts no refresh: the stored token as the [Authorization]
    header when a token is stored, and otherwise the header of the
    request or, without one, the default header. *)
Definition attach (w : ApiState) (config : Config) : Config :=
  if truthy (authToken w)
  then set_headers_Authorization (Some (Bearer (authToken w))) config
  else match headers_Authorization config with
       | Some _ => config
       | None => set_headers_Authorization (defaults_Authorization w) config
       end.

(** An answer that makes the response interceptor refresh the token: a
    401 to a request that was not retried. *)
Definition calls_for_refresh (answer : Answer) (config : Config) : bool :=
  match answer with
  | Answered r => ((status r =? 401) && negb (_retry config))%bool
  | Unanswered _ => false
  end.

(** A network that answers every request with 401, and its
    environment. *)
Definition network_401 (history : list Config) (c : Config) : Answer * Z :=
  (Answered {| status := 401; data := JNull |}, 7).

Definition env_401 : Env :=
  {| network := network_401; getTime := fun _ => None |}.

(** A series of taps on the buttons of the history, each handled
    after the one before it. *)
Fixpoint paginate
    (api : Config -> ApiState -> (Response + Error) * ApiState)
    (history_text : list JSON -> JSON -> Z -> string)
         (lessThan : Z -> JSON -> bool)
    (actions : list string) : M World unit :=
  match actions with
  | [] => ret tt
  | action :: rest =>
      handleHistoryPagination api history_text lessThan action ;;
      paginate api history_text lessThan rest
  end.

(** The request of [getFeeInfo(type, amount, network)]. *)
Definition fee_config (encodeURIComponent : string -> string)
    (type amount : string) (network : option string) : Config :=
  request_config GET
    ("/transfers/fee-info" +:+ "?" +:+
     String.concat "&"
       (map (fun kv => fst kv +:+ "=" +:+ encodeURIComponent (snd kv))
          ([("type", type); ("amount", amount)] ++
           (if present network then [("network", default "" network)] else []))%list))
    JUndefined.

(** An [encodeURIComponent] for the examples, right on the texts
    that need no escape. *)
Definition encode_plain (s : string) : string := s.

Definition nothing_inherited (name : string) : option string := None.

(** A session of Alice in which a transfer to a wallet was prepared. *)
Definition transfer_to_wallet : TransferState :=
  {| type := Some "WALLET"; recipient := Some "0xabc";
     amount := Some "25"; transfer_network := Some "137" |}.

(** A computation that ends and whose calls of the API all satisfy
    [P]. *)
Definition calls_only (P : Config -> Prop) {A} (m : M World A) : Prop :=
  forall w : World,
    fst (m w) <> Diverge /\
    exists made : list Config,
      calls (snd (m w)) = (made ++ calls w)%list /\ Forall P made.

(** The two requests that move funds. *)
Definition send_config (email amount : string) : Config :=
  request_config POST "/transfers/send"
    (JObj [("email", JStr email); ("amount", JStr amount);
           ("purposeCode", JStr "self"); ("currency", JStr "USD");
           ("note", JUndefined)]).

Definition withdraw_config (address amount : string) : Config :=
  request_config POST "/transfers/wallet-withdraw"
    (JObj [("walletAddress", JStr address); ("amount", JStr amount);
           ("purposeCode", JStr "self"); ("currency", JStr "USD")]).

(** The transfer a flow state describes. *)
Definition transfer_of (st : TransferState) (c : Config) : Prop :=
  (is_lit (type st) "EMAIL" = true /\
   c = send_config (default "" (recipient st)) (default "" (amount st))) \/
  (is_lit (type st) "WALLET" = true /\
   c = withdraw_config (default "" (recipient st)) (default "" (amount st))).

(** A call that, if it moves funds, is the transfer of [st]. *)
Definition moves_only (st : TransferState) (c : Config) : Prop :=
  is_transfer c = true -> transfer_of st c.

(** A computation that ends and leaves the world related by [R] to the
    one it started in. *)
Definition preserves (R : World -> World -> Prop) {A} (m : M World A) : Prop :=
  forall w : World, fst (m w) <> Diverge /\ R w (snd (m w)).

(** The session is the one before. *)
Definition same_session (w w' : World) : Prop :=
  ctx_session w' = ctx_session w.

(** The request of [authenticateWithOTP(email, otp, sid)] and the state
    of the client in which it is made. *)
Definition authenticate_config (email otp : string) (sid : JSON) : Config :=
  request_config POST "/auth/email-otp/authenticate"
    (JObj [("email", JStr email); ("otp", JStr otp); ("sid", sid)]).

Definition before_authenticate (a : ApiState) : ApiState :=
  add_console "Authenticating with OTP for email: " a.

(** The request of [getUserProfile()]. *)
Definition profile_config : Config := request_config GET "/auth/me" JUndefined.

(** The state of the client after [authenticateWithOTP] has stored the
    token [tok] with the time to live [ttl] it computed, and
    [handleOTPInput] has stored it again: the state in which the profile
    is requested. *)
Definition token_stored_twice (tok : JSON) (ttl : option Z) (a : ApiState)
  : ApiState :=
  snd (setAuthToken tok None
         (snd (setAuthToken tok ttl
                 (add_console "Authentication successful:" a)))).

(** A session in which a login awaits the OTP. *)
Definition login_awaiting_otp : Session :=
  {| user := None;
     authState := Some {| auth_email := Some "user@example.com";
                          awaitingOTP := true; sid := JStr "sid-1" |};
     transferState := None; historyState := None; walletAddresses := None;
     depositState := None |}.

(** An API whose login answers with a token that expires at the date
    ["soon"], and whose profile is that of Alice. *)
Definition api_login (c : Config) (a : ApiState) : (Response + Error) * ApiState :=
  if String.eqb (url c) "/auth/email-otp/authenticate"
  then ok_response (JObj [("accessToken", JStr "T"); ("expireAt", JStr "soon")]) a
  else if String.eqb (url c) "/auth/me"
  then ok_response (JObj [("id", JStr "u1"); ("email", JStr "alice@example.com");
                          ("organizationId", JStr "org1")]) a
  else ok_response JNull a.

(** A clock for the examples: the date ["soon"] is one hour after time
    1000. *)
Definition getTime_example (v : JSON) : option Z :=
  if is_str v "soon" then Some 3601000 else None.

Definition stringify_example (v : JSON) : string := toString v.

(** The time to live [authenticateWithOTP] computes from [expireAt] at
    time [t], lines 266-268: [None] is [undefined] or [NaN]. *)
Definition ttl_of (getTime : JSON -> option Z) (expireAt : JSON) (t : Z)
  : option Z :=
  if truthy expireAt then
    match getTime expireAt with
    | Some ms => Some ((ms - t) / 1000)
    | None => None
    end
  else None.

(** The request of [createDeposit(amount, depositChainId)], and the
    numbers of the chains it accepts. *)
Definition deposit_config (amount depositChainId : string) : Config :=
  request_config POST "/transfers/deposit"
    (JObj [("amount", JStr amount);
           ("depositChainId", JNum (parseInt_digits depositChainId));
           ("sourceOfFunds", JStr "salary")]).

Definition valid_chain_numbers : list Z :=
  [137; 42161; 10; 8453; 1; 56; 43114; 23434].

(** The amounts below one of the examples. *)
Definition below_one_example (amount : string) : bool :=
  negb (String.eqb amount "50").

(** The request of [sendBatch(transfers)]. *)
Definition batch_config (transfers : list BatchTransfer) : Config :=
  request_config POST "/transfers/send-batch"
    (JObj [("requests", JArr (imap batch_request transfers))]).

(** The eligibility checks of a list of transfers, latest first. *)
Definition checks_of (transfers : list BatchTransfer) : list Config :=
  rev (map (fun transfer => check_recipient_config (batch_email transfer))
         transfers).

(** An API whose eligibility endpoint answers by a rule: eligible where
    [ok] holds, and not eligible for the reason [reason] elsewhere. *)
Definition answers_by
    (api : Config -> ApiState -> (Response + Error) * ApiState)
    (ok : string -> bool) (reason : string -> string) : Prop :=
  forall (email : string) (a : ApiState),
    exists a',
      api (check_recipient_config email) a =
        (inl {| status := 200;
                data := if ok email then eligible
                        else not_eligible (reason email) |}, a').

Definition all_ok (ok : string -> bool) (transfers : list BatchTransfer) : bool :=
  forallb (fun transfer => ok (batch_email transfer)) transfers.

(** An API that knows one recipient. *)
Definition knows_friend (email : string) : bool :=
  String.eqb email "friend@example.com".

Definition api_knows_friend (c : Config) (a : ApiState)
  : (Response + Error) * ApiState :=
  if String.eqb (url c) "/transfers/check-recipient"
  then ok_response
         (if knows_friend (toString (get (body c) "email")) then eligible
          else not_eligible "unknown recipient") a
  else ok_response JNull a.

Definition to_friend : BatchTransfer :=
  {| batch_email := "friend@example.com"; batch_amount := "10";
     batch_message := None |}.

Definition to_stranger : BatchTransfer :=
  {| batch_email := "stranger@example.com"; batch_amount := "20";
     batch_message := None |}.

(** A bot that has seen no update yet. *)
Definition fresh_bot : Bot :=
  {| sessions := ∅; bot_api := fresh_client; bot_chat := []; bot_calls := [] |}.

(** A handler that fails after it has changed the session. *)
Definition login_then_fail : M World unit :=
  loginHandler ;; throw (JsError "later").

(** A text without a colon. *)
Fixpoint colon_free (s : string) : bool :=
  match s with
  | EmptyString => true
  | String c rest => (negb (Ascii.eqb c ":") && colon_free rest)%bool
  end.

(** ** Notions for the handlers on the wire *)

(** However the computation ends, and also if it does not end, the
    world it leaves is related by [R] to the one it started in. *)
Definition always (R : World -> World -> Prop) {A} (m : M World A) : Prop :=
  forall w : World, R w (snd (m w)).

(** The session, the chat and the number of transfer calls are the
    same. *)
Definition quiet (w w' : World) : Prop :=
  ctx_session w' = ctx_session w /\ chat w' = chat w /\
  transfer_calls w' = transfer_calls w.

(** The session and the chat are the same and at most one transfer call
    was added. *)
Definition once (w w' : World) : Prop :=
  ctx_session w' = ctx_session w /\ chat w' = chat w /\
  (transfer_calls w' <= transfer_calls w + 1)%nat.

(** A Telegram that rejects every call. *)
Definition refusing (received : list ChatAction) (a : ChatAction)
  : Delivery := Rejected (JsError "400: Bad Request").

(** A Telegram that never answers. *)
Definition silent (received : list ChatAction) (a : ChatAction)
  : Delivery := NoAnswer.

(** The reason [handleTransferConfirm] gives for a flow state that is
    not ready. *)
Definition missing_reason (st : TransferState) : string :=
  if (present (recipient st) && present (amount st))%bool
  then MSG_MISSING_NETWORK else MSG_MISSING_FIELDS.

(** A series of taps on the buttons of the history, each handled in the
    world the one before it left, however that one ended. *)
Fixpoint taps
    (telegram : list ChatAction -> ChatAction -> Delivery)
    (client : Config -> M ApiState Response)
    (history_text : list JSON -> JSON -> Z -> string)
    (lessThan : Z -> JSON -> bool)
    (actions : list string) (w : World) : World :=
  match actions with
  | [] => w
  | action :: rest =>
      taps telegram client history_text lessThan rest
        (snd (Wire.handleHistoryPagination telegram client history_text
                lessThan action w))
  end.

(* ================================================================== *)
(** * Part II: properties *)
(* ================================================================== *)

(** ** The token store *)

Lemma setAuthToken_run (tok : JSON) (ttl : option Z) (w : ApiState) :
  exists w', setAuthToken tok ttl w = (Ok tt, w') /\
    authToken w' = tok /\
    defaults_Authorization w' = Some (Bearer tok) /\
    tokenExpiry w' =
      Some (now w + (if num_truthy ttl then default 0 ttl else DAY_SECONDS) * 1000) /\
    now w' = now w /\ sent w' = sent w /\ console w' = console w.
Proof.
  destruct ttl as [e|]; cbn.
  - destruct (e =? 0) eqn:He; cbn; eexists; repeat split; reflexivity.
  - eexists; repeat split; reflexivity.
Qed.

(** C8, as stated, fails: with a time to live of zero seconds the stored
    expiry is a day after now, not now. *)
Lemma setAuthToken_zero_ttl_counterexample :
  tokenExpiry (snd (setAuthToken (JStr "t") (Some 0) fresh_client))
    = Some (now fresh_client + 24 * 60 * 60 * 1000) /\
  tokenExpiry (snd (setAuthToken (JStr "t") (Some 0) fresh_client))
    <> Some (now fresh_client + 0 * 1000).
Proof. split; [reflexivity | discriminate]. Qed.

(** C8, amended: [setAuthToken(token, ttl)] stores the token and the
    expiry [now + ttl * 1000] milliseconds when [ttl] is a number other
    than zero, and [now + 24h] when [ttl] is unspecified, [NaN] or zero;
    and in every state whose stored expiry is not zero, [isTokenExpired()]
    is true exactly when [now > expiry - 5 min]. *)
Theorem setAuthToken_expiry_isTokenExpired :
  (forall (tok : JSON) (ttl : option Z) (w : ApiState),
      authToken (snd (setAuthToken tok ttl w)) = tok /\
      tokenExpiry (snd (setAuthToken tok ttl w)) =
        Some (now w +
              match ttl with
              | Some e => if e =? 0 then 24 * 60 * 60 else e
              | None => 24 * 60 * 60
              end * 1000)) /\
  (forall (w : ApiState) (e : Z),
      tokenExpiry w = Some e -> e <> 0 ->
      (isTokenExpired w = true <-> now w > e - 5 * 60 * 1000)).
Proof.
  split.
  - intros tok ttl w. destruct ttl as [e|]; cbn.
    + destruct (e =? 0); cbn; split; reflexivity.
    + split; reflexivity.
  - intros w e He Hne. unfold isTokenExpired. rewrite He.
    destruct (Z.eqb_spec e 0) as [->|_]; [contradiction|].
    unfold BUFFER_MS. rewrite Z.gtb_ltb, Z.ltb_lt. lia.
Qed.

Lemma setAuthToken_expiry_isTokenExpired_witness :
  isTokenExpired (client_with_token 1000 5000) = true <->
  now (client_with_token 1000 5000) > 5000 - 5 * 60 * 1000.
Proof.
  apply (proj2 setAuthToken_expiry_isTokenExpired (client_with_token 1000 5000) 5000).
  - reflexivity.
  - discriminate.
Defined.

(** ** Computations: throwing and catching *)

Lemma try_catch_never_throws {W A} (m : M W A) (h : Error -> M W A) :
  never_throws m -> forall w, try_catch m h w = m w.
Proof.
  intros Hm w. unfold try_catch. specialize (Hm w).
  destruct (m w) as [[a|e|] w']; cbn in *; try reflexivity.
  exfalso. apply (Hm e). reflexivity.
Qed.

Lemma never_throws_ret {W A} (a : A) : never_throws (@ret W A a).
Proof. intros w e. cbn. discriminate. Qed.

Lemma never_throws_gets {W A} (f : W -> A) : never_throws (gets f).
Proof. intros w e. cbn. discriminate. Qed.

Lemma never_throws_modify {W} (f : W -> W) : never_throws (modify f).
Proof. intros w e. cbn. discriminate. Qed.

Lemma never_throws_bind {W A B} (m : M W A) (k : A -> M W B) :
  never_throws m -> (forall a, never_throws (k a)) -> never_throws (bind m k).
Proof.
  intros Hm Hk w e. unfold bind. specialize (Hm w).
  destruct (m w) as [[a|e'|] w']; cbn in *.
  - apply Hk.
  - exfalso. apply (Hm e'). reflexivity.
  - discriminate.
Qed.

Lemma never_throws_try_catch {W A} (m : M W A) (h : Error -> M W A) :
  (forall e, never_throws (h e)) -> never_throws (try_catch m h).
Proof.
  intros Hh w e. unfold try_catch.
  destruct (m w) as [[a|e'|] w']; cbn; try discriminate.
  apply Hh.
Qed.

Lemma never_throws_console_log (line : string) : never_throws (console_log line).
Proof. apply never_throws_modify. Qed.

Lemma never_throws_store_refreshed (nt : TokenInfo) :
  never_throws (store_refreshed nt).
Proof.
  unfold store_refreshed.
  repeat (apply never_throws_bind; [| intros ?]);
    auto using never_throws_modify, never_throws_gets.
Qed.

Lemma never_throws_clearAuthToken : never_throws clearAuthToken.
Proof.
  unfold clearAuthToken.
  repeat (apply never_throws_bind; [| intros ?]);
    auto using never_throws_modify.
Qed.

(** ** [refreshToken] *)

Lemma refreshToken_never_throws (env : Env) (api : Config -> M ApiState Response) :
  never_throws (refreshToken env api).
Proof.
  unfold refreshToken. apply never_throws_try_catch. intros e.
  apply never_throws_bind; [apply never_throws_console_log|].
  intros _. apply never_throws_ret.
Qed.

(** ** The console and the [catch] blocks of the interceptors *)

Lemma keeps_quiet_ret {A} (a : A) : keeps_quiet (ret a).
Proof. intros w. reflexivity. Qed.

Lemma keeps_quiet_throw {A} (e : Error) : keeps_quiet (@throw ApiState A e).
Proof. intros w. reflexivity. Qed.

Lemma keeps_quiet_gets {A} (f : ApiState -> A) : keeps_quiet (gets f).
Proof. intros w. reflexivity. Qed.

Lemma keeps_quiet_bind {A B} (m : M ApiState A) (k : A -> M ApiState B) :
  keeps_quiet m -> (forall a, keeps_quiet (k a)) -> keeps_quiet (bind m k).
Proof.
  intros Hm Hk w. unfold bind. specialize (Hm w).
  destruct (m w) as [[a|e|] w']; cbn in *; try assumption.
  rewrite Hk. assumption.
Qed.

Lemma keeps_quiet_try_catch {A} (m : M ApiState A) (h : Error -> M ApiState A) :
  keeps_quiet m -> (forall e, keeps_quiet (h e)) -> keeps_quiet (try_catch m h).
Proof.
  intros Hm Hh w. unfold try_catch. specialize (Hm w).
  destruct (m w) as [[a|e|] w']; cbn in *; try assumption.
  rewrite Hh. assumption.
Qed.

(** The handler of a [try] whose body never throws is never run. *)
Lemma keeps_quiet_try_unreached {A} (m : M ApiState A) (h : Error -> M ApiState A) :
  keeps_quiet m -> never_throws m -> keeps_quiet (try_catch m h).
Proof.
  intros Hm Hn w. rewrite try_catch_never_throws by assumption. apply Hm.
Qed.

Lemma keeps_quiet_modify (f : ApiState -> ApiState) :
  (forall w, console (f w) = console w) -> keeps_quiet (modify f).
Proof. intros Hf w. unfold catch_lines. cbn. rewrite Hf. reflexivity. Qed.

Lemma keeps_quiet_console_log (line : string) :
  line <> REFRESH_CATCH_LINE -> keeps_quiet (console_log line).
Proof.
  intros Hne w. unfold catch_lines, console_log. cbn.
  destruct (string_dec line REFRESH_CATCH_LINE); [contradiction | reflexivity].
Qed.

Lemma keeps_quiet_store_refreshed (nt : TokenInfo) : keeps_quiet (store_refreshed nt).
Proof.
  unfold store_refreshed.
  repeat (apply keeps_quiet_bind; [| intros ?]);
    auto using keeps_quiet_gets; apply keeps_quiet_modify; reflexivity.
Qed.

Lemma keeps_quiet_mergeConfig (config : Config) : keeps_quiet (mergeConfig config).
Proof.
  unfold mergeConfig. apply keeps_quiet_bind; [apply keeps_quiet_gets|].
  intros d. destruct (headers_Authorization config); apply keeps_quiet_ret.
Qed.

Lemma keeps_quiet_dispatchRequest (env : Env) (config : Config) :
  keeps_quiet (dispatchRequest env config).
Proof.
  intros w. unfold dispatchRequest.
  destruct (network env (sent w) config) as [[r|msg] dt]; cbn.
  - destruct ((200 <=? status r) && (status r <? 300))%bool; reflexivity.
  - reflexivity.
Qed.

Lemma keeps_quiet_refreshToken (env : Env) (api : Config -> M ApiState Response) :
  (forall c, keeps_quiet (api c)) -> keeps_quiet (refreshToken env api).
Proof.
  intros Hapi. unfold refreshToken. apply keeps_quiet_try_catch.
  - apply keeps_quiet_bind; [apply Hapi|]. intros response.
    destruct (truthy (data response) && truthy (get (data response) "accessToken"))%bool.
    + apply keeps_quiet_bind; [apply keeps_quiet_gets|]. intros t.
      apply keeps_quiet_ret.
    + apply keeps_quiet_ret.
  - intros e. apply keeps_quiet_bind; [|intros _; apply keeps_quiet_ret].
    apply keeps_quiet_console_log. discriminate.
Qed.

Lemma keeps_quiet_request_interceptor
  (refresh : M ApiState (option TokenInfo)) (config : Config) :
  keeps_quiet refresh -> never_throws refresh ->
  keeps_quiet (request_interceptor refresh config).
Proof.
  intros Hq Hn. unfold request_interceptor.
  apply keeps_quiet_bind; [apply keeps_quiet_gets|]. intros tok.
  destruct (truthy tok); [|apply keeps_quiet_ret].
  apply keeps_quiet_bind; [apply keeps_quiet_gets|]. intros expired.
  apply keeps_quiet_bind.
  - destruct expired; [|apply keeps_quiet_ret].
    apply keeps_quiet_try_unreached.
    + apply keeps_quiet_bind; [apply keeps_quiet_console_log; discriminate|].
      intros _. apply keeps_quiet_bind; [assumption|]. intros [nt|].
      * apply keeps_quiet_bind; [apply keeps_quiet_store_refreshed|]. intros _.
        apply keeps_quiet_bind; [apply keeps_quiet_console_log; discriminate|].
        intros _. apply keeps_quiet_ret.
      * apply keeps_quiet_ret.
    + apply never_throws_bind; [apply never_throws_console_log|]. intros _.
      apply never_throws_bind; [assumption|]. intros [nt|].
      * apply never_throws_bind; [apply never_throws_store_refreshed|]. intros _.
        apply never_throws_bind; [apply never_throws_console_log|]. intros _.
        apply never_throws_ret.
      * apply never_throws_ret.
  - intros [c|]; [apply keeps_quiet_ret|].
    apply keeps_quiet_bind; [apply keeps_quiet_gets|]. intros t. apply keeps_quiet_ret.
Qed.

Lemma keeps_quiet_response_interceptor
  (refresh : M ApiState (option TokenInfo)) (api : Config -> M ApiState Response)
  (error : Error) :
  keeps_quiet refresh -> never_throws refresh ->
  (forall c, keeps_quiet (api c)) ->
  keeps_quiet (response_interceptor refresh api error).
Proof.
  intros Hq Hn Hapi. unfold response_interceptor.
  destruct error as [message [r|] config | message | message];
    try apply keeps_quiet_throw.
  destruct ((status r =? 401) && negb (_retry config))%bool;
    [|apply keeps_quiet_throw].
  apply keeps_quiet_bind.
  - apply keeps_quiet_try_unreached.
    + apply keeps_quiet_bind; [apply keeps_quiet_console_log; discriminate|].
      intros _. apply keeps_quiet_bind; [assumption|]. intros [nt|].
      * apply keeps_quiet_bind; [apply keeps_quiet_store_refreshed|]. intros _.
        apply keeps_quiet_bind; [apply keeps_quiet_gets|]. intros t.
        apply keeps_quiet_ret.
      * apply keeps_quiet_ret.
    + apply never_throws_bind; [apply never_throws_console_log|]. intros _.
      apply never_throws_bind; [assumption|]. intros [nt|].
      * apply never_throws_bind; [apply never_throws_store_refreshed|]. intros _.
        apply never_throws_bind; [apply never_throws_gets|]. intros t.
        apply never_throws_ret.
      * apply never_throws_ret.
  - intros [again|]; [apply Hapi | apply keeps_quiet_throw].
Qed.

Lemma keeps_quiet_request (fuel : nat) (env : Env) :
  forall config, keeps_quiet (request fuel env config).
Proof.
  induction fuel as [|n IH]; intros config.
  - intros w. reflexivity.
  - cbn [request].
    assert (Hq : keeps_quiet (refreshToken env (request n env)))
      by (apply keeps_quiet_refreshToken; exact IH).
    assert (Hn : never_throws (refreshToken env (request n env)))
      by apply refreshToken_never_throws.
    apply keeps_quiet_bind; [apply keeps_quiet_mergeConfig|]. intros merged.
    apply keeps_quiet_try_catch.
    + apply keeps_quiet_bind.
      * apply keeps_quiet_request_interceptor; assumption.
      * intros prepared. apply keeps_quiet_dispatchRequest.
    + intros e. apply keeps_quiet_response_interceptor; assumption.
Qed.



(** ** The response interceptor *)

(** When [refreshToken] returns [null], the handler clears nothing: it
    rejects with the error it received, whose configuration now carries
    [_retry], in the state [refreshToken] left. *)
Lemma response_interceptor_refresh_null
  (refresh : M ApiState (option TokenInfo)) (api : Config -> M ApiState Response)
  (message : string) (r : Response) (config : Config) (w w1 : ApiState) :
  status r = 401 -> _retry config = false ->
  refresh (add_console "Unauthorized error, attempting to refresh token..." w)
    = (Ok None, w1) ->
  response_interceptor refresh api (AxiosError message (Some r) config) w =
    (Throw (AxiosError message (Some r) (set_retry true config)), w1).
Proof.
  intros Hs Hr H. unfold response_interceptor. rewrite Hs, Hr. cbn.
  unfold bind, try_catch, console_log, modify. rewrite H. reflexivity.
Qed.

(** When [refreshToken] returns a token, the handler stores it and
    sends the original request again, once, with [_retry] set and the
    new token in its header. *)
Lemma response_interceptor_refresh_token
  (refresh : M ApiState (option TokenInfo)) (api : Config -> M ApiState Response)
  (message : string) (r : Response) (config : Config) (w w1 : ApiState)
  (nt : TokenInfo) :
  status r = 401 -> _retry config = false ->
  refresh (add_console "Unauthorized error, attempting to refresh token..." w)
    = (Ok (Some nt), w1) ->
  response_interceptor refresh api (AxiosError message (Some r) config) w =
    api (set_headers_Authorization (Some (Bearer (token nt)))
           (set_retry true config))
        (set_tokenExpiry (Some (now w1 + expiresIn_or_day nt * 1000))
           (set_authToken (token nt) w1)).
Proof.
  intros Hs Hr H. unfold response_interceptor. rewrite Hs, Hr. cbn.
  unfold bind, try_catch, console_log, modify. rewrite H. reflexivity.
Qed.

(** The run of a request answered 401 whose refresh succeeds: three
    requests are sent, the original, the refresh and the original again
    with the new token, and the answer to the last is returned. *)
Lemma successful_refresh_resends_once :
  forall n : nat,
    let out := request (S (S n)) env_refresh_works get_wallets
                 (client_with_token 1000 10000000) in
    fst out = Ok {| status := 200; data := JStr "wallets" |} /\
    authToken (snd out) = JStr "N" /\
    map (fun c => (url c, headers_Authorization c, _retry c)) (sent (snd out)) =
      [("/wallets", Some (Bearer (JStr "N")), true);
       ("/auth/refresh-token", Some (Bearer (JStr "T")), false);
       ("/wallets", Some (Bearer (JStr "T")), false)].
Proof. intros n. cbv zeta. vm_compute. repeat split. Qed.

(** A request that was retried is not retried again. *)
Lemma response_interceptor_retried
  (refresh : M ApiState (option TokenInfo)) (api : Config -> M ApiState Response)
  (message : string) (r : option Response) (config : Config) (w : ApiState) :
  _retry config = true ->
  response_interceptor refresh api (AxiosError message r config) w =
    (Throw (AxiosError message r config), w).
Proof.
  intros Hr. unfold response_interceptor. destruct r as [r|]; [|reflexivity].
  rewrite Hr, andb_false_r. reflexivity.
Qed.

(** C1, the defect: a request answered 401 while the refresh endpoint
    answers 500. The client makes the one refresh attempt and rejects
    with the 401, but the token, its expiry and the default header are
    all still stored. *)
Theorem failed_refresh_keeps_token :
  forall n : nat,
    let out := request (S (S n)) env_refresh_fails get_wallets
                 (client_with_token 1000 10000000) in
    (exists e, fst out = Throw e /\ error_status e = Some 401) /\
    authToken (snd out) = JStr "T" /\
    tokenExpiry (snd out) = Some 10000000 /\
    defaults_Authorization (snd out) = Some (Bearer (JStr "T")) /\
    map url (sent (snd out)) = ["/auth/refresh-token"; "/wallets"].
Proof.
  intros n. cbv zeta. vm_compute. repeat split. eexists. split; reflexivity.
Qed.

(** ** The request interceptor *)

(** When [refreshToken] returns [null], the interceptor clears nothing
    and attaches the token that is stored. *)
Lemma request_interceptor_refresh_null
  (refresh : M ApiState (option TokenInfo)) (config : Config) (w w1 : ApiState) :
  truthy (authToken w) = true -> isTokenExpired w = true ->
  refresh (add_console "Token expired, attempting to refresh..." w)
    = (Ok None, w1) ->
  request_interceptor refresh config w =
    (Ok (set_headers_Authorization (Some (Bearer (authToken w1))) config), w1).
Proof.
  intros Ht He H. unfold request_interceptor, bind, gets. rewrite Ht, He.
  unfold try_catch, bind, console_log, modify. rewrite H. reflexivity.
Qed.

Lemma request_interceptor_refresh_diverges
  (refresh : M ApiState (option TokenInfo)) (config : Config) (w w1 : ApiState) :
  truthy (authToken w) = true -> isTokenExpired w = true ->
  refresh (add_console "Token expired, attempting to refresh..." w)
    = (Diverge, w1) ->
  request_interceptor refresh config w = (Diverge, w1).
Proof.
  intros Ht He H. unfold request_interceptor, bind, gets. rewrite Ht, He.
  unfold try_catch, bind, console_log, modify. rewrite H. reflexivity.
Qed.

Lemma refreshToken_diverges (env : Env) (api : Config -> M ApiState Response)
  (w w1 : ApiState) :
  api refresh_config w = (Diverge, w1) ->
  refreshToken env api w = (Diverge, w1).
Proof.
  intros H. unfold refreshToken, try_catch, bind. fold refresh_config.
  rewrite H. reflexivity.
Qed.

Lemma request_expired_diverges (env : Env) (fuel : nat) :
  forall (config : Config) (w : ApiState),
    truthy (authToken w) = true -> isTokenExpired w = true ->
    exists w', request fuel env config w = (Diverge, w') /\
               sent w' = sent w /\ authToken w' = authToken w /\
               tokenExpiry w' = tokenExpiry w /\ now w' = now w.
Proof.
  induction fuel as [|n IH]; intros config w Ht He.
  - exists w. repeat split.
  - destruct (IH refresh_config
                (add_console "Token expired, attempting to refresh..." w))
      as (w' & Hrun & Hs & Ha & Hx & Hn); [exact Ht | exact He |].
    exists w'. split; [|repeat split; assumption].
    assert (Hi : forall c, request_interceptor (refreshToken env (request n env)) c w
                           = (Diverge, w')).
    { intros c. apply request_interceptor_refresh_diverges; try assumption.
      apply refreshToken_diverges. exact Hrun. }
    cbn [request]. unfold mergeConfig, bind, gets, try_catch.
    destruct (headers_Authorization config); cbn [ret]; rewrite Hi; reflexivity.
Qed.

(** C2, the defect. With a token stored and expired, [refreshToken]
    posts through the client it refreshes for, so the request
    interceptor runs again on that post and calls [refreshToken] again:
    whatever the budget, the call does not end and nothing is sent. And
    were [refreshToken] to return [null], the interceptor would clear
    nothing and attach the stored token. *)
Theorem expired_token_request_never_sent :
  (forall (fuel : nat) (env : Env) (config : Config) (w : ApiState),
      truthy (authToken w) = true -> isTokenExpired w = true ->
      fst (request fuel env config w) = Diverge /\
      sent (snd (request fuel env config w)) = sent w) /\
  (forall (refresh : M ApiState (option TokenInfo)) (config : Config)
          (w w1 : ApiState),
      truthy (authToken w) = true -> isTokenExpired w = true ->
      refresh (add_console "Token expired, attempting to refresh..." w)
        = (Ok None, w1) ->
      request_interceptor refresh config w =
        (Ok (set_headers_Authorization (Some (Bearer (authToken w1))) config),
         w1)).
Proof.
  split.
  - intros fuel env config w Ht He.
    destruct (request_expired_diverges env fuel config w Ht He)
      as (w' & Hrun & Hs & _).
    rewrite Hrun. split; [reflexivity | exact Hs].
  - exact request_interceptor_refresh_null.
Qed.

Lemma expired_token_request_never_sent_witness :
  fst (request 50 env_ok get_wallets (client_with_token 400000 1000)) = Diverge /\
  sent (snd (request 50 env_ok get_wallets (client_with_token 400000 1000)))
    = sent (client_with_token 400000 1000).
Proof.
  apply (proj1 expired_token_request_never_sent).
  - reflexivity.
  - reflexivity.
Defined.

(** The refresh request is itself a request of the client: when the
    refresh endpoint answers 401 too, the response interceptor handles
    that answer by another [refreshToken()], and so on. With a network
    that answers 401 throughout, no request that was not yet retried
    ever ends. *)
Lemma response_interceptor_refresh_diverges
  (refresh : M ApiState (option TokenInfo)) (api : Config -> M ApiState Response)
  (message : string) (r : Response) (config : Config) (w w1 : ApiState) :
  status r = 401 -> _retry config = false ->
  refresh (add_console "Unauthorized error, attempting to refresh token..." w)
    = (Diverge, w1) ->
  response_interceptor refresh api (AxiosError message (Some r) config) w =
    (Diverge, w1).
Proof.
  intros Hs Hr H. unfold response_interceptor. rewrite Hs, Hr. cbn.
  unfold bind, try_catch, console_log, modify. rewrite H. reflexivity.
Qed.

Lemma dispatchRequest_unauthorized (env : Env) (config : Config) (w : ApiState) :
  always_unauthorized env ->
  exists message r w',
    dispatchRequest env config w = (Throw (AxiosError message (Some r) config), w') /\
    status r = 401.
Proof.
  intros Henv. unfold dispatchRequest.
  destruct (Henv (sent w) config) as (d & dt & Hn). rewrite Hn. cbn.
  eexists _, _, _. split; reflexivity.
Qed.

Lemma refresh_unauthorized_never_ends (env : Env) :
  always_unauthorized env ->
  forall (fuel : nat) (config : Config) (w : ApiState),
    _retry config = false ->
    fst (request fuel env config w) = Diverge.
Proof.
  intros Henv. induction fuel as [|n IH]; intros config w Hr; [reflexivity|].
  cbn [request].
  assert (Hrefresh : forall w0, fst (refreshToken env (request n env) w0) = Diverge).
  { intros w0. specialize (IH refresh_config w0 eq_refl).
    destruct (request n env refresh_config w0) as [res w1] eqn:Hrun.
    cbn in IH. subst res.
    rewrite (refreshToken_diverges env (request n env) w0 w1 Hrun). reflexivity. }
  assert (Hchain : forall merged, _retry merged = false ->
            fst (try_catch
                   (prepared <- request_interceptor
                                  (refreshToken env (request n env)) merged ;;
                    dispatchRequest env prepared)
                   (response_interceptor (refreshToken env (request n env))
                      (request n env)) w) = Diverge).
  { intros merged Hm. unfold try_catch at 1. unfold bind at 1.
    assert (Hi : (exists w1, request_interceptor
                    (refreshToken env (request n env)) merged w = (Diverge, w1)) \/
                 (exists prepared, request_interceptor
                    (refreshToken env (request n env)) merged w = (Ok prepared, w) /\
                    _retry prepared = false)).
    { unfold request_interceptor, bind, gets.
      destruct (truthy (authToken w)) eqn:Ht; [|right; eauto].
      destruct (isTokenExpired w) eqn:He.
      - left. unfold try_catch, bind, console_log, modify.
        specialize (Hrefresh
          (add_console "Token expired, attempting to refresh..." w)).
        destruct (refreshToken env (request n env)
                    (add_console "Token expired, attempting to refresh..." w))
          as [res w1].
        cbn in Hrefresh. subst res. eauto.
      - right. cbn. eexists. split; [reflexivity | exact Hm]. }
    destruct Hi as [(w1 & Hi) | (prepared & Hi & Hp)]; rewrite Hi; [reflexivity|].
    destruct (dispatchRequest_unauthorized env prepared w Henv)
      as (message & r & w' & Hd & Hs).
    rewrite Hd.
    specialize (Hrefresh
      (add_console "Unauthorized error, attempting to refresh token..." w')).
    destruct (refreshToken env (request n env)
                (add_console "Unauthorized error, attempting to refresh token..." w'))
      as [res w1] eqn:Hrun.
    cbn in Hrefresh. subst res.
    rewrite (response_interceptor_refresh_diverges _ _ message r prepared w' w1
               Hs Hp Hrun).
    reflexivity. }
  unfold bind at 1. unfold mergeConfig, bind, gets.
  destruct (headers_Authorization config); cbn [ret]; apply Hchain; assumption.
Qed.

(** ** The recipient eligibility check *)

Section EligibilityFacts.

Variable api : Config -> ApiState -> (Response + Error) * ApiState.

Lemma api_call_inl (c : Config) (w : World) (r : Response) (a : ApiState) :
  api c (api_state w) = (inl r, a) ->
  api_call api c w = (Ok r, add_call c (set_api_state a w)).
Proof. intros H. unfold api_call. rewrite H. reflexivity. Qed.

Lemma api_call_inr (c : Config) (w : World) (e : Error) (a : ApiState) :
  api c (api_state w) = (inr e, a) ->
  api_call api c w = (Throw e, add_call c (set_api_state a w)).
Proof. intros H. unfold api_call. rewrite H. reflexivity. Qed.

Lemma on_userError_cannot_get (email : string) (e : Error) (r : Response) (w : World) :
  error_response e = Some r -> status r = 404 -> says_cannot_get r = Some true ->
  exists w', on_userError email e w = (Ok eligible, w') /\
    In "⚠️ WARNING: Unable to verify eligibility for recipient "
       (console (api_state w')).
Proof.
  intros Hr Hs Hc. unfold on_userError, status_is, error_status.
  rewrite Hr, Hs. cbn [Z.eqb orb Pos.eqb]. unfold bind at 1.
  unfold says_cannot_get in Hc.
  destruct (data r) as [| |b|n|s|items|fields] eqn:Hd; try discriminate;
    cbn [get] in *.
  all: try discriminate.
  destruct (assoc "message" fields) as [| |b|n|s|items|fs]; try discriminate;
    injection Hc as Hc; cbn [includes_of ret]; rewrite Hc;
    eexists; (split; [reflexivity|]); cbn; auto.
Qed.

Lemma on_userError_not_registered (email : string) (e : Error) (r : Response)
  (w : World) :
  error_response e = Some r ->
  (status r = 400 \/ (status r = 404 /\ says_cannot_get r = Some false)) ->
  on_userError email e w =
    (Ok (not_eligible "Recipient is not registered with Copperx"), w).
Proof.
  intros Hr [Hs | [Hs Hc]]; unfold on_userError, status_is, error_status;
    rewrite Hr, Hs; cbn [Z.eqb orb Pos.eqb]; unfold bind at 1.
  - reflexivity.
  - unfold says_cannot_get in Hc.
    destruct (data r) as [| |b|n|s|items|fields] eqn:Hd; try discriminate;
      cbn [get] in *; try reflexivity.
    destruct (assoc "message" fields) as [| |b|n|s|items|fs]; try discriminate;
      try injection Hc as Hc; cbn [includes_of ret]; try rewrite Hc; reflexivity.
Qed.

Lemma on_userError_other (email : string) (e : Error) (w : World) :
  status_is e 404 = false -> status_is e 400 = false ->
  on_userError email e w =
    (Ok eligible,
     set_api_state (add_console "Error checking user status:" (api_state w)) w).
Proof.
  intros H1 H2. unfold on_userError. rewrite H1, H2. reflexivity.
Qed.

(** The first tier: what the eligibility endpoint answers is returned
    as it is. *)
Lemma checkRecipientEligibility_primary (email : string) (w : World)
  (r : Response) (a1 : ApiState) :
  api (check_recipient_config email) (api_state w) = (inl r, a1) ->
  checkRecipientEligibility api email w =
    (Ok (data r), add_call (check_recipient_config email) (set_api_state a1 w)).
Proof.
  intros H. unfold checkRecipientEligibility, try_catch, bind, api_post.
  fold (check_recipient_config email).
  rewrite (api_call_inl _ _ _ _ H). reflexivity.
Qed.

(** An error of the eligibility endpoint other than a 404 blocks the
    transfer. *)
Lemma checkRecipientEligibility_primary_error (email : string) (w : World)
  (e : Error) (a1 : ApiState) :
  api (check_recipient_config email) (api_state w) = (inr e, a1) ->
  status_is e 404 = false ->
  fst (checkRecipientEligibility api email w) =
    Ok (not_eligible
          ("Failed to verify recipient: " +:+ toString (errorMessage_of e))).
Proof.
  intros H Hs. unfold checkRecipientEligibility, try_catch, bind, api_post.
  fold (check_recipient_config email).
  rewrite (api_call_inr _ _ _ _ H). rewrite Hs. reflexivity.
Qed.

(** The state in which the second tier starts. *)
Lemma api_call_lookup (email : string) (w : World) (a1 a2 : ApiState)
  (o : Response + Error) :
  api (user_by_email_config email) (after_check a1) = (o, a2) ->
  api_call api (user_by_email_config email)
    (set_api_state (after_check a1)
       (add_call (check_recipient_config email) (set_api_state a1 w))) =
  (match o with inl r => Ok r | inr e => Throw e end,
   add_call (user_by_email_config email)
     (set_api_state a2
        (add_call (check_recipient_config email) (set_api_state a1 w)))).
Proof.
  intros H. unfold api_call. cbn [api_state set_api_state add_call].
  rewrite H. destruct o; reflexivity.
Qed.

Ltac enter_fallback H Hs H2 :=
  unfold checkRecipientEligibility;
  unfold try_catch at 1 2; unfold bind at 1; unfold api_post;
  match goal with
  | |- context [request_config POST "/transfers/check-recipient" ?b] =>
      change (request_config POST "/transfers/check-recipient" b)
        with (check_recipient_config ltac:(match b with JObj [(_, JStr ?e)] => exact e end))
  end;
  rewrite (api_call_inr _ _ _ _ H); rewrite Hs; cbn [negb];
  unfold bind at 1; unfold log at 1, lift_api, console_log, modify;
  cbn [api_state set_api_state add_call];
  unfold try_catch at 1; unfold bind at 1; unfold api_get;
  match goal with
  | |- context [request_config GET ("/users/by-email/" +:+ ?e) JUndefined] =>
      change (request_config GET ("/users/by-email/" +:+ e) JUndefined)
        with (user_by_email_config e)
  end;
  match goal with
  | |- context [set_api_state ?x _] =>
      change x with (after_check ltac:(match x with add_console _ ?a => exact a end))
  end;
  rewrite (api_call_lookup _ _ _ _ _ H2).

(** The second tier: the user found by the lookup is eligible exactly
    when it has wallets and its KYC status is ["APPROVED"]. *)
Lemma checkRecipientEligibility_lookup (email : string) (w : World)
  (e : Error) (a1 a2 : ApiState) (r2 : Response) :
  api (check_recipient_config email) (api_state w) = (inr e, a1) ->
  status_is e 404 = true ->
  api (user_by_email_config email) (after_check a1) = (inl r2, a2) ->
  data r2 <> JNull -> data r2 <> JUndefined ->
  fst (checkRecipientEligibility api email w) =
    Ok (if negb (truthy (get (data r2) "hasWallets"))
        then not_eligible "Recipient does not have any wallets set up"
        else if negb (is_str (get (data r2) "kycStatus") "APPROVED")
        then not_eligible "Recipient has not completed KYC verification"
        else eligible).
Proof.
  intros H Hs H2 Hn Hu. enter_fallback H Hs H2.
  destruct (data r2) as [| |b|n|s|items|fields]; try contradiction;
    cbn [prop get ret bind truthy negb is_str assoc]; try reflexivity.
  unfold bind. cbn [ret].
  destruct (truthy (assoc "hasWallets" fields)); cbn [negb]; [|reflexivity].
  destruct (is_str (assoc "kycStatus" fields) "APPROVED"); reflexivity.
Qed.

(** The third tier: the lookup route is absent as well. *)
Lemma checkRecipientEligibility_no_lookup (email : string) (w : World)
  (e e2 : Error) (a1 a2 : ApiState) (r2 : Response) :
  api (check_recipient_config email) (api_state w) = (inr e, a1) ->
  status_is e 404 = true ->
  api (user_by_email_config email) (after_check a1) = (inr e2, a2) ->
  error_response e2 = Some r2 -> status r2 = 404 ->
  says_cannot_get r2 = Some true ->
  exists w', checkRecipientEligibility api email w = (Ok eligible, w') /\
    In "⚠️ WARNING: Unable to verify eligibility for recipient "
       (console (api_state w')).
Proof.
  intros H Hs H2 Hr Hst Hc. enter_fallback H Hs H2.
  match goal with
  | |- context [on_userError email e2 ?w0] =>
      destruct (on_userError_cannot_get email e2 r2 w0 Hr Hst Hc) as (w' & Hrun & Hin);
      rewrite Hrun
  end.
  exists w'. split; [reflexivity | exact Hin].
Qed.

(** The lookup answers that there is no such user. *)
Lemma checkRecipientEligibility_not_registered (email : string) (w : World)
  (e e2 : Error) (a1 a2 : ApiState) (r2 : Response) :
  api (check_recipient_config email) (api_state w) = (inr e, a1) ->
  status_is e 404 = true ->
  api (user_by_email_config email) (after_check a1) = (inr e2, a2) ->
  error_response e2 = Some r2 ->
  (status r2 = 400 \/ (status r2 = 404 /\ says_cannot_get r2 = Some false)) ->
  fst (checkRecipientEligibility api email w) =
    Ok (not_eligible "Recipient is not registered with Copperx").
Proof.
  intros H Hs H2 Hr Hst. enter_fallback H Hs H2.
  rewrite (on_userError_not_registered email e2 r2 _ Hr Hst). reflexivity.
Qed.

(** Any other failure of the lookup lets the transfer through. *)
Lemma checkRecipientEligibility_lookup_error (email : string) (w : World)
  (e e2 : Error) (a1 a2 : ApiState) :
  api (check_recipient_config email) (api_state w) = (inr e, a1) ->
  status_is e 404 = true ->
  api (user_by_email_config email) (after_check a1) = (inr e2, a2) ->
  status_is e2 404 = false -> status_is e2 400 = false ->
  fst (checkRecipientEligibility api email w) = Ok eligible.
Proof.
  intros H Hs H2 H404 H400. enter_fallback H Hs H2.
  rewrite (on_userError_other email e2 _ H404 H400). reflexivity.
Qed.

End EligibilityFacts.

(** C5, as stated, fails: an error of the eligibility endpoint that is
    not a 404 (here a 500) makes the check answer "not eligible". *)
Lemma eligibility_error_blocks_counterexample :
  exists verdict : JSON,
    fst (checkRecipientEligibility api_500 "friend@example.com"
           (world_of fresh_client None)) = Ok verdict /\
    verdict = not_eligible
                "Failed to verify recipient: Request failed with status code 500" /\
    truthy (get verdict "isEligible") <> true.
Proof.
  eexists. split; [vm_compute; reflexivity|].
  split; [reflexivity | discriminate].
Qed.

(** C5, amended. The check has three tiers. (1) It calls the eligibility
    endpoint and returns its answer. (2) When that endpoint answers 404
    it looks the user up by e-mail: the recipient is eligible exactly
    when the user has wallets and its KYC status is ["APPROVED"].
    (3) When the lookup answers 404 with a message saying "Cannot GET",
    it returns eligible and logs a warning. For the other errors: an
    error of the lookup without a response or with a status other than
    404 and 400 returns eligible; a 400 of the lookup, or a 404 that
    does not say "Cannot GET", returns "not registered"; and an error of
    the eligibility endpoint other than a 404 returns not eligible, with
    the reason "Failed to verify recipient: ...". *)
Theorem checkRecipientEligibility_tiers :
  forall (api : Config -> ApiState -> (Response + Error) * ApiState)
         (email : string) (w : World),
    (forall r a1,
        api (check_recipient_config email) (api_state w) = (inl r, a1) ->
        fst (checkRecipientEligibility api email w) = Ok (data r)) /\
    (forall e a1,
        api (check_recipient_config email) (api_state w) = (inr e, a1) ->
        status_is e 404 = false ->
        fst (checkRecipientEligibility api email w) =
          Ok (not_eligible
                ("Failed to verify recipient: " +:+ toString (errorMessage_of e)))) /\
    (forall e a1,
        api (check_recipient_config email) (api_state w) = (inr e, a1) ->
        status_is e 404 = true ->
        (forall r2 a2,
            api (user_by_email_config email) (after_check a1) = (inl r2, a2) ->
            data r2 <> JNull -> data r2 <> JUndefined ->
            fst (checkRecipientEligibility api email w) =
              Ok (if negb (truthy (get (data r2) "hasWallets"))
                  then not_eligible "Recipient does not have any wallets set up"
                  else if negb (is_str (get (data r2) "kycStatus") "APPROVED")
                  then not_eligible "Recipient has not completed KYC verification"
                  else eligible)) /\
        (forall e2 a2 r2,
            api (user_by_email_config email) (after_check a1) = (inr e2, a2) ->
            error_response e2 = Some r2 -> status r2 = 404 ->
            says_cannot_get r2 = Some true ->
            exists w', checkRecipientEligibility api email w = (Ok eligible, w') /\
              In "⚠️ WARNING: Unable to verify eligibility for recipient "
                 (console (api_state w'))) /\
        (forall e2 a2 r2,
            api (user_by_email_config email) (after_check a1) = (inr e2, a2) ->
            error_response e2 = Some r2 ->
            (status r2 = 400 \/ (status r2 = 404 /\ says_cannot_get r2 = Some false)) ->
            fst (checkRecipientEligibility api email w) =
              Ok (not_eligible "Recipient is not registered with Copperx")) /\
        (forall e2 a2,
            api (user_by_email_config email) (after_check a1) = (inr e2, a2) ->
            status_is e2 404 = false -> status_is e2 400 = false ->
            fst (checkRecipientEligibility api email w) = Ok eligible)).
Proof.
  intros api email w. split; [|split].
  - intros r a1 H. rewrite (checkRecipientEligibility_primary api email w r a1 H).
    reflexivity.
  - intros e a1 H Hs.
    exact (checkRecipientEligibility_primary_error api email w e a1 H Hs).
  - intros e a1 H Hs. repeat split.
    + intros r2 a2 H2 Hn Hu.
      exact (checkRecipientEligibility_lookup api email w e a1 a2 r2 H Hs H2 Hn Hu).
    + intros e2 a2 r2 H2 Hr Hst Hc.
      exact (checkRecipientEligibility_no_lookup api email w e e2 a1 a2 r2
               H Hs H2 Hr Hst Hc).
    + intros e2 a2 r2 H2 Hr Hst.
      exact (checkRecipientEligibility_not_registered api email w e e2 a1 a2 r2
               H Hs H2 Hr Hst).
    + intros e2 a2 H2 H404 H400.
      exact (checkRecipientEligibility_lookup_error api email w e e2 a1 a2
               H Hs H2 H404 H400).
Qed.

Lemma checkRecipientEligibility_tiers_witness :
  exists w', checkRecipientEligibility api_no_endpoints "friend@example.com"
               (world_of fresh_client None) = (Ok eligible, w') /\
    In "⚠️ WARNING: Unable to verify eligibility for recipient "
       (console (api_state w')).
Proof.
  eapply (proj1 (proj2 (proj2 (proj2
            (checkRecipientEligibility_tiers api_no_endpoints "friend@example.com"
               (world_of fresh_client None)))
            _ _ _ _))).
  - vm_compute. reflexivity.
  - reflexivity.
  - reflexivity.
  - reflexivity.
Unshelve.
  all: try (vm_compute; reflexivity).
Defined.

(** ** Services: what they leave untouched *)

Lemma harmless_ret {A} (a : A) : harmless (ret a).
Proof. intros w. cbn. repeat split. discriminate. Qed.

Lemma harmless_throw {A} (e : Error) : harmless (@throw World A e).
Proof. intros w. cbn. repeat split. discriminate. Qed.

Lemma harmless_bind {A B} (m : M World A) (k : A -> M World B) :
  harmless m -> (forall a, harmless (k a)) -> harmless (bind m k).
Proof.
  intros Hm Hk w. unfold bind. destruct (Hm w) as (Hd & Hs & Hc & Ht).
  destruct (m w) as [[a|e|] w']; cbn in *.
  - destruct (Hk a w') as (Hd' & Hs' & Hc' & Ht').
    repeat split; congruence.
  - repeat split; try assumption. discriminate.
  - contradiction.
Qed.

Lemma harmless_try_catch {A} (m : M World A) (h : Error -> M World A) :
  harmless m -> (forall e, harmless (h e)) -> harmless (try_catch m h).
Proof.
  intros Hm Hh w. unfold try_catch. destruct (Hm w) as (Hd & Hs & Hc & Ht).
  destruct (m w) as [[a|e|] w']; cbn in *.
  - repeat split; assumption.
  - destruct (Hh e w') as (Hd' & Hs' & Hc' & Ht').
    repeat split; congruence.
  - contradiction.
Qed.

Lemma harmless_lift_api {A} (m : M ApiState A) :
  (forall a, fst (m a) <> Diverge) -> harmless (lift_api m).
Proof.
  intros Hm w. unfold lift_api. specialize (Hm (api_state w)).
  destruct (m (api_state w)) as [r a]. cbn in *. repeat split. assumption.
Qed.

Lemma harmless_log (line : string) : harmless (log line).
Proof. apply harmless_lift_api. intros a. cbn. discriminate. Qed.

Lemma harmless_prop (v : JSON) (k : string) : harmless (@prop World v k).
Proof. destruct v; cbn; (apply harmless_ret || apply harmless_throw). Qed.

Lemma harmless_toLowerCase_of (v : JSON) : harmless (@toLowerCase_of World v).
Proof. destruct v; cbn; (apply harmless_ret || apply harmless_throw). Qed.

Lemma harmless_includes_of (callee : string) (v : JSON) (sub : string) :
  harmless (@includes_of World callee v sub).
Proof. destruct v; cbn; (apply harmless_ret || apply harmless_throw). Qed.

Lemma harmless_api_call
  (api : Config -> ApiState -> (Response + Error) * ApiState) (c : Config) :
  is_transfer c = false -> harmless (api_call api c).
Proof.
  intros Hc w. unfold api_call.
  destruct (api c (api_state w)) as [[r|e] a]; cbn;
    unfold transfer_calls; cbn; rewrite Hc; repeat split; discriminate.
Qed.

Create HintDb harmless.

#[local] Hint Resolve harmless_ret harmless_throw harmless_log harmless_prop
  harmless_toLowerCase_of harmless_includes_of : harmless.

#[local] Hint Extern 1 (harmless (api_call _ _)) =>
  apply harmless_api_call; reflexivity : harmless.

#[local] Hint Extern 1 (harmless (api_get _ _)) =>
  apply harmless_api_call; reflexivity : harmless.

#[local] Hint Extern 1 (harmless (api_post _ _ _)) =>
  apply harmless_api_call; reflexivity : harmless.

(** One step through a computation: a [bind], a [try], a test, or a
    step that is known to be harmless. *)
Ltac harmless_step :=
  first
    [ solve [auto with harmless]
    | apply harmless_bind; [|intros ?]
    | apply harmless_try_catch; [|intros ?]
    | match goal with
      | |- harmless (if ?c then _ else _) => destruct c
      | |- harmless (match ?x with _ => _ end) => destruct x
      end
    | progress cbv zeta ].

Ltac harmless_auto := repeat harmless_step.

Section ServiceFacts.

Variable api : Config -> ApiState -> (Response + Error) * ApiState.

Lemma harmless_getKYCStatus : harmless (getKYCStatus api).
Proof. unfold getKYCStatus. harmless_auto. Qed.

#[local] Hint Resolve harmless_getKYCStatus : harmless.

Lemma harmless_isKycApproved : harmless (isKycApproved api).
Proof. unfold isKycApproved. harmless_auto. Qed.

Lemma harmless_getDefaultWallet : harmless (getDefaultWallet api).
Proof. unfold getDefaultWallet. harmless_auto. Qed.

Lemma harmless_getWalletBalance : harmless (getWalletBalance api).
Proof. unfold getWalletBalance. harmless_auto. Qed.

Lemma harmless_requestEmailOTP (email : string) :
  harmless (requestEmailOTP api email).
Proof. unfold requestEmailOTP. harmless_auto. Qed.

Lemma harmless_getTransfers (p l : Z) : harmless (getTransfers api p l).
Proof. unfold getTransfers. harmless_auto. Qed.

Lemma harmless_on_userError (email : string) (e : Error) :
  harmless (on_userError email e).
Proof. unfold on_userError. harmless_auto. Qed.

#[local] Hint Resolve harmless_on_userError : harmless.

Lemma harmless_checkRecipientEligibility (email : string) :
  harmless (checkRecipientEligibility api email).
Proof. unfold checkRecipientEligibility. harmless_auto. Qed.

(** [isKycApproved], [getDefaultWallet] and [getWalletBalance] catch
    every error: they end with a value. *)
Lemma returns_try_catch {A} (m : M World A) (h : Error -> M World A) :
  harmless m -> (forall e, returns (h e)) -> returns (try_catch m h).
Proof.
  intros Hm Hh w. unfold try_catch. destruct (Hm w) as (Hd & _).
  destruct (m w) as [[a|e|] w']; cbn in *.
  - eauto.
  - apply Hh.
  - contradiction.
Qed.

Lemma returns_log_ret {A} (line : string) (a : A) :
  returns (log line ;; ret a).
Proof. intros w. eexists _, _. reflexivity. Qed.

Lemma returns_isKycApproved : returns (isKycApproved api).
Proof.
  unfold isKycApproved. apply returns_try_catch;
    [harmless_auto | intros e; apply returns_log_ret].
Qed.

Lemma returns_getDefaultWallet : returns (getDefaultWallet api).
Proof.
  unfold getDefaultWallet. apply returns_try_catch;
    [harmless_auto | intros e; apply returns_log_ret].
Qed.

Lemma returns_getWalletBalance : returns (getWalletBalance api).
Proof.
  unfold getWalletBalance. apply returns_try_catch;
    [harmless_auto | intros e; apply returns_log_ret].
Qed.

End ServiceFacts.

(** ** The send flow: its preconditions *)

Section SendFacts.

Variable api : Config -> ApiState -> (Response + Error) * ApiState.
Variable parseFloat : JSON -> FloatSign.

Lemma checkAuth_anonymous (w : World) :
  session_user w = None ->
  checkAuth w =
    (Ok false, add_chat (Reply MSG_LOGIN_FIRST (Keyboard [["🔑 Login"]])) w).
Proof. intros H. unfold checkAuth, bind, gets. rewrite H. reflexivity. Qed.

Lemma checkAuth_user (w : World) (u : UserSession) :
  session_user w = Some u ->
  checkAuth w = (Ok true, after_checkAuth u w).
Proof.
  intros H. unfold checkAuth, bind, gets. rewrite H.
  unfold lift_api, after_checkAuth.
  destruct (setAuthToken_run (JStr (user_token u)) None (api_state w))
    as (a & Hrun & _).
  rewrite Hrun. reflexivity.
Qed.

Lemma after_checkAuth_session (u : UserSession) (w : World) :
  ctx_session (after_checkAuth u w) = ctx_session w /\
  chat (after_checkAuth u w) = chat w /\
  calls (after_checkAuth u w) = calls w.
Proof. repeat split. Qed.

Lemma session_user_session (w : World) (u : UserSession) :
  session_user w = Some u -> exists s, ctx_session w = Some s /\ user s = Some u.
Proof.
  unfold session_user. destruct (ctx_session w) as [s|]; [|discriminate].
  intros H. exists s. split; [reflexivity | assumption].
Qed.

(** Not logged in: one message, nothing else happens. *)
Lemma sendHandler_anonymous (w : World) :
  session_user w = None ->
  sendHandler api parseFloat w =
    (Ok tt, add_chat (Reply MSG_LOGIN_FIRST (Keyboard [["🔑 Login"]])) w).
Proof.
  intros H. unfold sendHandler. unfold bind at 1.
  rewrite (checkAuth_anonymous w H). reflexivity.
Qed.

Lemma sendHandler_kyc (w : World) (u : UserSession) (w1 : World) :
  session_user w = Some u ->
  isKycApproved api (after_checkAuth u w) = (Ok false, w1) ->
  sendHandler api parseFloat w =
    (Ok tt, add_chat (Reply MSG_KYC_NOT_APPROVED transfer_keyboard) w1) /\
  ctx_session w1 = ctx_session w.
Proof.
  intros H Hk. split.
  - unfold sendHandler. unfold bind at 1. rewrite (checkAuth_user w u H).
    cbn [negb]. unfold try_catch, bind. rewrite Hk. reflexivity.
  - destruct (harmless_isKycApproved api (after_checkAuth u w)) as (_ & Hs & _).
    rewrite Hk in Hs. exact Hs.
Qed.

Lemma sendHandler_wallet (w : World) (u : UserSession) (w1 w2 : World)
  (wallet : JSON) :
  session_user w = Some u ->
  isKycApproved api (after_checkAuth u w) = (Ok true, w1) ->
  getDefaultWallet api w1 = (Ok wallet, w2) ->
  (truthy wallet && truthy (get wallet "walletAddress"))%bool = false ->
  sendHandler api parseFloat w =
    (Ok tt, add_chat (Reply MSG_NO_DEFAULT_WALLET transfer_keyboard) w2) /\
  ctx_session w2 = ctx_session w.
Proof.
  intros H Hk Hw Hno. split.
  - unfold sendHandler. unfold bind at 1. rewrite (checkAuth_user w u H).
    cbn [negb]. unfold try_catch, bind. rewrite Hk. cbn [negb]. rewrite Hw.
    rewrite <- negb_andb, Hno. reflexivity.
  - destruct (harmless_isKycApproved api (after_checkAuth u w)) as (_ & Hs & _).
    destruct (harmless_getDefaultWallet api w1) as (_ & Hs' & _).
    rewrite Hk in Hs. rewrite Hw in Hs'. cbn in *. congruence.
Qed.

Lemma sendHandler_balance (w : World) (u : UserSession) (w1 w2 w3 : World)
  (wallet balance : JSON) :
  session_user w = Some u ->
  isKycApproved api (after_checkAuth u w) = (Ok true, w1) ->
  getDefaultWallet api w1 = (Ok wallet, w2) ->
  (truthy wallet && truthy (get wallet "walletAddress"))%bool = true ->
  getWalletBalance api w2 = (Ok balance, w3) ->
  (truthy balance && truthy (get balance "balance"))%bool = false \/
  le_zero (parseFloat (get balance "balance")) = true ->
  sendHandler api parseFloat w =
    (Ok tt, add_chat (Reply MSG_NO_BALANCE transfer_keyboard) w3) /\
  ctx_session w3 = ctx_session w.
Proof.
  intros H Hk Hw Hyes Hb Hno. split.
  - unfold sendHandler. unfold bind at 1. rewrite (checkAuth_user w u H).
    cbn [negb]. unfold try_catch, bind. rewrite Hk. cbn [negb]. rewrite Hw.
    rewrite <- negb_andb, Hyes. cbn [negb]. rewrite Hb.
    rewrite <- negb_andb.
    destruct Hno as [Hno | Hno]; rewrite Hno; [reflexivity|].
    rewrite orb_true_r. reflexivity.
  - destruct (harmless_isKycApproved api (after_checkAuth u w)) as (_ & Hs & _).
    destruct (harmless_getDefaultWallet api w1) as (_ & Hs' & _).
    destruct (harmless_getWalletBalance api w2) as (_ & Hs'' & _).
    rewrite Hk in Hs. rewrite Hw in Hs'. rewrite Hb in Hs''. cbn in *. congruence.
Qed.

Lemma sendHandler_passes (w : World) (u : UserSession) (s : Session)
  (w1 w2 w3 : World) (wallet balance : JSON) :
  session_user w = Some u -> ctx_session w = Some s ->
  isKycApproved api (after_checkAuth u w) = (Ok true, w1) ->
  getDefaultWallet api w1 = (Ok wallet, w2) ->
  (truthy wallet && truthy (get wallet "walletAddress"))%bool = true ->
  getWalletBalance api w2 = (Ok balance, w3) ->
  (truthy balance && truthy (get balance "balance"))%bool = true ->
  le_zero (parseFloat (get balance "balance")) = false ->
  sendHandler api parseFloat w =
    (Ok tt,
     add_chat (Reply MSG_ENTER_RECIPIENT (ForceReply "Enter recipient email"))
       (set_ctx_session
          (Some (set_transferState (Some email_transfer_started) s)) w3)).
Proof.
  intros H Hsess Hk Hw Hyes Hb Hpos Hle.
  assert (Hs3 : ctx_session w3 = Some s).
  { destruct (harmless_isKycApproved api (after_checkAuth u w)) as (_ & Hs & _).
    destruct (harmless_getDefaultWallet api w1) as (_ & Hs' & _).
    destruct (harmless_getWalletBalance api w2) as (_ & Hs'' & _).
    rewrite Hk in Hs. rewrite Hw in Hs'. rewrite Hb in Hs''. cbn in *. congruence. }
  unfold sendHandler. unfold bind at 1. rewrite (checkAuth_user w u H).
  cbn [negb]. unfold try_catch, bind. rewrite Hk. cbn [negb]. rewrite Hw.
  rewrite <- negb_andb, Hyes. cbn [negb]. rewrite Hb.
  rewrite <- negb_andb, Hpos, Hle. cbn [negb orb].
  unfold ensure_session, modify, update_session. rewrite Hs3. cbn.
  rewrite Hs3. reflexivity.
Qed.

(** The gate by name runs the same checks in the same states. *)
Lemma canPerformTransfers_start (w : World) (u : UserSession) :
  session_user w = Some u ->
  canPerformTransfers api parseFloat w =
    try_catch
      (kycApproved <- isKycApproved api ;;
       if negb kycApproved then
         reply MSG_KYC_NOT_APPROVED transfer_keyboard ;;
         ret false
       else
         wallet <- getDefaultWallet api ;;
         if (negb (truthy wallet) ||
             negb (truthy (get wallet "walletAddress")))%bool
         then
           reply MSG_NO_DEFAULT_WALLET transfer_keyboard ;;
           ret false
         else
           balance <- getWalletBalance api ;;
           if (negb (truthy balance) || negb (truthy (get balance "balance")) ||
               le_zero (parseFloat (get balance "balance")))%bool
           then
             reply MSG_NO_BALANCE transfer_keyboard ;;
             ret false
           else ret true)
      (fun error =>
         log "Error checking transfer eligibility:" ;;
         reply MSG_ELIGIBILITY_FAILED NoMarkup ;;
         ret false)
      (after_checkAuth u w).
Proof.
  intros H. unfold canPerformTransfers. unfold bind at 1. unfold gets.
  rewrite H. unfold try_catch. unfold bind at 1. unfold lift_api, after_checkAuth.
  destruct (setAuthToken_run (JStr (user_token u)) None (api_state w))
    as (a & Hrun & _).
  rewrite Hrun. reflexivity.
Qed.

Lemma canPerformTransfers_passes (w : World) (u : UserSession)
  (w1 w2 w3 : World) (wallet balance : JSON) :
  session_user w = Some u ->
  isKycApproved api (after_checkAuth u w) = (Ok true, w1) ->
  getDefaultWallet api w1 = (Ok wallet, w2) ->
  (truthy wallet && truthy (get wallet "walletAddress"))%bool = true ->
  getWalletBalance api w2 = (Ok balance, w3) ->
  (truthy balance && truthy (get balance "balance"))%bool = true ->
  le_zero (parseFloat (get balance "balance")) = false ->
  canPerformTransfers api parseFloat w = (Ok true, w3).
Proof.
  intros H Hk Hw Hyes Hb Hpos Hle.
  rewrite (canPerformTransfers_start w u H).
  unfold try_catch, bind. rewrite Hk. cbn [negb]. rewrite Hw.
  rewrite <- negb_andb, Hyes. cbn [negb]. rewrite Hb.
  rewrite <- negb_andb, Hpos, Hle. reflexivity.
Qed.

(** The gate never touches the session. *)
Lemma canPerformTransfers_session (w : World) :
  ctx_session (snd (canPerformTransfers api parseFloat w)) = ctx_session w.
Proof.
  destruct (session_user w) as [u|] eqn:Hu.
  2:{ unfold canPerformTransfers, bind, gets. rewrite Hu. reflexivity. }
  rewrite (canPerformTransfers_start w u Hu). unfold try_catch, bind.
  destruct (returns_isKycApproved api (after_checkAuth u w)) as (k & w1 & Hk).
  destruct (harmless_isKycApproved api (after_checkAuth u w)) as (_ & Hs1 & _).
  rewrite Hk in Hs1 |- *. cbn in Hs1.
  destruct k; cbn [negb]; [|exact Hs1].
  destruct (returns_getDefaultWallet api w1) as (wallet & w2 & Hw).
  destruct (harmless_getDefaultWallet api w1) as (_ & Hs2 & _).
  rewrite Hw in Hs2 |- *. cbn in Hs2.
  destruct (negb (truthy wallet) || negb (truthy (get wallet "walletAddress")))%bool;
    [cbn; congruence|].
  destruct (returns_getWalletBalance api w2) as (balance & w3 & Hb).
  destruct (harmless_getWalletBalance api w2) as (_ & Hs3 & _).
  rewrite Hb in Hs3 |- *. cbn in Hs3.
  destruct (negb (truthy balance) || negb (truthy (get balance "balance")) ||
            le_zero (parseFloat (get balance "balance")))%bool;
    cbn; congruence.
Qed.

End SendFacts.




(** ** The handlers on the wire *)

(** With a Telegram that accepts and a client that settles, the calls
    on the wire are the calls of Part I. *)
Lemma send_accepting (a : ChatAction) (w : World) :
  Wire.send accepting a w = modify (add_chat a) w.
Proof. reflexivity. Qed.

Lemma api_call_settled
  (api : Config -> ApiState -> (Response + Error) * ApiState)
  (c : Config) (w : World) :
  Wire.api_call (settled api) c w = api_call api c w.
Proof.
  unfold Wire.api_call, api_call, settled.
  destruct (api c (api_state w)) as [[r|e] a]; reflexivity.
Qed.

Lemma bind_ext {A B} (m m' : M World A) (k k' : A -> M World B) (w : World) :
  (forall w0, m w0 = m' w0) -> (forall a w0, k a w0 = k' a w0) ->
  bind m k w = bind m' k' w.
Proof.
  intros Hm Hk. unfold bind. rewrite Hm.
  destruct (m' w) as [[a|e|] w']; [apply Hk | reflexivity | reflexivity].
Qed.

Lemma try_catch_ext {A} (m m' : M World A) (h h' : Error -> M World A)
  (w : World) :
  (forall w0, m w0 = m' w0) -> (forall e w0, h e w0 = h' e w0) ->
  try_catch m h w = try_catch m' h' w.
Proof.
  intros Hm Hh. unfold try_catch. rewrite Hm.
  destruct (m' w) as [[a|e|] w']; [reflexivity | apply Hh | reflexivity].
Qed.

(** One step of a comparison of two runs of the same text. *)
Ltac same_text_step :=
  first
    [ reflexivity
    | apply api_call_settled
    | apply bind_ext; [intros ?|intros ? ?]
    | apply try_catch_ext; [intros ?|intros ? ?]
    | match goal with
      | |- (if ?c then _ else _) _ = (if ?c then _ else _) _ => destruct c
      | |- (match ?x with _ => _ end) _ = (match ?x with _ => _ end) _ =>
          destruct x
      end
    | progress cbv zeta ].

Ltac same_text := repeat same_text_step.

Section WireIsPartOne.

Variable api : Config -> ApiState -> (Response + Error) * ApiState.
Variable history_text : list JSON -> JSON -> Z -> string.
Variable lessThan : Z -> JSON -> bool.

Lemma checkRecipientEligibility_settled (email : string) (w : World) :
  Wire.checkRecipientEligibility (settled api) email w =
  checkRecipientEligibility api email w.
Proof.
  unfold Wire.checkRecipientEligibility, checkRecipientEligibility,
    Wire.api_post, Wire.api_get, api_post, api_get.
  same_text.
Qed.

Lemma sendToEmail_settled (email amount : string) (w : World) :
  Wire.sendToEmail (settled api) email amount w = sendToEmail api email amount w.
Proof.
  unfold Wire.sendToEmail, sendToEmail, Wire.api_post, api_post.
  apply bind_ext; [apply checkRecipientEligibility_settled|]. intros ? ?.
  same_text.
Qed.

Lemma perform_transfer_settled (st : TransferState) (r a : string) (w : World) :
  Wire.perform_transfer accepting (settled api) st r a w =
  perform_transfer api st r a w.
Proof.
  unfold Wire.perform_transfer, perform_transfer, Wire.sendToWallet,
    sendToWallet, Wire.api_post, api_post.
  destruct (is_lit (type st) "EMAIL").
  - apply bind_ext; [apply sendToEmail_settled | reflexivity].
  - same_text.
Qed.

(** The confirmation on the wire, when Telegram accepts and the API
    settles, is the confirmation of Part I. *)
Lemma handleTransferConfirm_settled (w : World) :
  Wire.handleTransferConfirm accepting (settled api) w =
  handleTransferConfirm api w.
Proof.
  unfold Wire.handleTransferConfirm, handleTransferConfirm.
  apply bind_ext; [reflexivity|]. intros authenticated w0.
  destruct (negb authenticated); [reflexivity|].
  apply bind_ext; [reflexivity|]. intros ts w1.
  destruct ts as [st|]; [|reflexivity].
  apply try_catch_ext; [|reflexivity]. intros w2.
  destruct (negb (present (recipient st)) || negb (present (amount st)))%bool;
    [reflexivity|].
  apply try_catch_ext; [|reflexivity]. intros w3.
  apply bind_ext; [apply perform_transfer_settled | reflexivity].
Qed.

(** And so is the paging of the history. *)
Lemma handleHistoryPagination_settled (action : string) (w : World) :
  Wire.handleHistoryPagination accepting (settled api) history_text lessThan
    action w =
  handleHistoryPagination api history_text lessThan action w.
Proof.
  unfold Wire.handleHistoryPagination, handleHistoryPagination.
  apply bind_ext; [reflexivity|]. intros authenticated w0.
  destruct (negb authenticated); [reflexivity|].
  apply bind_ext; [reflexivity|]. intros h w1.
  apply bind_ext; [reflexivity|]. intros [] w2.
  unfold Wire.fetchAndDisplayHistory, fetchAndDisplayHistory,
    Wire.getTransfers, getTransfers, Wire.api_get, api_get.
  same_text.
Qed.

End WireIsPartOne.

(** *** What holds however a computation ends *)

Section AlwaysFacts.

Variable R : World -> World -> Prop.
Hypothesis R_refl : forall w, R w w.
Hypothesis R_trans : forall w1 w2 w3, R w1 w2 -> R w2 w3 -> R w1 w3.

Lemma always_ret {A} (a : A) : always R (ret a).
Proof. intros w. apply R_refl. Qed.

Lemma always_throw {A} (e : Error) : always R (@throw World A e).
Proof. intros w. apply R_refl. Qed.

Lemma always_bind {A B} (m : M World A) (k : A -> M World B) :
  always R m -> (forall a, always R (k a)) -> always R (bind m k).
Proof.
  intros Hm Hk w. unfold bind. specialize (Hm w).
  destruct (m w) as [[a|e|] w']; cbn in *; try assumption.
  apply (R_trans _ _ _ Hm). apply Hk.
Qed.

Lemma always_try_catch {A} (m : M World A) (h : Error -> M World A) :
  always R m -> (forall e, always R (h e)) -> always R (try_catch m h).
Proof.
  intros Hm Hh w. unfold try_catch. specialize (Hm w).
  destruct (m w) as [[a|e|] w']; cbn in *; try assumption.
  apply (R_trans _ _ _ Hm). apply Hh.
Qed.

Lemma always_prop (v : JSON) (k : string) : always R (@prop World v k).
Proof. destruct v; cbn; (apply always_ret || apply always_throw). Qed.

Lemma always_includes_of (callee : string) (v : JSON) (sub : string) :
  always R (@includes_of World callee v sub).
Proof. destruct v; cbn; (apply always_ret || apply always_throw). Qed.

End AlwaysFacts.

Lemma quiet_refl (w : World) : quiet w w.
Proof. repeat split. Qed.

Lemma quiet_trans (w1 w2 w3 : World) : quiet w1 w2 -> quiet w2 w3 -> quiet w1 w3.
Proof. unfold quiet. intros (? & ? & ?) (? & ? & ?). repeat split; congruence. Qed.

Lemma quiet_once (w w' : World) : quiet w w' -> once w w'.
Proof. intros (? & ? & Ht). split; [|split]; try assumption. rewrite Ht. lia. Qed.

Lemma quiet_then_once (w1 w2 w3 : World) : quiet w1 w2 -> once w2 w3 -> once w1 w3.
Proof.
  unfold quiet, once. intros (? & ? & Ht) (? & ? & Ht').
  split; [|split]; [congruence | congruence | lia].
Qed.

Lemma quiet_lift_api {A} (m : M ApiState A) : always quiet (lift_api m).
Proof.
  intros w. unfold lift_api. destruct (m (api_state w)) as [r a].
  repeat split.
Qed.

Lemma quiet_log (line : string) : always quiet (log line).
Proof. apply quiet_lift_api. Qed.

Lemma once_api_call (client : Config -> M ApiState Response) (c : Config) :
  always once (Wire.api_call client c).
Proof.
  intros w. unfold Wire.api_call.
  destruct (client c (api_state w)) as [r a]. cbn.
  unfold once, transfer_calls. cbn. destruct (is_transfer c); cbn;
    (split; [|split]; [reflexivity | reflexivity | lia]).
Qed.

Lemma quiet_api_call (client : Config -> M ApiState Response) (c : Config) :
  is_transfer c = false -> always quiet (Wire.api_call client c).
Proof.
  intros Hc w. unfold Wire.api_call.
  destruct (client c (api_state w)) as [r a]. cbn.
  unfold quiet, transfer_calls. cbn. rewrite Hc. repeat split.
Qed.

Create HintDb quiet.
Create HintDb wire_session.

#[local] Hint Resolve quiet_log : quiet.

#[local] Hint Extern 1 (always quiet (ret _)) =>
  apply (always_ret quiet quiet_refl) : quiet.
#[local] Hint Extern 1 (always quiet (throw _)) =>
  apply (always_throw quiet quiet_refl) : quiet.
#[local] Hint Extern 1 (always quiet (prop _ _)) =>
  apply (always_prop quiet quiet_refl) : quiet.
#[local] Hint Extern 1 (always quiet (includes_of _ _ _)) =>
  apply (always_includes_of quiet quiet_refl) : quiet.
#[local] Hint Extern 1 (always quiet (Wire.api_call _ _)) =>
  apply quiet_api_call; reflexivity : quiet.
#[local] Hint Extern 1 (always quiet (Wire.api_get _ _)) =>
  apply quiet_api_call; reflexivity : quiet.
#[local] Hint Extern 1 (always quiet (Wire.api_post _ _ _)) =>
  apply quiet_api_call; reflexivity : quiet.

Ltac quiet_step :=
  first
    [ solve [auto with quiet]
    | apply (always_bind quiet quiet_trans); [|intros ?]
    | apply (always_try_catch quiet quiet_trans); [|intros ?]
    | match goal with
      | |- always quiet (if ?c then _ else _) => destruct c
      | |- always quiet (match ?x with _ => _ end) => destruct x
      end
    | progress cbv zeta ].

Ltac quiet_auto := repeat quiet_step.

Lemma quiet_on_userError (email : string) (e : Error) :
  always quiet (on_userError email e).
Proof. unfold on_userError. quiet_auto. Qed.

#[local] Hint Resolve quiet_on_userError : quiet.

Section WireFacts.

Variable telegram : list ChatAction -> ChatAction -> Delivery.
Variable client : Config -> M ApiState Response.

Lemma quiet_checkRecipientEligibility (email : string) :
  always quiet (Wire.checkRecipientEligibility client email).
Proof. unfold Wire.checkRecipientEligibility. quiet_auto. Qed.

Lemma once_sendToEmail (email amount : string) :
  always once (Wire.sendToEmail client email amount).
Proof.
  intros w. unfold Wire.sendToEmail, bind.
  pose proof (quiet_checkRecipientEligibility email w) as H1.
  destruct (Wire.checkRecipientEligibility client email w) as [[el|e|] w1];
    cbn in *; try (apply quiet_once; exact H1).
  unfold prop. destruct el; cbn; try (apply quiet_once; exact H1).
  all: match goal with
       | |- context [negb ?b] => destruct (negb b)
       end; cbn; try (apply quiet_once; exact H1).
  all: apply (quiet_then_once _ _ _ H1); apply once_api_call.
Qed.

Lemma once_sendToWallet (address amount network : string) :
  always once (Wire.sendToWallet client address amount network).
Proof. apply once_api_call. Qed.

End WireFacts.

(** *** The confirmation on the wire *)

Section ConfirmOnWire.

Variable telegram : list ChatAction -> ChatAction -> Delivery.
Variable client : Config -> M ApiState Response.

Lemma checkAuth_on_wire (w : World) (u : UserSession) :
  session_user w = Some u ->
  Wire.checkAuth telegram w = (Ok true, after_checkAuth u w).
Proof.
  intros H. unfold Wire.checkAuth, bind, gets. rewrite H.
  unfold lift_api, after_checkAuth.
  destruct (setAuthToken_run (JStr (user_token u)) None (api_state w))
    as (a & Hrun & _).
  rewrite Hrun. reflexivity.
Qed.

(** The world after a line was written to the console. *)
Lemma log_run (line : string) (w : World) :
  exists w', log line w = (Ok tt, w') /\ quiet w w'.
Proof.
  pose proof (quiet_log line w) as Hq.
  unfold log, lift_api, console_log, modify in *. cbn in *.
  eexists. split; [reflexivity | exact Hq].
Qed.

(** An awaited call of Telegram adds to the chat, or throws or hangs
    and changes nothing. *)
Lemma send_outcome (a : ChatAction) (w : World) :
  (telegram (chat w) a = Accepted /\
   Wire.send telegram a w = (Ok tt, add_chat a w)) \/
  (exists r, r <> Ok tt /\ Wire.send telegram a w = (r, w)).
Proof.
  unfold Wire.send. destruct (telegram (chat w) a) as [|e|]; [left | right | right].
  - split; reflexivity.
  - exists (Throw e). split; [discriminate | reflexivity].
  - exists Diverge. split; [discriminate | reflexivity].
Qed.

(** The outer [catch] block: it resets the flow state when its message
    is accepted; when not, it throws or hangs with the state as it
    was. *)
Lemma on_handler_error_run (e : Error) (w : World) (s : Session) :
  ctx_session w = Some s ->
  exists r w',
    Wire.on_handler_error telegram e w = (r, w') /\
    transfer_calls w' = transfer_calls w /\
    ((r = Ok tt /\ ctx_session w' = Some (transfer_reset s)) \/
     (r <> Ok tt /\ ctx_session w' = Some s)).
Proof.
  intros Hs. unfold Wire.on_handler_error. unfold bind at 1.
  destruct (log_run "Error in transfer confirmation handler:" w)
    as (w1 & Hlog & Hs1 & Hc1 & Ht1).
  rewrite Hlog. unfold bind at 1. unfold Wire.reply.
  destruct (send_outcome (Reply MSG_UNEXPECTED NoMarkup) w1)
    as [[Hyes Hrun] | (r & Hr & Hrun)]; rewrite Hrun.
  - unfold modify. cbn [ctx_session add_chat]. rewrite Hs1, Hs.
    eexists _, _. split; [reflexivity|]. split; [exact Ht1|].
    left. split; reflexivity.
  - destruct r as [[]|e'|]; [contradiction| |];
      (eexists _, _; split; [reflexivity|]; split; [exact Ht1|];
       right; split; [discriminate | congruence]).
Qed.

(** The inner [catch] block: the same, with an edit of the message;
    what it throws reaches the outer block. *)
Lemma on_transfer_error_run (e : Error) (w : World) (s : Session) :
  ctx_session w = Some s ->
  exists r w',
    Wire.on_transfer_error telegram e w = (r, w') /\
    transfer_calls w' = transfer_calls w /\
    ((r = Ok tt /\ ctx_session w' = Some (transfer_reset s)) \/
     (r <> Ok tt /\ ctx_session w' = Some s)).
Proof.
  intros Hs. unfold Wire.on_transfer_error. unfold bind at 1.
  destruct (log_run "Error processing transfer:" w)
    as (w1 & Hlog & Hs1 & Hc1 & Ht1).
  rewrite Hlog. unfold bind at 1. unfold Wire.editMessageText.
  match goal with
  | |- context [if ?c then Wire.send telegram ?a else Wire.send telegram ?b] =>
      replace (if c then Wire.send telegram a else Wire.send telegram b)
        with (Wire.send telegram (if c then a else b))
        by (destruct c; reflexivity);
      generalize (if c then a else b)
  end.
  intros action.
  destruct (send_outcome action w1)
    as [[Hyes Hrun] | (r & Hr & Hrun)]; rewrite Hrun.
  - unfold update_session. cbn [ctx_session add_chat]. rewrite Hs1, Hs.
    eexists _, _. split; [reflexivity|]. split; [exact Ht1|].
    left. split; reflexivity.
  - destruct r as [[]|e'|]; [contradiction| |];
      (eexists _, _; split; [reflexivity|]; split; [exact Ht1|];
       right; split; [discriminate | congruence]).
Qed.

(** The two [catch] blocks one after the other, as they follow a
    failure of the inner [try]. *)
Lemma both_catch_blocks (e : Error) (w : World) (s : Session) :
  ctx_session w = Some s ->
  exists r w',
    match Wire.on_transfer_error telegram e w with
    | (Throw e', w2) => Wire.on_handler_error telegram e' w2
    | other => other
    end = (r, w') /\
    transfer_calls w' = transfer_calls w /\
    ((r = Ok tt /\ ctx_session w' = Some (transfer_reset s)) \/
     (r <> Ok tt /\ ctx_session w' = Some s)).
Proof.
  intros Hs.
  destruct (on_transfer_error_run e w s Hs)
    as (r2 & w2 & Hrun2 & Ht2 & Hcase2); rewrite Hrun2.
  destruct r2 as [[]|e2|].
  - eexists _, _. split; [reflexivity|]. split; [exact Ht2 | exact Hcase2].
  - destruct Hcase2 as [[Hr _] | [_ Hs2]]; [discriminate Hr|].
    destruct (on_handler_error_run e2 w2 s Hs2)
      as (r3 & w3 & Hrun3 & Ht3 & Hcase3).
    exists r3, w3. split; [exact Hrun3|]. split; [congruence | exact Hcase3].
  - eexists _, _. split; [reflexivity|]. split; [exact Ht2 | exact Hcase2].
Qed.

(** The transfer step of a ready flow state: it does not take the
    [return] of the missing network, and however it ends it has left
    the session and the chat alone and made at most one transfer
    call. *)
Lemma perform_transfer_on_wire (st : TransferState) (r0 a0 : string) (w : World) :
  (negb (is_lit (type st) "WALLET") || present (transfer_network st))%bool
    = true ->
  exists r w1,
    Wire.perform_transfer telegram client st r0 a0 w = (r, w1) /\
    r <> Ok false /\ once w w1.
Proof.
  intros Hready. unfold Wire.perform_transfer.
  destruct (is_lit (type st) "EMAIL") eqn:He.
  - pose proof (once_sendToEmail client r0 a0 w) as Ho. unfold bind.
    destruct (Wire.sendToEmail client r0 a0 w) as [[resp|e|] w1]; cbn in Ho;
      eexists _, _; (split; [reflexivity|]); (split; [discriminate | exact Ho]).
  - destruct (is_lit (type st) "WALLET") eqn:Hw.
    + cbn in Hready. rewrite Hready. cbn [negb].
      pose proof (once_sendToWallet client r0 a0
                    (default "" (transfer_network st)) w) as Ho.
      unfold bind.
      destruct (Wire.sendToWallet client r0 a0
                  (default "" (transfer_network st)) w) as [[resp|e|] w1];
        cbn in Ho;
        eexists _, _; (split; [reflexivity|]); (split; [discriminate | exact Ho]).
    + eexists _, _. split; [reflexivity|]. split; [discriminate|].
      apply quiet_once, quiet_refl.
Qed.

(** The confirmation of a ready flow state. When it returns, the flow
    state is empty; when it throws or does not return, the flow state
    is the one it found. *)
Lemma confirm_on_wire_ready (w : World) (u : UserSession) (s : Session)
  (st : TransferState) :
  session_user w = Some u -> ctx_session w = Some s ->
  transferState s = Some st -> transfer_ready st = true ->
  exists r w',
    Wire.handleTransferConfirm telegram client w = (r, w') /\
    (transfer_calls w' <= transfer_calls w + 1)%nat /\
    ((r = Ok tt /\ ctx_session w' = Some (transfer_reset s)) \/
     (r <> Ok tt /\ ctx_session w' = Some s)).
Proof.
  intros Hu Hs Hst Hready. unfold transfer_ready in Hready.
  apply andb_prop in Hready as [Hyes Hready].
  unfold Wire.handleTransferConfirm. unfold bind at 1.
  rewrite (checkAuth_on_wire w u Hu). cbn [negb].
  unfold bind at 1. unfold read_session.
  cbn [ctx_session after_checkAuth set_api_state].
  rewrite Hs, Hst. rewrite <- negb_andb, Hyes. cbn [negb].
  assert (Hs0 : ctx_session (after_checkAuth u w) = Some s) by exact Hs.
  assert (Ht0 : transfer_calls (after_checkAuth u w) = transfer_calls w)
    by reflexivity.
  revert Hs0 Ht0. generalize (after_checkAuth u w). intros w0 Hs0 Ht0.
  unfold try_catch at 1. unfold try_catch at 1. unfold bind at 1.
  destruct (perform_transfer_on_wire st (default "" (recipient st))
              (default "" (amount st)) w0 Hready)
    as (r1 & w1 & Hrun & Hr1 & Hs1 & Hc1 & Ht1).
  rewrite Hrun.
  assert (Hfail : forall e,
             exists r w',
               match Wire.on_transfer_error telegram e w1 with
               | (Throw e', w2) => Wire.on_handler_error telegram e' w2
               | other => other
               end = (r, w') /\
               (transfer_calls w' <= transfer_calls w + 1)%nat /\
               ((r = Ok tt /\ ctx_session w' = Some (transfer_reset s)) \/
                (r <> Ok tt /\ ctx_session w' = Some s))).
  { intros e.
    destruct (both_catch_blocks e w1 s ltac:(congruence))
      as (r & w' & Hrun' & Ht' & Hcase').
    exists r, w'. split; [exact Hrun'|]. split; [lia | exact Hcase']. }
  destruct r1 as [[|]|e|].
  - unfold bind at 1. unfold Wire.editMessageText.
    destruct (send_outcome (EditMessageText MSG_TRANSFER_OK) w1)
      as [[Hacc Hsend] | (r & Hr & Hsend)]; rewrite Hsend.
    + unfold update_session. cbn [ctx_session add_chat]. rewrite Hs1, Hs0.
      eexists _, _. split; [reflexivity|].
      split; [unfold transfer_calls in *; cbn; lia|].
      left. split; reflexivity.
    + destruct r as [[]|e|]; [contradiction | apply Hfail |].
      eexists _, _. split; [reflexivity|]. split; [lia|].
      right. split; [discriminate | congruence].
  - contradiction.
  - apply Hfail.
  - eexists _, _. split; [reflexivity|]. split; [lia|].
    right. split; [discriminate | congruence].
Qed.

(** The confirmation of a flow state that is not ready makes no
    transfer call. When Telegram accepts the reply with the reason, that
    reply is all that happens. *)
Lemma confirm_on_wire_guard (w : World) (u : UserSession) (s : Session)
  (st : TransferState) :
  session_user w = Some u -> ctx_session w = Some s ->
  transferState s = Some st -> transfer_ready st = false ->
  exists r w',
    Wire.handleTransferConfirm telegram client w = (r, w') /\
    transfer_calls w' = transfer_calls w /\
    (ctx_session w' = Some s \/ ctx_session w' = Some (transfer_reset s)) /\
    (telegram (chat w) (Reply (missing_reason st) NoMarkup) = Accepted ->
     r = Ok tt /\
     w' = add_chat (Reply (missing_reason st) NoMarkup) (after_checkAuth u w)).
Proof.
  intros Hu Hs Hst Hno. unfold transfer_ready in Hno. unfold missing_reason.
  unfold Wire.handleTransferConfirm. unfold bind at 1.
  rewrite (checkAuth_on_wire w u Hu). cbn [negb].
  unfold bind at 1. unfold read_session.
  cbn [ctx_session after_checkAuth set_api_state].
  rewrite Hs, Hst. rewrite <- negb_andb.
  assert (Hs0 : ctx_session (after_checkAuth u w) = Some s) by exact Hs.
  assert (Ht0 : transfer_calls (after_checkAuth u w) = transfer_calls w)
    by reflexivity.
  assert (Hc0 : chat (after_checkAuth u w) = chat w) by reflexivity.
  revert Hs0 Ht0 Hc0. generalize (after_checkAuth u w). intros w0 Hs0 Ht0 Hc0.
  assert (Houter : forall e w1,
             ctx_session w1 = Some s -> transfer_calls w1 = transfer_calls w ->
             exists r w',
               Wire.on_handler_error telegram e w1 = (r, w') /\
               transfer_calls w' = transfer_calls w /\
               (ctx_session w' = Some s \/ ctx_session w' = Some (transfer_reset s))).
  { intros e w1 Hs1 Ht1.
    destruct (on_handler_error_run e w1 s Hs1)
      as (r3 & w3 & Hrun3 & Ht3 & [[_ Hs3] | [_ Hs3]]);
      eexists _, _; (split; [exact Hrun3|]); (split; [congruence|]); auto. }
  destruct (present (recipient st) && present (amount st))%bool eqn:Hf;
    cbn [negb].
  - cbn in Hno. apply orb_false_elim in Hno as [Hw Hn].
    apply negb_false_iff in Hw.
    assert (He : is_lit (type st) "EMAIL" = false).
    { unfold is_lit in *. destruct (type st) as [t|]; [|reflexivity].
      apply String.eqb_eq in Hw. subst t. reflexivity. }
    unfold try_catch at 1. unfold try_catch at 1. unfold bind at 1.
    unfold Wire.perform_transfer. rewrite He, Hw, Hn. cbn [negb].
    unfold bind at 1. unfold Wire.reply.
    destruct (send_outcome (Reply MSG_MISSING_NETWORK NoMarkup) w0)
      as [[Hacc Hsend] | (r & Hr & Hsend)]; rewrite Hsend.
    + eexists _, _. split; [reflexivity|]. split; [exact Ht0|].
      split; [left; exact Hs0|]. intros _. split; reflexivity.
    + assert (Hnot : telegram (chat w) (Reply MSG_MISSING_NETWORK NoMarkup)
                       <> Accepted).
      { rewrite <- Hc0. intros Hacc. unfold Wire.send in Hsend.
        rewrite Hacc in Hsend. injection Hsend as Hr' _. congruence. }
      destruct r as [[]|e|]; [contradiction| |].
      * destruct (both_catch_blocks e w0 s Hs0)
          as (r3 & w3 & Hrun3 & Ht3 & Hcase3).
        exists r3, w3. split; [exact Hrun3|]. split; [congruence|].
        split; [destruct Hcase3 as [[_ H3] | [_ H3]]; auto|].
        intros Hacc. contradiction.
      * eexists _, _. split; [reflexivity|]. split; [exact Ht0|].
        split; [left; exact Hs0|]. intros Hacc. contradiction.
  - unfold try_catch at 1. unfold Wire.reply.
    destruct (send_outcome (Reply MSG_MISSING_FIELDS NoMarkup) w0)
      as [[Hacc Hsend] | (r & Hr & Hsend)]; rewrite Hsend.
    + eexists _, _. split; [reflexivity|]. split; [exact Ht0|].
      split; [left; exact Hs0|]. intros _. split; reflexivity.
    + assert (Hnot : telegram (chat w) (Reply MSG_MISSING_FIELDS NoMarkup)
                       <> Accepted).
      { rewrite <- Hc0. intros Hacc. unfold Wire.send in Hsend.
        rewrite Hacc in Hsend. injection Hsend as Hr' _. congruence. }
      destruct r as [[]|e|]; [contradiction| |].
      * destruct (Houter e w0 Hs0 Ht0) as (r3 & w3 & Hrun3 & Ht3 & Hs3).
        exists r3, w3. split; [exact Hrun3|]. split; [exact Ht3|].
        split; [exact Hs3|]. intros Hacc. contradiction.
      * eexists _, _. split; [reflexivity|]. split; [exact Ht0|].
        split; [left; exact Hs0|]. intros Hacc. contradiction.
Qed.

(** Without a flow state the confirmation only replies. *)
Lemma confirm_on_wire_stateless (w : World) (u : UserSession) (s : Session) :
  session_user w = Some u -> ctx_session w = Some s ->
  transferState s = None ->
  exists r w',
    Wire.handleTransferConfirm telegram client w = (r, w') /\
    transfer_calls w' = transfer_calls w /\ ctx_session w' = Some s.
Proof.
  intros Hu Hs Hst.
  unfold Wire.handleTransferConfirm. unfold bind at 1.
  rewrite (checkAuth_on_wire w u Hu). cbn [negb].
  unfold bind at 1. unfold read_session.
  cbn [ctx_session after_checkAuth set_api_state].
  rewrite Hs, Hst. unfold Wire.reply.
  destruct (send_outcome (Reply MSG_INVALID_SESSION NoMarkup) (after_checkAuth u w))
    as [[Hacc Hsend] | (r & Hr & Hsend)]; rewrite Hsend;
    eexists _, _; (split; [reflexivity|]); split; try reflexivity; exact Hs.
Qed.

(** Without a user the confirmation only replies that a login is
    needed. *)
Lemma confirm_on_wire_anonymous (w : World) :
  session_user w = None ->
  exists r w',
    Wire.handleTransferConfirm telegram client w = (r, w') /\
    calls w' = calls w /\ ctx_session w' = ctx_session w /\
    (telegram (chat w) (Reply MSG_LOGIN_FIRST (Keyboard [["🔑 Login"]])) = Accepted ->
     r = Ok tt /\
     w' = add_chat (Reply MSG_LOGIN_FIRST (Keyboard [["🔑 Login"]])) w).
Proof.
  intros Hu. unfold Wire.handleTransferConfirm. unfold bind at 1.
  unfold Wire.checkAuth, bind, gets. rewrite Hu. unfold Wire.reply.
  unfold Wire.send.
  destruct (telegram (chat w) (Reply MSG_LOGIN_FIRST (Keyboard [["🔑 Login"]])))
    as [|e|].
  - eexists _, _. split; [reflexivity|]. repeat split.
  - eexists _, _. split; [reflexivity|]. split; [reflexivity|].
    split; [reflexivity|]. discriminate.
  - eexists _, _. split; [reflexivity|]. split; [reflexivity|].
    split; [reflexivity|]. discriminate.
Qed.

End ConfirmOnWire.

(** ** The transfer confirmation *)

Lemma harmless_one_transfer {A} (m : M World A) :
  harmless m -> one_transfer_at_most m.
Proof.
  intros Hm w. destruct (Hm w) as (Hd & Hs & Hc & Ht).
  repeat split; try assumption. lia.
Qed.

Lemma one_transfer_bind {A B} (m : M World A) (k : A -> M World B) :
  harmless m -> (forall a, one_transfer_at_most (k a)) ->
  one_transfer_at_most (bind m k).
Proof.
  intros Hm Hk w. unfold bind. destruct (Hm w) as (Hd & Hs & Hc & Ht).
  destruct (m w) as [[a|e|] w']; cbn in *.
  - destruct (Hk a w') as (Hd' & Hs' & Hc' & Ht').
    repeat split; try congruence; lia.
  - repeat split; try assumption; [discriminate | lia].
  - contradiction.
Qed.

Lemma one_transfer_bind_ret {A B} (m : M World A) (b : B) :
  one_transfer_at_most m -> one_transfer_at_most (m ;; ret b).
Proof.
  intros Hm w. unfold bind. destruct (Hm w) as (Hd & Hs & Hc & Ht).
  destruct (m w) as [[a|e|] w']; cbn in *.
  - repeat split; try assumption. discriminate.
  - repeat split; try assumption. discriminate.
  - contradiction.
Qed.

Section ConfirmFacts.

Variable api : Config -> ApiState -> (Response + Error) * ApiState.

Lemma one_transfer_api_call (c : Config) : one_transfer_at_most (api_call api c).
Proof.
  intros w. unfold api_call.
  destruct (api c (api_state w)) as [[r|e] a]; cbn;
    unfold transfer_calls; cbn; destruct (is_transfer c); cbn;
    repeat split; try discriminate; lia.
Qed.

Lemma one_transfer_sendToEmail (email amount : string) :
  one_transfer_at_most (sendToEmail api email amount).
Proof.
  unfold sendToEmail.
  apply one_transfer_bind; [apply harmless_checkRecipientEligibility|].
  intros eligibility.
  apply one_transfer_bind; [apply harmless_prop|]. intros isEligible.
  destruct (negb (truthy isEligible)).
  - apply harmless_one_transfer, harmless_throw.
  - apply one_transfer_api_call.
Qed.

Lemma one_transfer_sendToWallet (address amount network : string) :
  one_transfer_at_most (sendToWallet api address amount network).
Proof. apply one_transfer_api_call. Qed.

(** The transfer step of a ready flow state ends with [true], or throws:
    it does not take the [return] of the missing network. *)
Lemma perform_transfer_ready (st : TransferState) (r a : string) (w : World) :
  (negb (is_lit (type st) "WALLET") || present (transfer_network st))%bool
    = true ->
  exists w1,
    (perform_transfer api st r a w = (Ok true, w1) \/
     exists e, perform_transfer api st r a w = (Throw e, w1)) /\
    ctx_session w1 = ctx_session w /\ chat w1 = chat w /\
    (transfer_calls w1 <= transfer_calls w + 1)%nat.
Proof.
  intros Hready. unfold perform_transfer.
  destruct (is_lit (type st) "EMAIL") eqn:He.
  - destruct (one_transfer_sendToEmail r a w) as (Hd & Hs & Hc & Ht).
    unfold bind.
    destruct (sendToEmail api r a w) as [[resp|e|] w1]; cbn in *.
    + exists w1. repeat split; auto.
    + exists w1. repeat split; eauto.
    + contradiction.
  - destruct (is_lit (type st) "WALLET") eqn:Hw.
    + cbn in Hready. rewrite Hready. cbn [negb].
      destruct (one_transfer_sendToWallet r a (default "" (transfer_network st)) w)
        as (Hd & Hs & Hc & Ht).
      unfold bind.
      destruct (sendToWallet api r a (default "" (transfer_network st)) w)
        as [[resp|e|] w1]; cbn in *.
      * exists w1. repeat split; auto.
      * exists w1. repeat split; eauto.
      * contradiction.
    + exists w. repeat split; auto. lia.
Qed.

Lemma confirm_anonymous (w : World) :
  session_user w = None ->
  handleTransferConfirm api w =
    (Ok tt, add_chat (Reply MSG_LOGIN_FIRST (Keyboard [["🔑 Login"]])) w).
Proof.
  intros H. unfold handleTransferConfirm. unfold bind at 1.
  rewrite (checkAuth_anonymous w H). reflexivity.
Qed.

Lemma confirm_missing_fields (w : World) (u : UserSession) (s : Session)
  (st : TransferState) :
  session_user w = Some u -> ctx_session w = Some s ->
  transferState s = Some st ->
  (present (recipient st) && present (amount st))%bool = false ->
  handleTransferConfirm api w =
    (Ok tt, add_chat (Reply MSG_MISSING_FIELDS NoMarkup) (after_checkAuth u w)).
Proof.
  intros H Hs Hst Hno. unfold handleTransferConfirm. unfold bind at 1.
  rewrite (checkAuth_user w u H). cbn [negb].
  unfold bind at 1. unfold read_session. cbn [ctx_session after_checkAuth set_api_state].
  rewrite Hs, Hst. unfold try_catch at 1.
  rewrite <- negb_andb, Hno. reflexivity.
Qed.

Lemma confirm_missing_network (w : World) (u : UserSession) (s : Session)
  (st : TransferState) :
  session_user w = Some u -> ctx_session w = Some s ->
  transferState s = Some st ->
  (present (recipient st) && present (amount st))%bool = true ->
  is_lit (type st) "WALLET" = true ->
  present (transfer_network st) = false ->
  handleTransferConfirm api w =
    (Ok tt, add_chat (Reply MSG_MISSING_NETWORK NoMarkup) (after_checkAuth u w)).
Proof.
  intros H Hs Hst Hyes Hw Hn. unfold handleTransferConfirm. unfold bind at 1.
  rewrite (checkAuth_user w u H). cbn [negb].
  unfold bind at 1. unfold read_session. cbn [ctx_session after_checkAuth set_api_state].
  rewrite Hs, Hst. unfold try_catch at 1.
  rewrite <- negb_andb, Hyes. cbn [negb].
  unfold try_catch at 1. unfold bind at 1. unfold perform_transfer.
  assert (He : is_lit (type st) "EMAIL" = false).
  { unfold is_lit in *. destruct (type st) as [t|]; [|reflexivity].
    apply String.eqb_eq in Hw. subst t. reflexivity. }
  rewrite He, Hw, Hn. reflexivity.
Qed.

Lemma confirm_resets (w : World) (u : UserSession) (s : Session)
  (st : TransferState) :
  session_user w = Some u -> ctx_session w = Some s ->
  transferState s = Some st -> transfer_ready st = true ->
  exists w',
    handleTransferConfirm api w = (Ok tt, w') /\
    ctx_session w' = Some (transfer_reset s) /\
    (transfer_calls w' <= transfer_calls w + 1)%nat.
Proof.
  intros H Hs Hst Hready. unfold transfer_ready in Hready.
  apply andb_prop in Hready as [Hyes Hready].
  unfold handleTransferConfirm. unfold bind at 1.
  rewrite (checkAuth_user w u H). cbn [negb].
  unfold bind at 1. unfold read_session. cbn [ctx_session after_checkAuth set_api_state].
  rewrite Hs, Hst. unfold try_catch at 1.
  rewrite <- negb_andb, Hyes. cbn [negb].
  unfold try_catch at 1. unfold bind at 1.
  destruct (perform_transfer_ready st (default "" (recipient st))
              (default "" (amount st)) (after_checkAuth u w) Hready)
    as (w1 & [Hrun | [e Hrun]] & Hs1 & Hc1 & Ht1); rewrite Hrun.
  - unfold bind, editMessageText, modify, update_session.
    cbn [ctx_session add_chat]. rewrite Hs1. cbn [ctx_session after_checkAuth set_api_state].
    rewrite Hs. eexists. split; [reflexivity|]. split; [reflexivity|].
    exact Ht1.
  - unfold bind at 1. unfold log at 1, lift_api, console_log, modify.
    unfold bind at 1.
    destruct (negb (String.eqb (error_message e) "") &&
              (includes (error_message e) "not eligible" ||
               includes (error_message e) "Failed to verify recipient"))%bool;
      unfold editMessageText, modify, update_session;
      cbn [ctx_session add_chat set_api_state]; rewrite Hs1;
      cbn [ctx_session after_checkAuth set_api_state]; rewrite Hs;
      (eexists; split; [reflexivity|]; split; [reflexivity|]; exact Ht1).
Qed.

End ConfirmFacts.

(** C3, as stated, fails: the flow state holds a recipient and no amount
    yet (the user taps the confirm button of an older message); the
    handler answers that the amount is missing and leaves the state as
    it is, which is not the empty state. *)
Lemma confirm_without_amount_counterexample :
  transfer_without_amount <> empty_transferState /\
  exists s,
    ctx_session (snd (handleTransferConfirm (api_account "approved")
                        (alice_confirms transfer_without_amount))) = Some s /\
    transferState s = Some transfer_without_amount /\
    transferState s <> Some empty_transferState.
Proof.
  split; [discriminate|]. eexists. split; [vm_compute; reflexivity|].
  split; [reflexivity | discriminate].
Qed.

(** C3, amended. The handler awaits Telegram and the API, and resets
    the flow state after those calls. For a logged-in user whose flow
    state holds a recipient and an amount (and a network when its type
    is ["WALLET"]): whenever the confirmation returns, the flow state
    is empty, whether the send call succeeded or threw; when it throws
    (Telegram rejected every message it tried) or does not return (a
    call of the API or of Telegram never settled), the flow state is
    the one it found; it returns whenever the API settles and Telegram
    accepts. In every case at most one transfer call is made. When a
    field is missing or nobody is logged in, no transfer call is made
    and the handler replies with the reason; if Telegram accepts that
    reply, nothing else happens and the flow state stays as it is. *)
Theorem handleTransferConfirm_resets :
  forall (telegram : list ChatAction -> ChatAction -> Delivery)
         (client : Config -> M ApiState Response) (w : World),
    let out := Wire.handleTransferConfirm telegram client w in
    (forall u s st,
        session_user w = Some u -> ctx_session w = Some s ->
        transferState s = Some st ->
        (transfer_ready st = true ->
         (transfer_calls (snd out) <= transfer_calls w + 1)%nat /\
         (fst out = Ok tt -> ctx_session (snd out) = Some (transfer_reset s)) /\
         (fst out <> Ok tt -> ctx_session (snd out) = Some s) /\
         (forall api : Config -> ApiState -> (Response + Error) * ApiState,
             exists w',
               Wire.handleTransferConfirm accepting (settled api) w = (Ok tt, w') /\
               ctx_session w' = Some (transfer_reset s))) /\
        (transfer_ready st = false ->
         transfer_calls (snd out) = transfer_calls w /\
         (telegram (chat w) (Reply (missing_reason st) NoMarkup) = Accepted ->
          out = (Ok tt, add_chat (Reply (missing_reason st) NoMarkup)
                          (after_checkAuth u w))))) /\
    (session_user w = None ->
     calls (snd out) = calls w /\ ctx_session (snd out) = ctx_session w /\
     (telegram (chat w) (Reply MSG_LOGIN_FIRST (Keyboard [["🔑 Login"]])) = Accepted ->
      out = (Ok tt, add_chat (Reply MSG_LOGIN_FIRST (Keyboard [["🔑 Login"]])) w))).
Proof.
  intros telegram client w out. split.
  - intros u s st Hu Hs Hst. split.
    + intros Hready.
      destruct (confirm_on_wire_ready telegram client w u s st Hu Hs Hst Hready)
        as (r & w' & Hrun & Ht & Hcase).
      unfold out. rewrite Hrun. cbn [fst snd].
      split; [exact Ht|]. split; [|split].
      * intros ->. destruct Hcase as [[_ H] | [H _]]; [exact H | contradiction].
      * intros Hr. destruct Hcase as [[H _] | [_ H]]; [contradiction | exact H].
      * intros api. rewrite handleTransferConfirm_settled.
        destruct (confirm_resets api w u s st Hu Hs Hst Hready)
          as (w1 & Hrun1 & Hs1 & _).
        exists w1. split; assumption.
    + intros Hno.
      destruct (confirm_on_wire_guard telegram client w u s st Hu Hs Hst Hno)
        as (r & w' & Hrun & Ht & _ & Hacc).
      unfold out. rewrite Hrun. cbn [fst snd]. split; [exact Ht|].
      intros Hyes. destruct (Hacc Hyes) as [-> ->]. reflexivity.
  - intros Hu.
    destruct (confirm_on_wire_anonymous telegram client w Hu)
      as (r & w' & Hrun & Hc & Hs & Hacc).
    unfold out. rewrite Hrun. cbn [fst snd].
    split; [exact Hc|]. split; [exact Hs|].
    intros Hyes. destruct (Hacc Hyes) as [-> ->]. reflexivity.
Qed.

Lemma handleTransferConfirm_resets_witness :
  ctx_session (snd (Wire.handleTransferConfirm accepting (settled api_500)
                      (alice_confirms transfer_to_friend))) =
    Some (transfer_reset
            (set_transferState (Some transfer_to_friend) session_of_alice)) /\
  ctx_session (snd (Wire.handleTransferConfirm refusing (settled api_knows_friend)
                      (alice_confirms transfer_to_friend))) =
    Some (set_transferState (Some transfer_to_friend) session_of_alice) /\
  ctx_session (snd (Wire.handleTransferConfirm accepting (request 25 env_401)
                      (alice_confirms transfer_to_friend))) =
    Some (set_transferState (Some transfer_to_friend) session_of_alice) /\
  ctx_session (snd (Wire.handleTransferConfirm silent (settled api_knows_friend)
                      (alice_confirms transfer_to_friend))) =
    Some (set_transferState (Some transfer_to_friend) session_of_alice).
Proof.
  split; [|split; [|split]].
  - apply (proj1 (proj2 (proj1 (proj1 (handleTransferConfirm_resets
             accepting (settled api_500) (alice_confirms transfer_to_friend))
             alice (set_transferState (Some transfer_to_friend) session_of_alice)
             transfer_to_friend eq_refl eq_refl eq_refl) eq_refl))).
    vm_compute. reflexivity.
  - apply (proj1 (proj2 (proj2 (proj1 (proj1 (handleTransferConfirm_resets
             refusing (settled api_knows_friend) (alice_confirms transfer_to_friend))
             alice (set_transferState (Some transfer_to_friend) session_of_alice)
             transfer_to_friend eq_refl eq_refl eq_refl) eq_refl)))).
    vm_compute. discriminate.
  - apply (proj1 (proj2 (proj2 (proj1 (proj1 (handleTransferConfirm_resets
             accepting (request 25 env_401) (alice_confirms transfer_to_friend))
             alice (set_transferState (Some transfer_to_friend) session_of_alice)
             transfer_to_friend eq_refl eq_refl eq_refl) eq_refl)))).
    vm_compute. discriminate.
  - apply (proj1 (proj2 (proj2 (proj1 (proj1 (handleTransferConfirm_resets
             silent (settled api_knows_friend) (alice_confirms transfer_to_friend))
             alice (set_transferState (Some transfer_to_friend) session_of_alice)
             transfer_to_friend eq_refl eq_refl eq_refl) eq_refl)))).
    vm_compute. discriminate.
Defined.

(** ** The history and its pages *)

Lemma talks_only_ret {A} (a : A) : talks_only (ret a).
Proof. intros w. cbn. repeat split. discriminate. Qed.

Lemma talks_only_throw {A} (e : Error) : talks_only (@throw World A e).
Proof. intros w. cbn. repeat split. discriminate. Qed.

Lemma talks_only_bind {A B} (m : M World A) (k : A -> M World B) :
  talks_only m -> (forall a, talks_only (k a)) -> talks_only (bind m k).
Proof.
  intros Hm Hk w. unfold bind. destruct (Hm w) as (Hd & Hs & Hc).
  destruct (m w) as [[a|e|] w']; cbn in *.
  - destruct (Hk a w') as (Hd' & Hs' & Hc'). repeat split; congruence.
  - repeat split; try assumption. discriminate.
  - contradiction.
Qed.

Lemma talks_only_reply (text : string) (markup : Markup) :
  talks_only (reply text markup).
Proof. intros w. cbn. repeat split. discriminate. Qed.

Lemma talks_only_deleteMessage : talks_only deleteMessage.
Proof. intros w. cbn. repeat split. discriminate. Qed.

Lemma talks_only_log (line : string) : talks_only (log line).
Proof. intros w. cbn. repeat split. discriminate. Qed.

Lemma talks_only_prop (v : JSON) (k : string) : talks_only (@prop World v k).
Proof. destruct v; cbn; (apply talks_only_ret || apply talks_only_throw). Qed.

Create HintDb talks_only.

#[local] Hint Resolve talks_only_ret talks_only_throw talks_only_reply
  talks_only_deleteMessage talks_only_log talks_only_prop : talks_only.

Ltac talks_only_step :=
  first
    [ solve [auto with talks_only]
    | apply talks_only_bind; [|intros ?]
    | match goal with
      | |- talks_only (if ?c then _ else _) => destruct c
      | |- talks_only (match ?x with _ => _ end) => destruct x
      end
    | progress cbv zeta ].

Ltac talks_only_auto := repeat talks_only_step.

Lemma talks_only_history_row (index : nat) (transaction : JSON) :
  talks_only (history_row index transaction).
Proof. unfold history_row. talks_only_auto. Qed.

Lemma talks_only_history_rows (transactions : list JSON) :
  forall index, talks_only (history_rows index transactions).
Proof.
  induction transactions as [|t rest IH]; intros index; cbn [history_rows].
  - apply talks_only_ret.
  - apply talks_only_bind; [apply talks_only_history_row|]. intros row.
    apply talks_only_bind; [apply IH|]. intros more. apply talks_only_ret.
Qed.

#[local] Hint Resolve talks_only_history_rows : talks_only.

Section HistoryFacts.

Variable api : Config -> ApiState -> (Response + Error) * ApiState.
Variable history_text : list JSON -> JSON -> Z -> string.
Variable lessThan : Z -> JSON -> bool.

(** What follows the request in [fetchAndDisplayHistory]. *)
Lemma talks_only_display (h : HistoryState) (response : Response) :
  talks_only
    (transactions <- prop (data response) "data" ;;
     let pagination := get (data response) "pagination" in
     deleteMessage ;;
     if (negb (truthy transactions) || length_is_zero transactions)%bool
     then reply "📭 You don't have any transactions yet." NoMarkup
     else
       match transactions with
       | JArr items =>
           buttons <- history_rows 0 items ;;
           reply (history_text items pagination (page h))
             (InlineKeyboard
                (buttons ++ [paginationButtons lessThan (page h) pagination])%list)
       | _ => throw (TypeError "data.forEach is not a function")
       end).
Proof. talks_only_auto. Qed.

(** With a paging state stored, [fetchAndDisplayHistory] makes one
    request, for the stored page, and leaves the session as it is. *)
Lemma fetchAndDisplayHistory_requests (w : World) (s : Session) (h : HistoryState) :
  ctx_session w = Some s -> historyState s = Some h ->
  exists w',
    fetchAndDisplayHistory api history_text lessThan w = (Ok tt, w') /\
    ctx_session w' = ctx_session w /\
    calls w' = transfers_config (page h) (limit h) :: calls w.
Proof.
  intros Hs Hh. unfold fetchAndDisplayHistory. unfold bind at 1.
  unfold ensure_historyState. unfold bind at 1. unfold read_session.
  rewrite Hs, Hh. cbn [ret].
  unfold try_catch. unfold bind at 1. unfold reply at 1, modify.
  unfold bind at 1. unfold getTransfers, api_get.
  fold (transfers_config (page h) (limit h)).
  unfold api_call. cbn [api_state add_chat].
  destruct (api (transfers_config (page h) (limit h)) (api_state w))
    as [[response|e] a].
  - match goal with
    | |- context [bind (prop (data response) "data") ?k ?w0] =>
        destruct (talks_only_display h response w0) as (Hd & Hs' & Hc');
        destruct (bind (prop (data response) "data") k w0) as [[[]|e|] w1]
    end; cbn in *.
    + exists w1. repeat split; congruence.
    + eexists. split; [reflexivity|]. cbn. split; congruence.
    + contradiction.
  - eexists. split; [reflexivity|]. cbn. split; [congruence | reflexivity].
Qed.

(** One turn of the pagination, in terms of the page that results. *)
Lemma handleHistoryPagination_turn (action : string) (w : World)
  (u : UserSession) (s : Session) :
  session_user w = Some u -> ctx_session w = Some s ->
  let h := paging_of s in
  let h' := if (String.eqb action "prev" && (1 <? page h))%bool
            then with_page (page h - 1) h
            else if String.eqb action "next" then with_page (page h + 1) h
            else h in
  exists w',
    handleHistoryPagination api history_text lessThan action w = (Ok tt, w') /\
    ctx_session w' = Some (set_historyState (Some h') s) /\
    calls w' = transfers_config (page h') (limit h') :: calls w.
Proof.
  intros Hu Hs h h'. unfold handleHistoryPagination. unfold bind at 1.
  rewrite (checkAuth_user w u Hu). cbn [negb].
  assert (Hens : exists w1,
             ensure_historyState (after_checkAuth u w) = (Ok h, w1) /\
             ctx_session w1 = Some (set_historyState (Some h) s) /\
             calls w1 = calls w).
  { unfold ensure_historyState, bind, read_session.
    cbn [ctx_session after_checkAuth set_api_state]. rewrite Hs.
    unfold h, paging_of. destruct (historyState s) as [h0|] eqn:Hh; cbn [default ret].
    - eexists. split; [reflexivity|]. cbn. rewrite Hs. split; [|reflexivity].
      f_equal. destruct s; cbn in *. rewrite Hh. reflexivity.
    - unfold update_session. cbn. rewrite ?Hs.
      eexists. split; [reflexivity|]. cbn. split; reflexivity. }
  destruct Hens as (w1 & Hens & Hs1 & Hc1).
  unfold bind at 1. rewrite Hens. unfold bind at 1.
  assert (Hupd : exists w2,
             (if (String.eqb action "prev" && (1 <? page h))%bool
              then update_session
                     (set_historyState
                        (Some {| page := page h - 1; limit := limit h |}))
              else if String.eqb action "next"
                   then update_session
                          (set_historyState
                             (Some {| page := page h + 1; limit := limit h |}))
                   else ret tt) w1 = (Ok tt, w2) /\
             ctx_session w2 = Some (set_historyState (Some h') s) /\
             calls w2 = calls w).
  { unfold h'.
    destruct (String.eqb action "prev" && (1 <? page h))%bool;
      [|destruct (String.eqb action "next")];
      unfold update_session, ret; rewrite ?Hs1;
      (eexists; split; [reflexivity|]; cbn; split; assumption || reflexivity). }
  destruct Hupd as (w2 & Hupd & Hs2 & Hc2). rewrite Hupd.
  destruct (fetchAndDisplayHistory_requests w2 (set_historyState (Some h') s) h'
              Hs2 eq_refl) as (w' & Hrun & Hs' & Hc').
  exists w'. split; [exact Hrun|]. split; congruence.
Qed.

(** An action brings the session to the page it asks for and fetches
    that page. *)
Lemma handleHistoryPagination_fetches (action : string) (w : World)
  (u : UserSession) (s : Session) :
  session_user w = Some u -> ctx_session w = Some s ->
  handleHistoryPagination api history_text lessThan action w =
  fetchAndDisplayHistory api history_text lessThan
    (turned_to (page_after action (paging_of s)) u s w).
Proof.
  intros Hu Hs. unfold handleHistoryPagination. unfold bind at 1.
  rewrite (checkAuth_user w u Hu). cbn [negb].
  unfold bind at 1. unfold ensure_historyState, bind, read_session.
  cbn [ctx_session after_checkAuth set_api_state]. rewrite Hs.
  unfold page_after, paging_of, turned_to, after_checkAuth, with_page.
  destruct (historyState s) as [h0|] eqn:Hh.
  - change (default first_page (Some h0)) with h0. cbn [ret].
    destruct (String.eqb action "prev" && (1 <? page h0))%bool;
      [|destruct (String.eqb action "next")];
      unfold update_session, ret; cbn [ctx_session set_api_state];
      rewrite ?Hs; try reflexivity.
    f_equal. unfold set_ctx_session, set_api_state. cbn. rewrite Hs.
    do 3 f_equal. destruct s; cbn in *. rewrite Hh. reflexivity.
  - change (default first_page None) with first_page.
    unfold update_session, ret. cbn [ctx_session set_api_state]. rewrite Hs.
    cbv beta iota.
    change (1 <? page first_page) with false. rewrite !andb_false_r.
    cbn [ctx_session set_ctx_session].
    destruct (String.eqb action "next"); reflexivity.
Qed.

(** What the chat receives when the page arrives with transactions. *)
Lemma fetchAndDisplayHistory_renders (w : World) (s : Session) (h : HistoryState)
  (response : Response) (a1 : ApiState) (items : list JSON)
  (buttons : list (list (string * string))) :
  ctx_session w = Some s -> historyState s = Some h ->
  api (transfers_config (page h) (limit h)) (api_state w) = (inl response, a1) ->
  get (data response) "data" = JArr items -> items <> [] ->
  (forall w0, history_rows 0 items w0 = (Ok buttons, w0)) ->
  chat (snd (fetchAndDisplayHistory api history_text lessThan w)) =
    Reply (history_text items (get (data response) "pagination") (page h))
      (InlineKeyboard
         (buttons ++
          [paginationButtons lessThan (page h) (get (data response) "pagination")]))
    :: DeleteMessage :: Reply MSG_FETCHING NoMarkup :: chat w.
Proof.
  intros Hs Hh Hapi Hdata Hitems Hrows.
  unfold fetchAndDisplayHistory. unfold bind at 1.
  unfold ensure_historyState. unfold bind at 1. unfold read_session.
  rewrite Hs, Hh. cbn [ret].
  unfold try_catch. unfold bind at 1. unfold reply at 1, modify.
  unfold bind at 1. unfold getTransfers, api_get.
  fold (transfers_config (page h) (limit h)).
  unfold api_call. cbn [api_state add_chat]. rewrite Hapi.
  unfold bind at 1. unfold prop.
  destruct (data response) as [| | | | | |fields] eqn:Hd; try discriminate Hdata.
  cbn [ret]. rewrite Hdata. unfold bind at 1. unfold deleteMessage, modify.
  cbn [truthy negb orb length_is_zero].
  destruct items as [|item rest]; [contradiction|].
  cbn [length Nat.eqb]. unfold bind. rewrite Hrows. reflexivity.
Qed.

End HistoryFacts.


Lemma Next_button_offered (lessThan : Z -> JSON -> bool) (p : Z)
  (pagination : JSON) :
  In NEXT_BUTTON (paginationButtons lessThan p pagination) <->
  (truthy pagination && page_before_last lessThan p pagination)%bool = true.
Proof.
  unfold paginationButtons, NEXT_BUTTON.
  destruct (1 <? p);
    destruct (truthy pagination && page_before_last lessThan p pagination)%bool;
    cbn; split; intros H; try reflexivity; try discriminate; auto.
  all: repeat (destruct H as [H|H]; try discriminate H); try contradiction.
Qed.

(** With a number as [totalPages], the test is the comparison of the two
    numbers. *)
Lemma page_before_last_number (lessThan : Z -> JSON -> bool) (p n : Z)
  (pagination : JSON) :
  get pagination "totalPages" = JNum n ->
  (truthy pagination && page_before_last lessThan p pagination)%bool = (p <? n).
Proof.
  intros H. unfold page_before_last. rewrite H.
  destruct pagination; try discriminate H. reflexivity.
Qed.



(** ** The e-mail format check reads the regular expression *)

Lemma append_cons (c : ascii) (a b : string) :
  String c a +:+ b = String c (a +:+ b).
Proof. reflexivity. Qed.

Lemma append_nil (b : string) : "" +:+ b = b.
Proof. reflexivity. Qed.

Lemma AT_plain (u : N) : plain u = true -> (u =? AT)%N = false.
Proof.
  unfold plain. intros H. apply andb_prop in H as [_ H].
  apply negb_true_iff in H. exact H.
Qed.

Lemma split_at_plain (a r : list N) :
  forallb plain a = true -> split_at (a ++ AT :: r) = Some (a, r).
Proof.
  induction a as [|u a IH]; intros H.
  - reflexivity.
  - cbn [forallb] in H. apply andb_prop in H as [Hu Ha].
    cbn [app split_at]. rewrite (AT_plain u Hu), (IH Ha). reflexivity.
Qed.

Lemma split_at_app (l a r : list N) :
  split_at l = Some (a, r) -> l = (a ++ AT :: r)%list.
Proof.
  revert a r. induction l as [|u l IH]; cbn [split_at]; intros a r H;
    [discriminate|].
  destruct (N.eqb_spec u AT) as [->|Hne].
  - injection H as <- <-. reflexivity.
  - destruct (split_at l) as [[a' r']|]; [|discriminate].
    injection H as <- <-. cbn [app]. f_equal. apply IH. reflexivity.
Qed.

Lemma dot_inside_app (x y : list N) :
  y <> [] -> dot_inside (x ++ DOT :: y) = true.
Proof.
  intros Hy. induction x as [|u x IH].
  - destruct y; [contradiction | reflexivity].
  - cbn [app dot_inside].
    destruct (x ++ DOT :: y)%list eqn:E.
    + destruct x; discriminate E.
    + rewrite IH. apply orb_true_r.
Qed.

Lemma dot_inside_split (b : list N) :
  dot_inside b = true -> exists x y, b = (x ++ DOT :: y)%list /\ y <> [].
Proof.
  induction b as [|u b IH]; cbn [dot_inside]; [discriminate|].
  destruct b as [|d b']; [discriminate|].
  intros H. apply orb_prop in H as [H | H].
  - apply N.eqb_eq in H. subst u. exists [], (d :: b').
    split; [reflexivity | discriminate].
  - destruct (IH H) as (x & y & Hb & Hy).
    exists (u :: x), y. split; [|exact Hy].
    cbn [app]. rewrite Hb. reflexivity.
Qed.

(** The matcher accepts exactly the code units of the shape [a@b.c]
    with [a], [b], [c] non-empty runs of code units that are neither
    white space nor [@]. *)
Lemma emailRegex_units_shape (l : list N) :
  emailRegex_units l = true <->
  exists a b c : list N,
    l = (a ++ AT :: b ++ DOT :: c)%list /\
    a <> [] /\ b <> [] /\ c <> [] /\
    forallb plain a = true /\ forallb plain b = true /\
    forallb plain c = true.
Proof.
  unfold emailRegex_units. split.
  - destruct (split_at l) as [[a r]|] eqn:Hsplit; [|discriminate].
    destruct a as [|a0 a]; [discriminate|].
    destruct r as [|b0 b]; [discriminate|].
    intros H. apply andb_prop in H as [H Hdot]. apply andb_prop in H as [Ha Hr].
    destruct (dot_inside_split b Hdot) as (x & y & Hb & Hy). subst b.
    exists (a0 :: a), (b0 :: x), y.
    change (b0 :: x ++ DOT :: y)%list with ((b0 :: x) ++ DOT :: y)%list in Hr.
    rewrite forallb_app in Hr. apply andb_prop in Hr as [Hx Hy'].
    cbn [forallb] in Hy'. apply andb_prop in Hy' as [_ Hy'].
    repeat split; try discriminate; try assumption.
    apply (split_at_app _ _ _ Hsplit).
  - intros (a & b & c & -> & Ha & Hb & Hc & Hpa & Hpb & Hpc).
    rewrite (split_at_plain a (b ++ DOT :: c) Hpa).
    destruct a as [|a0 a]; [contradiction|].
    destruct b as [|b0 b]; [contradiction|].
    cbn [app]. rewrite Hpa. cbn [andb].
    rewrite (dot_inside_app b c Hc), andb_true_r.
    change (b0 :: b ++ DOT :: c)%list with ((b0 :: b) ++ DOT :: c)%list.
    rewrite forallb_app, Hpb. cbn [andb forallb].
    rewrite Hpc. reflexivity.
Qed.

Lemma emailRegex_test_shape (email : string) :
  emailRegex_test email = true <-> email_shape email.
Proof. apply emailRegex_units_shape. Qed.

(** ** The login flow: the reply to the e-mail prompt *)

Section LoginFacts.

Variable api : Config -> ApiState -> (Response + Error) * ApiState.

Lemma handleEmailInput_invalid (email : string) (w : World) (s : Session)
  (a : AuthState) :
  ctx_session w = Some s -> authState s = Some a ->
  emailRegex_test email = false ->
  handleEmailInput api email w =
    (Ok tt, add_chat (Reply MSG_INVALID_EMAIL NoMarkup) w).
Proof.
  intros Hs Ha Hno. unfold handleEmailInput.
  unfold bind at 1. unfold ensure_session, modify. rewrite Hs.
  unfold bind at 1. unfold read_session. rewrite Hs, Ha.
  unfold bind at 1. cbn [ret]. rewrite Hno. reflexivity.
Qed.

Lemma handleEmailInput_otp_failed (email : string) (w : World) (s : Session)
  (a : AuthState) (e : Error) (a1 : ApiState) :
  ctx_session w = Some s -> authState s = Some a ->
  emailRegex_test email = true ->
  api (otp_config email) (before_otp_request (api_state w)) = (inr e, a1) ->
  exists w',
    handleEmailInput api email w = (Ok tt, w') /\
    ctx_session w' = ctx_session w /\
    head (chat w') = Some (Reply MSG_OTP_FAILED NoMarkup).
Proof.
  intros Hs Ha Hyes Hcall. unfold handleEmailInput.
  unfold bind at 1. unfold ensure_session, modify. rewrite Hs.
  unfold bind at 1. unfold read_session. rewrite Hs, Ha.
  unfold bind at 1. cbn [ret]. rewrite Hyes. cbn [negb].
  unfold try_catch. unfold bind at 1. unfold requestEmailOTP.
  unfold bind at 1. unfold log at 1, lift_api, console_log, modify.
  unfold bind at 1. unfold api_post. fold (otp_config email).
  unfold api_call. cbn [api_state set_api_state].
  fold (before_otp_request (api_state w)). rewrite Hcall.
  eexists. split; [reflexivity|]. cbn. split; [assumption | reflexivity].
Qed.

Lemma handleEmailInput_otp_requested (email : string) (w : World) (s : Session)
  (a : AuthState) (r : Response) (a1 : ApiState) :
  ctx_session w = Some s -> authState s = Some a ->
  emailRegex_test email = true ->
  api (otp_config email) (before_otp_request (api_state w)) = (inl r, a1) ->
  data r <> JNull -> data r <> JUndefined ->
  exists w',
    handleEmailInput api email w = (Ok tt, w') /\
    ctx_session w' =
      Some (set_authState
              (Some {| auth_email := Some email; awaitingOTP := true;
                       sid := get (data r) "sid" |}) s) /\
    head (chat w') = Some (Reply MSG_OTP_SENT (ForceReply "Enter OTP")).
Proof.
  intros Hs Ha Hyes Hcall Hn Hu.
  destruct w as [aw sess ch cl]. cbn [ctx_session api_state] in Hs, Hcall.
  subst sess. destruct s as [us au ts hs wa ds]. cbn [authState] in Ha. subst au.
  unfold handleEmailInput.
  unfold bind at 1. unfold ensure_session, modify. cbn [ctx_session].
  unfold bind at 1. unfold read_session. cbn [ctx_session authState].
  unfold bind at 1. cbn [ret]. rewrite Hyes. cbn [negb].
  unfold try_catch. unfold bind at 1. unfold requestEmailOTP.
  unfold bind at 1. unfold log at 1, lift_api, console_log, modify.
  unfold bind at 1. unfold api_post. fold (otp_config email).
  unfold api_call. cbn [api_state set_api_state].
  fold (before_otp_request aw). rewrite Hcall.
  unfold bind at 1. unfold log at 1, lift_api, console_log, modify.
  cbn [api_state set_api_state add_call ret].
  unfold update_authState, update_session, read_session, bind.
  cbn [ctx_session set_ctx_session set_api_state add_call authState set_authState].
  destruct (data r) eqn:Hd; try contradiction;
    cbn [prop ret get ctx_session set_ctx_session set_api_state add_call
         authState set_authState auth_email awaitingOTP sid];
    (eexists; split; [reflexivity|]; cbn; split; reflexivity).
Qed.

End LoginFacts.

(** C9, as stated, fails: the text is a well-formed address, the OTP
    request is answered 500, and the flow still awaits the address:
    [awaitingOTP] stays false and no [sid] is stored. *)
Lemma valid_email_otp_failure_counterexample :
  emailRegex_test "user@example.com" = true /\
  exists (s : Session) (a : AuthState),
    ctx_session (snd (handleEmailInput api_500 "user@example.com"
                        (world_of fresh_client (Some login_started)))) = Some s /\
    authState s = Some a /\
    awaitingOTP a <> true /\ sid a = JUndefined.
Proof.
  split; [vm_compute; reflexivity|]. eexists _, _.
  split; [vm_compute; reflexivity|].
  split; [reflexivity|]. split; [discriminate | reflexivity].
Qed.

(** C9, amended. A reply to the e-mail prompt while the flow awaits the
    address is handed to [handleEmailInput]. If the text does not match
    the format check, the flow state is unchanged and the user is asked
    again. If it matches and the OTP request returns a body, the flow
    awaits the OTP ([awaitingOTP] is true) with the e-mail and the [sid]
    of that body stored. If it matches and the OTP request fails, the
    flow state is unchanged and the user is told that the OTP was not
    sent. *)
Theorem login_email_reply :
  forall (api : Config -> ApiState -> (Response + Error) * ApiState)
         (text : string) (otherwise : M World unit)
         (w : World) (s : Session) (a : AuthState),
    ctx_session w = Some s -> authState s = Some a -> awaitingOTP a = false ->
    on_text api MSG_ENTER_EMAIL text otherwise w = handleEmailInput api text w /\
    (emailRegex_test text = false ->
     handleEmailInput api text w =
       (Ok tt, add_chat (Reply MSG_INVALID_EMAIL NoMarkup) w)) /\
    (emailRegex_test text = true ->
     forall r a1,
       api (otp_config text) (before_otp_request (api_state w)) = (inl r, a1) ->
       data r <> JNull -> data r <> JUndefined ->
       exists w',
         handleEmailInput api text w = (Ok tt, w') /\
         ctx_session w' =
           Some (set_authState
                   (Some {| auth_email := Some text; awaitingOTP := true;
                            sid := get (data r) "sid" |}) s) /\
         head (chat w') = Some (Reply MSG_OTP_SENT (ForceReply "Enter OTP"))) /\
    (emailRegex_test text = true ->
     forall e a1,
       api (otp_config text) (before_otp_request (api_state w)) = (inr e, a1) ->
       exists w',
         handleEmailInput api text w = (Ok tt, w') /\
         ctx_session w' = ctx_session w /\
         head (chat w') = Some (Reply MSG_OTP_FAILED NoMarkup)).
Proof.
  intros api text otherwise w s a Hs Ha Hw. repeat apply conj.
  - unfold on_text, bind, gets, awaiting_email. rewrite Hs, Ha, Hw. reflexivity.
  - intros Hno. exact (handleEmailInput_invalid api text w s a Hs Ha Hno).
  - intros Hyes r a1 Hcall Hn Hu.
    exact (handleEmailInput_otp_requested api text w s a r a1 Hs Ha Hyes Hcall Hn Hu).
  - intros Hyes e a1 Hcall.
    exact (handleEmailInput_otp_failed api text w s a e a1 Hs Ha Hyes Hcall).
Qed.

Lemma login_email_reply_witness :
  exists w',
    handleEmailInput api_otp "user@example.com"
      (world_of fresh_client (Some login_started)) = (Ok tt, w') /\
    ctx_session w' =
      Some (set_authState
              (Some {| auth_email := Some "user@example.com"; awaitingOTP := true;
                       sid := JStr "sid-1" |}) login_started) /\
    head (chat w') = Some (Reply MSG_OTP_SENT (ForceReply "Enter OTP")).
Proof.
  apply (proj1 (proj2 (proj2
           (login_email_reply api_otp "user@example.com" (ret tt)
              (world_of fresh_client (Some login_started)) login_started
              {| auth_email := None; awaitingOTP := false; sid := JUndefined |}
              eq_refl eq_refl eq_refl)))
           eq_refl
           {| status := 200;
              data := JObj [("email", JStr "user@example.com");
                            ("sid", JStr "sid-1")] |}
           (before_otp_request fresh_client)).
  - reflexivity.
  - discriminate.
  - discriminate.
Defined.

(** ** The notification bridge *)

Section BridgeFacts.

Variable apiBaseUrl : string.
Variable provider_accepts : list Pusher -> bool.

(** With a client registered for the key, arming only prints a line. *)
Lemma initializeUserPusher_registered (chatId : Z) (token org : string)
  (w : Bridge) (p : nat) :
  activePusherInstances w !! instanceKey chatId org = Some p ->
  initializeUserPusher apiBaseUrl provider_accepts chatId token org w =
    (Ok tt,
     set_bridge_api
       (add_console "Pusher already initialized for user " (bridge_api w)) w).
Proof.
  intros H. unfold initializeUserPusher, bind, gets. rewrite H. reflexivity.
Qed.

(** Without one, and with a provider that accepts, arming creates one
    client and registers it. *)
Lemma initializeUserPusher_fresh (chatId : Z) (token org : string) (w : Bridge) :
  activePusherInstances w !! instanceKey chatId org = None ->
  provider_accepts (pushers w) = true ->
  exists w1,
    initializeUserPusher apiBaseUrl provider_accepts chatId token org w
      = (Ok tt, w1) /\
    pushers w1 = (pushers w ++ [subscribed_Pusher apiBaseUrl token org])%list /\
    activePusherInstances w1 =
      <[instanceKey chatId org := length (pushers w)]> (activePusherInstances w).
Proof.
  intros H Hacc. unfold initializeUserPusher, bind, gets. rewrite H.
  unfold try_catch, bind, bridge_log, bridge_lift, console_log, modify.
  cbn [bridge_api set_bridge_api].
  destruct (setAuthToken_run (JStr token) None
              (add_console "Initializing Pusher for user " (bridge_api w)))
    as (a & Hrun & _).
  rewrite Hrun. unfold new_subscribed_Pusher. cbn [pushers set_bridge_api].
  rewrite Hacc. eexists. split; [reflexivity|]. split; reflexivity.
Qed.

Lemma cleanupUserPusher_registered (chatId : Z) (org : string) (w : Bridge)
  (p : nat) :
  activePusherInstances w !! instanceKey chatId org = Some p ->
  exists w3,
    cleanupUserPusher chatId org w = (Ok tt, w3) /\
    activePusherInstances w3 = delete (instanceKey chatId org) (activePusherInstances w) /\
    pushers w3 = alter disconnect p (pushers w).
Proof.
  intros H. unfold cleanupUserPusher, bind, gets. rewrite H.
  eexists. split; [reflexivity|]. split; reflexivity.
Qed.

End BridgeFacts.



(* ================================================================== *)
(** * Part III: further properties of the code *)
(* ================================================================== *)

(** ** The token store and the client *)

Lemma isTokenExpired_after_setAuthToken (tok : JSON) (e : Z) (w : ApiState) :
  e <> 0 -> now w + e * 1000 <> 0 ->
  isTokenExpired (snd (setAuthToken tok (Some e) w)) = (e <? 300).
Proof.
  intros He Hx.
  destruct (setAuthToken_run tok (Some e) w) as (w' & Hrun & _ & _ & Hexp & Hnow & _).
  rewrite Hrun. cbn [snd]. unfold isTokenExpired. rewrite Hexp, Hnow.
  assert (Hn : num_truthy (Some e) = true).
  { unfold num_truthy. destruct (Z.eqb_spec e 0); [contradiction | reflexivity]. }
  rewrite Hn. change (default 0 (Some e)) with e.
  destruct (Z.eqb_spec (now w + e * 1000) 0) as [H0|_]; [contradiction|].
  unfold BUFFER_MS. rewrite Z.gtb_ltb.
  destruct (Z.ltb_spec e 300); [apply Z.ltb_lt | apply Z.ltb_ge]; lia.
Qed.

(** X1. A token stored with a time to live below five minutes is
    expired as soon as it is stored, and one stored with five minutes
    or more is not. With such a short-lived token stored, no request
    through the client ends and none is sent. *)
Theorem short_lived_token_is_born_expired :
  forall (tok : JSON) (e : Z) (w : ApiState),
    e <> 0 -> now w + e * 1000 <> 0 ->
    isTokenExpired (snd (setAuthToken tok (Some e) w)) = (e <? 300) /\
    (truthy tok = true -> e < 300 ->
     forall (fuel : nat) (env : Env) (config : Config),
       fst (request fuel env config (snd (setAuthToken tok (Some e) w))) = Diverge /\
       sent (snd (request fuel env config (snd (setAuthToken tok (Some e) w))))
         = sent w).
Proof.
  intros tok e w He Hx. split.
  - apply isTokenExpired_after_setAuthToken; assumption.
  - intros Ht Hlt fuel env config.
    assert (Hexp : isTokenExpired (snd (setAuthToken tok (Some e) w)) = true).
    { rewrite isTokenExpired_after_setAuthToken by assumption.
      apply Z.ltb_lt. exact Hlt. }
    destruct (setAuthToken_run tok (Some e) w)
      as (w' & Hrun & Htok & _ & _ & _ & Hsent & _).
    rewrite Hrun in *. cbn [snd] in *.
    destruct (request_expired_diverges env fuel config w')
      as (w'' & Hreq & Hs & _).
    + rewrite Htok. exact Ht.
    + exact Hexp.
    + rewrite Hreq. cbn. split; [reflexivity | congruence].
Qed.

Lemma short_lived_token_is_born_expired_witness :
  isTokenExpired (snd (setAuthToken (JStr "T") (Some 120) fresh_client))
    = (120 <? 300) /\
  fst (request 5%nat env_ok get_wallets
         (snd (setAuthToken (JStr "T") (Some 120) fresh_client))) = Diverge.
Proof.
  split.
  - apply (proj1 (short_lived_token_is_born_expired (JStr "T") 120 fresh_client
                    ltac:(discriminate) ltac:(discriminate))).
  - apply (proj1 (proj2 (short_lived_token_is_born_expired (JStr "T") 120
                           fresh_client ltac:(discriminate) ltac:(discriminate))
                    eq_refl eq_refl 5%nat env_ok get_wallets)).
Defined.

Lemma retry_of_attach (w : ApiState) (config : Config) :
  _retry (attach w config) = _retry config.
Proof.
  unfold attach. destruct (truthy (authToken w)); [reflexivity|].
  destruct (headers_Authorization config); reflexivity.
Qed.

(** Without an expired token, the interceptor of requests only attaches
    the header. *)
Lemma request_interceptor_attaches
  (refresh : M ApiState (option TokenInfo)) (config : Config) (w : ApiState) :
  (truthy (authToken w) && isTokenExpired w)%bool = false ->
  (merged <- mergeConfig config ;; request_interceptor refresh merged) w =
    (Ok (attach w config), w).
Proof.
  intros H. unfold attach, mergeConfig, request_interceptor, bind, gets.
  destruct (truthy (authToken w)) eqn:Ht; cbn in H.
  - destruct (headers_Authorization config); cbn; rewrite Ht, H; reflexivity.
  - destruct (headers_Authorization config); cbn; rewrite Ht; reflexivity.
Qed.

(** The client, when no refresh is called for, is the adapter applied
    to the request with the header attached. *)
Lemma request_is_dispatch (n : nat) (env : Env) (config : Config) (w : ApiState) :
  (truthy (authToken w) && isTokenExpired w)%bool = false ->
  calls_for_refresh (fst (network env (sent w) (attach w config))) config = false ->
  request (S n) env config w = dispatchRequest env (attach w config) w.
Proof.
  intros Hfresh Hcalm. cbn [request].
  pose proof (request_interceptor_attaches
                (refreshToken env (request n env)) config w Hfresh) as Hi.
  unfold bind in Hi |- *. unfold try_catch.
  destruct (mergeConfig config w) as [[merged|e|] w0] eqn:Hm.
  - rewrite Hi.
    unfold dispatchRequest.
    destruct (network env (sent w) (attach w config)) as [[r|message] dt] eqn:Hn;
      cbn [fst] in Hcalm; cbn.
    + destruct ((200 <=? status r) && (status r <? 300))%bool; [reflexivity|].
      unfold response_interceptor. unfold calls_for_refresh in Hcalm.
      rewrite retry_of_attach, Hcalm. reflexivity.
    + reflexivity.
  - unfold mergeConfig, bind, gets in Hm.
    destruct (headers_Authorization config); discriminate Hm.
  - unfold mergeConfig, bind, gets in Hm.
    destruct (headers_Authorization config); discriminate Hm.
Qed.

(** X2. While the stored token is not expired, a request whose answer
    is not a first 401 goes through the client exactly as through the
    adapter: it is sent once, with the stored token as its
    [Authorization] header whatever header the caller gave it, a
    failure is rejected as it is, and the token store is not touched. *)
Theorem request_without_refresh :
  forall (n : nat) (env : Env) (config : Config) (w : ApiState),
    (truthy (authToken w) && isTokenExpired w)%bool = false ->
    calls_for_refresh (fst (network env (sent w) (attach w config))) config
      = false ->
    request (S n) env config w = dispatchRequest env (attach w config) w /\
    sent (snd (request (S n) env config w)) = attach w config :: sent w /\
    (truthy (authToken w) = true ->
     headers_Authorization (attach w config) = Some (Bearer (authToken w))) /\
    authToken (snd (request (S n) env config w)) = authToken w /\
    tokenExpiry (snd (request (S n) env config w)) = tokenExpiry w /\
    defaults_Authorization (snd (request (S n) env config w))
      = defaults_Authorization w.
Proof.
  intros n env config w Hfresh Hcalm.
  rewrite (request_is_dispatch n env config w Hfresh Hcalm).
  split; [reflexivity|].
  assert (Hd : forall c,
             sent (snd (dispatchRequest env c w)) = c :: sent w /\
             authToken (snd (dispatchRequest env c w)) = authToken w /\
             tokenExpiry (snd (dispatchRequest env c w)) = tokenExpiry w /\
             defaults_Authorization (snd (dispatchRequest env c w))
               = defaults_Authorization w).
  { intros c. unfold dispatchRequest.
    destruct (network env (sent w) c) as [[r|message] dt]; cbn.
    - destruct ((200 <=? status r) && (status r <? 300))%bool; cbn;
        repeat split.
    - repeat split. }
  destruct (Hd (attach w config)) as (Hs & Ha & He & Hdf).
  repeat split; try assumption.
  intros Ht. unfold attach. rewrite Ht. reflexivity.
Qed.

Lemma request_without_refresh_witness :
  request 1 env_refresh_fails
    (request_config POST "/auth/refresh-token" JUndefined)
    (client_with_token 1000 10000000) =
  dispatchRequest env_refresh_fails
    (attach (client_with_token 1000 10000000)
       (request_config POST "/auth/refresh-token" JUndefined))
    (client_with_token 1000 10000000).
Proof.
  apply (proj1 (request_without_refresh 0 env_refresh_fails
                  (request_config POST "/auth/refresh-token" JUndefined)
                  (client_with_token 1000 10000000) eq_refl eq_refl)).
Defined.

(** X3. [clearAuthToken] undoes [setAuthToken] for the client: the
    token, its expiry and the default header are gone, the token is not
    seen as expired, and a request that follows is sent as its caller
    wrote it. The timer [setAuthToken] scheduled stays scheduled. *)
Theorem clearAuthToken_undoes_setAuthToken :
  forall (tok : JSON) (ttl : option Z) (w : ApiState),
    let w' := snd (clearAuthToken (snd (setAuthToken tok ttl w))) in
    fst (clearAuthToken (snd (setAuthToken tok ttl w))) = Ok tt /\
    authToken w' = JNull /\ tokenExpiry w' = None /\
    defaults_Authorization w' = None /\
    isTokenExpired w' = false /\
    timers w' = timers (snd (setAuthToken tok ttl w)) /\
    (forall (n : nat) (env : Env) (config : Config),
        calls_for_refresh (fst (network env (sent w) config)) config = false ->
        request (S n) env config w' = dispatchRequest env config w').
Proof.
  intros tok ttl w w'.
  assert (Hs : sent w' = sent w).
  { unfold w'. destruct ttl as [e|]; cbn; [destruct (e =? 0)|]; reflexivity. }
  repeat split.
  intros n env config Hcalm.
  assert (Hat : attach w' config = config).
  { unfold attach. cbn. destruct config as [m u b [h|] r]; reflexivity. }
  rewrite <- Hat at 2. apply request_is_dispatch.
  - reflexivity.
  - rewrite Hat, Hs. exact Hcalm.
Qed.

Lemma clearAuthToken_undoes_setAuthToken_witness :
  request 1 env_ok get_wallets
    (snd (clearAuthToken (snd (setAuthToken (JStr "T") (Some 3600) fresh_client))))
  = dispatchRequest env_ok get_wallets
      (snd (clearAuthToken (snd (setAuthToken (JStr "T") (Some 3600) fresh_client)))).
Proof.
  apply (proj2 (proj2 (proj2 (proj2 (proj2 (proj2
           (clearAuthToken_undoes_setAuthToken (JStr "T") (Some 3600)
              fresh_client))))))).
  reflexivity.
Defined.

Lemma network_401_always_unauthorized : always_unauthorized env_401.
Proof. intros history c. exists JNull, 7. reflexivity. Qed.

(** X4. The refresh request is a request of the same client. When the
    backend answers 401 to every request, the refresh included, the
    handling of the first 401 calls [refreshToken], whose own 401 is
    handled by another [refreshToken], and so on: no request that was
    not retried before ever ends, whatever the token store holds. *)
Theorem unauthorized_backend_never_answers :
  forall env : Env,
    always_unauthorized env ->
    forall (fuel : nat) (config : Config) (w : ApiState),
      _retry config = false ->
      fst (request fuel env config w) = Diverge.
Proof. exact refresh_unauthorized_never_ends. Qed.

Lemma unauthorized_backend_never_answers_witness :
  fst (request 25 env_401 get_wallets fresh_client) = Diverge.
Proof.
  apply (unauthorized_backend_never_answers env_401
           network_401_always_unauthorized 25 get_wallets fresh_client).
  reflexivity.
Defined.

(** ** The history: what every command keeps *)

Section MoreHistoryFacts.

Variable api : Config -> ApiState -> (Response + Error) * ApiState.
Variable history_text : list JSON -> JSON -> Z -> string.
Variable lessThan : Z -> JSON -> bool.

Lemma session_user_of (w : World) (s : Session) :
  ctx_session w = Some s -> session_user w = user s.
Proof. intros H. unfold session_user. rewrite H. reflexivity. Qed.

Lemma paging_of_set (h : HistoryState) (s : Session) :
  paging_of (set_historyState (Some h) s) = h.
Proof. reflexivity. Qed.

(** One turn keeps the user and the limit, and a page of at least 1. *)
Lemma handleHistoryPagination_keeps (action : string) (w : World)
  (u : UserSession) (s : Session) :
  session_user w = Some u -> ctx_session w = Some s ->
  exists w' s',
    handleHistoryPagination api history_text lessThan action w = (Ok tt, w') /\
    ctx_session w' = Some s' /\ session_user w' = Some u /\
    (1 <= page (paging_of s) -> 1 <= page (paging_of s')) /\
    limit (paging_of s') = limit (paging_of s).
Proof.
  intros Hu Hs.
  destruct (handleHistoryPagination_turn api history_text lessThan action w u s Hu Hs)
    as (w' & Hrun & Hs' & _).
  eexists w', _. split; [exact Hrun|]. split; [exact Hs'|].
  split.
  - rewrite (session_user_of w' _ Hs'). cbn.
    rewrite <- (session_user_of w s Hs). exact Hu.
  - rewrite paging_of_set.
    destruct (String.eqb action "prev" && (1 <? page (paging_of s)))%bool eqn:Hprev.
    + apply andb_prop in Hprev as [_ Hlt]. apply Z.ltb_lt in Hlt.
      cbn [with_page page limit]. split; [lia | reflexivity].
    + destruct (String.eqb action "next"); cbn [with_page page limit];
        split; try lia; reflexivity.
Qed.

Lemma paginate_keeps (actions : list string) :
  forall (w : World) (u : UserSession) (s : Session),
    session_user w = Some u -> ctx_session w = Some s ->
    exists w' s',
      paginate api history_text lessThan actions w = (Ok tt, w') /\
      ctx_session w' = Some s' /\ session_user w' = Some u /\
      (1 <= page (paging_of s) -> 1 <= page (paging_of s')) /\
      limit (paging_of s') = limit (paging_of s).
Proof.
  induction actions as [|action rest IH]; intros w u s Hu Hs.
  - exists w, s. repeat split; try assumption. intros H; exact H.
  - destruct (handleHistoryPagination_keeps action w u s Hu Hs)
      as (w1 & s1 & Hrun & Hs1 & Hu1 & Hp1 & Hl1).
    destruct (IH w1 u s1 Hu1 Hs1) as (w' & s' & Hrest & Hs' & Hu' & Hp' & Hl').
    exists w', s'. split.
    + cbn [paginate]. unfold bind. rewrite Hrun. exact Hrest.
    + split; [exact Hs'|]. split; [exact Hu'|].
      split; [intros H; apply Hp', Hp1, H | congruence].
Qed.

(** [/history] stores page 1, keeps the limit and requests that page. *)
Lemma historyHandler_run (w : World) (u : UserSession) (s : Session) :
  session_user w = Some u -> ctx_session w = Some s ->
  exists w',
    historyHandler api history_text lessThan w = (Ok tt, w') /\
    ctx_session w' = Some (set_historyState (Some (with_page 1 (paging_of s))) s) /\
    calls w' = transfers_config 1 (limit (paging_of s)) :: calls w.
Proof.
  intros Hu Hs. unfold historyHandler. unfold bind at 1.
  rewrite (checkAuth_user w u Hu). cbn [negb].
  unfold bind at 1. unfold read_session.
  cbn [ctx_session after_checkAuth set_api_state]. rewrite Hs.
  unfold paging_of.
  destruct (historyState s) as [h|]; cbn [default];
    unfold bind at 1; unfold update_session;
    cbn [ctx_session after_checkAuth set_api_state]; rewrite Hs;
    match goal with
    | |- context [fetchAndDisplayHistory api history_text lessThan ?w1] =>
        match w1 with
        | set_ctx_session (Some (set_historyState (Some ?h1) s)) _ =>
            destruct (fetchAndDisplayHistory_requests api history_text lessThan w1
                        (set_historyState (Some h1) s) h1 eq_refl eq_refl)
              as (w' & Hrun & Hs' & Hc')
        end
    end;
    (exists w'; split; [exact Hrun|]; split; [exact Hs' | exact Hc']).
Qed.

End MoreHistoryFacts.





(** ** The transfer flow: amounts, cancellation, repeated confirmation *)

Lemma all_digits_app (a b : string) :
  all_digits (a +:+ b) = (all_digits a && all_digits b)%bool.
Proof.
  induction a as [|c a IH].
  - reflexivity.
  - rewrite append_cons. cbn [all_digits]. rewrite IH. apply andb_assoc.
Qed.

Lemma append_empty_r (a : string) : a +:+ "" = a.
Proof.
  induction a as [|c a IH]; [reflexivity|]. rewrite append_cons, IH. reflexivity.
Qed.

Lemma after_digits_all (s : string) :
  all_digits s = true -> after_digits s = "".
Proof.
  induction s as [|c s IH]; cbn [all_digits after_digits]; [reflexivity|].
  intros H. apply andb_prop in H as [Hc Hs]. rewrite Hc. exact (IH Hs).
Qed.

Lemma after_digits_app (whole rest : string) :
  all_digits whole = true ->
  after_digits (whole +:+ rest) = after_digits rest.
Proof.
  induction whole as [|c whole IH]; intros H; [reflexivity|].
  rewrite append_cons. cbn [all_digits after_digits] in *.
  apply andb_prop in H as [Hc Hs]. rewrite Hc. exact (IH Hs).
Qed.

(** A text is the digits it starts with, followed by the rest. *)
Lemma after_digits_split (s : string) :
  exists whole, s = whole +:+ after_digits s /\ all_digits whole = true.
Proof.
  induction s as [|c s (whole & Hs & Hd)].
  - exists "". split; reflexivity.
  - cbn [after_digits]. destruct (is_digit c) eqn:Hc.
    + exists (String c whole). split.
      * rewrite append_cons. f_equal. exact Hs.
      * cbn [all_digits]. rewrite Hc, Hd. reflexivity.
    + exists "". split; reflexivity.
Qed.

(** X8. [amountRegex_test] accepts exactly the texts the regular
    expression of [handleAmountInput] describes: one or more decimal
    digits, alone or followed by a dot and one to six decimal digits.
    No sign, no exponent, no space and no second dot passes. *)
Theorem amountRegex_test_shape :
  forall amount : string,
    amountRegex_test amount = true <-> amount_shape amount.
Proof.
  intros amount. unfold amountRegex_test, amount_shape. split.
  - destruct amount as [|c rest]; [discriminate|].
    intros H. apply andb_prop in H as [Hc H].
    destruct (after_digits_split (String c rest)) as (whole & Hsplit & Hd).
    assert (Hne : whole <> "").
    { intros ->. rewrite append_nil in Hsplit.
      cbn [after_digits] in Hsplit. rewrite Hc in Hsplit.
      assert (Hlen : String.length (String c rest)
                     = String.length (after_digits rest)) by congruence.
      clear - Hlen. cbn in Hlen.
      assert (Hle : forall s, (String.length (after_digits s) <= String.length s)%nat).
      { induction s as [|d s IH]; cbn; [lia|]. destruct (is_digit d); cbn; lia. }
      specialize (Hle rest). lia. }
    exists whole. split; [exact Hne|]. split; [exact Hd|].
    destruct (after_digits (String c rest)) as [|d fraction].
    + left. rewrite append_empty_r in Hsplit. exact Hsplit.
    + right. apply andb_prop in H as [H H6]. apply andb_prop in H as [H H1].
      apply andb_prop in H as [Hdot Hf].
      apply Ascii.eqb_eq in Hdot. subst d.
      exists fraction. split; [exact Hsplit|]. split; [exact Hf|].
      apply Nat.leb_le in H1, H6. lia.
  - intros (whole & Hne & Hd & [-> | (fraction & -> & Hf & H1 & H6)]).
    + destruct whole as [|c rest]; [contradiction|].
      rewrite (after_digits_all _ Hd).
      cbn [all_digits] in Hd. apply andb_prop in Hd as [Hc _].
      rewrite Hc. reflexivity.
    + destruct whole as [|c rest]; [contradiction|].
      rewrite (after_digits_app _ _ Hd).
      rewrite append_cons.
      cbn [all_digits] in Hd. apply andb_prop in Hd as [Hc _]. rewrite Hc.
      rewrite append_cons, append_nil. cbn [after_digits].
      replace (is_digit ".") with false by reflexivity.
      rewrite Ascii.eqb_refl, Hf. cbn [andb].
      apply andb_true_intro. split; apply Nat.leb_le; lia.
Qed.

Lemma amountRegex_test_nonempty (amount : string) :
  amountRegex_test amount = true -> present (Some amount) = true.
Proof. destruct amount; [discriminate | reflexivity]. Qed.

Lemma emailRegex_test_nonempty (email : string) :
  emailRegex_test email = true -> present (Some email) = true.
Proof. destruct email; [discriminate | reflexivity]. Qed.

Section TransferFlowFacts.

Variable api : Config -> ApiState -> (Response + Error) * ApiState.
Variable encodeURIComponent : string -> string.
Variable inherited : string -> option string.

(** After a cancellation the flow state is [{}]. *)
Lemma handleTransferCancel_run (w : World) (s : Session) :
  ctx_session w = Some s ->
  handleTransferCancel w =
    (Ok tt,
     add_chat (EditMessageText "❌ Transfer cancelled.")
       (set_ctx_session (Some (transfer_reset s)) w)).
Proof.
  intros Hs. unfold handleTransferCancel, bind, modify, editMessageText.
  rewrite Hs. reflexivity.
Qed.

Lemma confirm_no_state (w : World) (u : UserSession) (s : Session) :
  session_user w = Some u -> ctx_session w = Some s ->
  transferState s = None ->
  handleTransferConfirm api w =
    (Ok tt, add_chat (Reply MSG_INVALID_SESSION NoMarkup) (after_checkAuth u w)).
Proof.
  intros H Hs Hst. unfold handleTransferConfirm. unfold bind at 1.
  rewrite (checkAuth_user w u H). cbn [negb].
  unfold bind at 1. unfold read_session.
  cbn [ctx_session after_checkAuth set_api_state].
  rewrite Hs, Hst. reflexivity.
Qed.

Lemma handleAmountInput_invalid (amount : string) (w : World)
  (u : UserSession) (s : Session) (st : TransferState) :
  session_user w = Some u -> ctx_session w = Some s ->
  transferState s = Some st -> amountRegex_test amount = false ->
  handleAmountInput api encodeURIComponent inherited amount w =
    (Ok tt, add_chat (Reply MSG_INVALID_AMOUNT NoMarkup) (after_checkAuth u w)).
Proof.
  intros Hu Hs Hst Hno. unfold handleAmountInput. unfold bind at 1.
  rewrite (checkAuth_user w u Hu). cbn [negb].
  unfold bind at 1. unfold read_session.
  cbn [ctx_session after_checkAuth set_api_state]. rewrite Hs, Hst, Hno.
  reflexivity.
Qed.

Lemma handleAmountInput_valid (amount : string) (w : World)
  (u : UserSession) (s : Session) (st : TransferState) :
  session_user w = Some u -> ctx_session w = Some s ->
  transferState s = Some st -> amountRegex_test amount = true ->
  exists w' text,
    handleAmountInput api encodeURIComponent inherited amount w = (Ok tt, w') /\
    ctx_session w' =
      Some (set_transferState (Some (set_amount (Some amount) st)) s) /\
    calls w' =
      fee_config encodeURIComponent (or_text (type st) "EMAIL") amount
        (transfer_network st) :: calls w /\
    chat w' = Reply text confirm_keyboard :: chat w.
Proof.
  intros Hu Hs Hst Hyes. unfold handleAmountInput. unfold bind at 1.
  rewrite (checkAuth_user w u Hu). cbn [negb].
  unfold bind at 1. unfold read_session.
  cbn [ctx_session after_checkAuth set_api_state]. rewrite Hs, Hst, Hyes.
  cbn [negb]. unfold bind at 1.
  unfold update_transferState, bind, read_session, update_session.
  cbn [ctx_session after_checkAuth set_api_state]. rewrite Hs.
  cbn [transferState]. rewrite Hst.
  cbn [ctx_session after_checkAuth set_api_state]. rewrite Hs.
  unfold try_catch, getFeeInfo, api_get.
  fold (fee_config encodeURIComponent (or_text (type st) "EMAIL") amount
          (transfer_network st)).
  unfold api_call. cbn [api_state set_ctx_session after_checkAuth set_api_state].
  destruct (api (fee_config encodeURIComponent (or_text (type st) "EMAIL") amount
                   (transfer_network st)) _) as [[response|e] a].
  - eexists _, _. split; [reflexivity|]. cbn. repeat split.
  - eexists _, _. split; [reflexivity|]. cbn. repeat split.
Qed.

Lemma transfer_handleEmailInput_valid (email : string) (w : World)
  (u : UserSession) (s : Session) :
  session_user w = Some u -> ctx_session w = Some s ->
  emailRegex_test email = true ->
  transferHandler.handleEmailInput email w =
    (Ok tt,
     add_chat (Reply MSG_ENTER_AMOUNT_SEND (ForceReply "Enter amount"))
       (set_ctx_session
          (Some (set_transferState
                   (Some (set_recipient (Some email)
                            (set_type (Some "EMAIL")
                               (default empty_transferState (transferState s)))))
                   s))
          (after_checkAuth u w))).
Proof.
  intros Hu Hs Hyes. unfold transferHandler.handleEmailInput. unfold bind at 1.
  rewrite (checkAuth_user w u Hu). cbn [negb].
  destruct w as [aw sess ch cl]. cbn [ctx_session] in Hs. subst sess.
  destruct s as [us au ts hs wa ds].
  unfold ensure_transferState, update_transferState, bind, read_session,
    update_session, reply, modify.
  cbn [ctx_session after_checkAuth set_api_state transferState].
  rewrite Hyes.
  destruct ts as [st|];
    cbn [ctx_session after_checkAuth set_api_state set_ctx_session transferState
         set_transferState negb default ret];
    reflexivity.
Qed.

Lemma transfer_handleEmailInput_invalid (email : string) (w : World)
  (u : UserSession) (s : Session) :
  session_user w = Some u -> ctx_session w = Some s ->
  emailRegex_test email = false ->
  transferHandler.handleEmailInput email w =
    (Ok tt,
     add_chat (Reply MSG_INVALID_EMAIL NoMarkup)
       (set_ctx_session
          (Some (set_transferState
                   (Some (default empty_transferState (transferState s))) s))
          (after_checkAuth u w))).
Proof.
  intros Hu Hs Hno. unfold transferHandler.handleEmailInput. unfold bind at 1.
  rewrite (checkAuth_user w u Hu). cbn [negb].
  destruct w as [aw sess ch cl]. cbn [ctx_session] in Hs. subst sess.
  destruct s as [us au ts hs wa ds].
  unfold ensure_transferState, update_transferState, bind, read_session,
    update_session, reply, modify.
  cbn [ctx_session after_checkAuth set_api_state transferState].
  rewrite Hno.
  destruct ts as [st|];
    cbn [ctx_session after_checkAuth set_api_state set_ctx_session transferState
         set_transferState negb default ret];
    reflexivity.
Qed.

Lemma handleNetworkSelection_run (network : string) (w : World)
  (u : UserSession) (s : Session) :
  session_user w = Some u -> ctx_session w = Some s ->
  exists text,
    handleNetworkSelection network w =
      (Ok tt,
       add_chat (Reply text (ForceReply "Enter wallet address"))
         (set_ctx_session
            (Some (set_transferState
                     (Some (set_transfer_network (Some network)
                              (set_type (Some "WALLET")
                                 (default empty_transferState (transferState s)))))
                     s))
            (after_checkAuth u w))).
Proof.
  intros Hu Hs. unfold handleNetworkSelection. unfold bind at 1.
  rewrite (checkAuth_user w u Hu). cbn [negb].
  destruct w as [aw sess ch cl]. cbn [ctx_session] in Hs. subst sess.
  destruct s as [us au ts hs wa ds].
  unfold ensure_transferState, update_transferState, bind, read_session,
    update_session, reply, modify.
  cbn [ctx_session after_checkAuth set_api_state transferState].
  destruct ts as [st|];
    cbn [ctx_session after_checkAuth set_api_state set_ctx_session transferState
         set_transferState negb default ret];
    eexists; reflexivity.
Qed.

Lemma handleWalletAddressInput_run (address : string) (w : World)
  (u : UserSession) (s : Session) :
  session_user w = Some u -> ctx_session w = Some s ->
  handleWalletAddressInput address w =
    (Ok tt,
     add_chat (Reply MSG_ENTER_AMOUNT_WITHDRAW (ForceReply "Enter amount"))
       (set_ctx_session
          (Some (set_transferState
                   (Some (set_recipient (Some address)
                            (default empty_transferState (transferState s))))
                   s))
          (after_checkAuth u w))).
Proof.
  intros Hu Hs. unfold handleWalletAddressInput. unfold bind at 1.
  rewrite (checkAuth_user w u Hu). cbn [negb].
  destruct w as [aw sess ch cl]. cbn [ctx_session] in Hs. subst sess.
  destruct s as [us au ts hs wa ds].
  unfold ensure_transferState, update_transferState, bind, read_session,
    update_session, reply, modify.
  cbn [ctx_session after_checkAuth set_api_state transferState].
  destruct ts as [st|];
    cbn [ctx_session after_checkAuth set_api_state set_ctx_session transferState
         set_transferState negb default ret];
    reflexivity.
Qed.

End TransferFlowFacts.

(** X9. A cancelled transfer cannot be confirmed afterwards. Whatever
    flow state a logged-in session holds, even a complete one, after
    [transfer:cancel] a [transfer:confirm] (the button of the old
    message is still there) makes no call of the API: it answers that
    recipient or amount are missing and the flow state stays empty. *)
Theorem cancelled_transfer_cannot_be_confirmed :
  forall (api : Config -> ApiState -> (Response + Error) * ApiState)
         (w : World) (u : UserSession) (s : Session),
    session_user w = Some u -> ctx_session w = Some s ->
    exists w1 w2,
      handleTransferCancel w = (Ok tt, w1) /\
      handleTransferConfirm api w1 = (Ok tt, w2) /\
      calls w2 = calls w /\
      ctx_session w2 = Some (transfer_reset s) /\
      head (chat w2) = Some (Reply MSG_MISSING_FIELDS NoMarkup).
Proof.
  intros api w u s Hu Hs.
  eexists _, _. split; [apply (handleTransferCancel_run w s Hs)|].
  split.
  - apply (confirm_missing_fields api _ u (transfer_reset s) empty_transferState).
    + unfold session_user. cbn. rewrite <- (session_user_of w s Hs). exact Hu.
    + reflexivity.
    + reflexivity.
    + reflexivity.
  - repeat split.
Qed.

Lemma cancelled_transfer_cannot_be_confirmed_witness :
  exists w1 w2,
    handleTransferCancel (alice_confirms transfer_to_friend) = (Ok tt, w1) /\
    handleTransferConfirm api_500 w1 = (Ok tt, w2) /\
    calls w2 = calls (alice_confirms transfer_to_friend) /\
    ctx_session w2 =
      Some (transfer_reset
              (set_transferState (Some transfer_to_friend) session_of_alice)) /\
    head (chat w2) = Some (Reply MSG_MISSING_FIELDS NoMarkup).
Proof.
  apply (cancelled_transfer_cannot_be_confirmed api_500
           (alice_confirms transfer_to_friend) alice
           (set_transferState (Some transfer_to_friend) session_of_alice)).
  - reflexivity.
  - reflexivity.
Defined.

(** The confirmation on the wire for a logged-in user, whatever the
    flow state: at most one transfer call, the session as it was or
    with the flow state emptied, and when it returns, either the flow
    state is empty or no transfer call was made. *)
Lemma confirm_on_wire_summary
  (telegram : list ChatAction -> ChatAction -> Delivery)
  (client : Config -> M ApiState Response)
  (w : World) (u : UserSession) (s : Session) :
  session_user w = Some u -> ctx_session w = Some s ->
  exists r w',
    Wire.handleTransferConfirm telegram client w = (r, w') /\
    (transfer_calls w' <= transfer_calls w + 1)%nat /\
    (ctx_session w' = Some s \/ ctx_session w' = Some (transfer_reset s)) /\
    (r = Ok tt ->
     ctx_session w' = Some (transfer_reset s) \/
     transfer_calls w' = transfer_calls w).
Proof.
  intros Hu Hs. destruct (transferState s) as [st|] eqn:Hst.
  - destruct (transfer_ready st) eqn:Hready.
    + destruct (confirm_on_wire_ready telegram client w u s st Hu Hs Hst Hready)
        as (r & w' & Hrun & Ht & [[Hr H] | [Hr H]]);
        exists r, w'; (split; [exact Hrun|]); (split; [exact Ht|]).
      * split; [right; exact H | intros _; left; exact H].
      * split; [left; exact H | intros Hok; contradiction].
    + destruct (confirm_on_wire_guard telegram client w u s st Hu Hs Hst Hready)
        as (r & w' & Hrun & Ht & Hs' & _).
      exists r, w'. split; [exact Hrun|]. split; [lia|].
      split; [exact Hs' | intros _; right; exact Ht].
  - destruct (confirm_on_wire_stateless telegram client w u s Hu Hs Hst)
      as (r & w' & Hrun & Ht & Hs').
    exists r, w'. split; [exact Hrun|]. split; [lia|].
    split; [left; exact Hs' | intros _; right; exact Ht].
Qed.

(** X10. Confirming twice. For a logged-in user and two
    [transfer:confirm] handled one after the other: if the first one
    returns, the two together make at most one transfer call, whatever
    the API answers, because a confirmation that reached the transfer
    step and returned has emptied the flow state. The bound needs the
    first one to return: when Telegram rejects every message of the
    handler after a successful send, the handler throws with the flow
    state kept, and the second confirmation sends again. *)
Theorem repeated_confirmation_sends_once :
  (forall (telegram : list ChatAction -> ChatAction -> Delivery)
          (client : Config -> M ApiState Response)
          (w : World) (u : UserSession) (s : Session),
      session_user w = Some u -> ctx_session w = Some s ->
      let first := Wire.handleTransferConfirm telegram client w in
      let second := Wire.handleTransferConfirm telegram client (snd first) in
      (transfer_calls (snd second) <= transfer_calls w + 2)%nat /\
      (fst first = Ok tt ->
       (transfer_calls (snd second) <= transfer_calls w + 1)%nat)) /\
  (let w := alice_confirms transfer_to_friend in
   let first :=
     Wire.handleTransferConfirm refusing (settled api_knows_friend) w in
   let second :=
     Wire.handleTransferConfirm refusing (settled api_knows_friend) (snd first) in
   (exists e, fst first = Throw e) /\
   transfer_calls (snd first) = (transfer_calls w + 1)%nat /\
   transfer_calls (snd second) = (transfer_calls w + 2)%nat).
Proof.
  split.
  - intros telegram client w u s Hu Hs first second.
    destruct (confirm_on_wire_summary telegram client w u s Hu Hs)
      as (r1 & w1 & Hrun1 & Ht1 & Hs1 & Hok1).
    assert (Hu1 : session_user w1 = Some u).
    { destruct Hs1 as [Hs1 | Hs1]; rewrite (session_user_of w1 _ Hs1); cbn;
        rewrite <- (session_user_of w s Hs); exact Hu. }
    unfold second, first. rewrite Hrun1. cbn [fst snd]. split.
    + destruct Hs1 as [Hs1 | Hs1];
        destruct (confirm_on_wire_summary telegram client w1 u _ Hu1 Hs1)
          as (r2 & w2 & Hrun2 & Ht2 & _); rewrite Hrun2; cbn [snd]; lia.
    + intros ->. destruct (Hok1 eq_refl) as [Hreset | Hsame].
      * destruct (confirm_on_wire_guard telegram client w1 u (transfer_reset s)
                    empty_transferState Hu1 Hreset eq_refl eq_refl)
          as (r2 & w2 & Hrun2 & Ht2 & _).
        rewrite Hrun2. cbn [snd]. lia.
      * destruct Hs1 as [Hs1 | Hs1];
          destruct (confirm_on_wire_summary telegram client w1 u _ Hu1 Hs1)
            as (r2 & w2 & Hrun2 & Ht2 & _); rewrite Hrun2; cbn [snd]; lia.
  - cbv zeta. split; [eexists; vm_compute; reflexivity|].
    split; vm_compute; reflexivity.
Qed.

Lemma repeated_confirmation_sends_once_witness :
  (transfer_calls
     (snd (Wire.handleTransferConfirm accepting (settled api_knows_friend)
             (snd (Wire.handleTransferConfirm accepting (settled api_knows_friend)
                     (alice_confirms transfer_to_friend))))) <=
   transfer_calls (alice_confirms transfer_to_friend) + 1)%nat.
Proof.
  apply (proj2 (proj1 repeated_confirmation_sends_once accepting
                  (settled api_knows_friend) (alice_confirms transfer_to_friend)
                  alice
                  (set_transferState (Some transfer_to_friend) session_of_alice)
                  eq_refl eq_refl)).
  vm_compute. reflexivity.
Defined.



(** ** What a confirmation can send *)

Lemma calls_only_ret (P : Config -> Prop) {A} (a : A) : calls_only P (ret a).
Proof. intros w. split; [discriminate|]. exists []. split; [reflexivity | constructor]. Qed.

Lemma calls_only_throw (P : Config -> Prop) {A} (e : Error) :
  calls_only P (@throw World A e).
Proof. intros w. split; [discriminate|]. exists []. split; [reflexivity | constructor]. Qed.

Lemma calls_only_bind (P : Config -> Prop) {A B} (m : M World A)
  (k : A -> M World B) :
  calls_only P m -> (forall a, calls_only P (k a)) -> calls_only P (bind m k).
Proof.
  intros Hm Hk w. unfold bind. destruct (Hm w) as (Hd & made & Hc & HP).
  destruct (m w) as [[a|e|] w']; cbn in *.
  - destruct (Hk a w') as (Hd' & made' & Hc' & HP').
    split; [exact Hd'|]. exists (made' ++ made)%list. split.
    + rewrite Hc', Hc. apply app_assoc.
    + apply Forall_app. split; assumption.
  - split; [discriminate|]. exists made. split; assumption.
  - contradiction.
Qed.

Lemma calls_only_try_catch (P : Config -> Prop) {A} (m : M World A)
  (h : Error -> M World A) :
  calls_only P m -> (forall e, calls_only P (h e)) ->
  calls_only P (try_catch m h).
Proof.
  intros Hm Hh w. unfold try_catch. destruct (Hm w) as (Hd & made & Hc & HP).
  destruct (m w) as [[a|e|] w']; cbn in *.
  - split; [discriminate|]. exists made. split; assumption.
  - destruct (Hh e w') as (Hd' & made' & Hc' & HP').
    split; [exact Hd'|]. exists (made' ++ made)%list. split.
    + rewrite Hc', Hc. apply app_assoc.
    + apply Forall_app. split; assumption.
  - contradiction.
Qed.

Lemma calls_only_quiet (P : Config -> Prop) {A} (m : M World A) :
  (forall w, fst (m w) <> Diverge /\ calls (snd (m w)) = calls w) ->
  calls_only P m.
Proof.
  intros H w. destruct (H w) as (Hd & Hc). split; [exact Hd|].
  exists []. split; [exact Hc | constructor].
Qed.

Lemma calls_only_log (P : Config -> Prop) (line : string) :
  calls_only P (log line).
Proof. apply calls_only_quiet. intros w. split; [discriminate | reflexivity]. Qed.

Lemma calls_only_reply (P : Config -> Prop) (text : string) (markup : Markup) :
  calls_only P (reply text markup).
Proof. apply calls_only_quiet. intros w. split; [discriminate | reflexivity]. Qed.

Lemma calls_only_editMessageText (P : Config -> Prop) (text : string) :
  calls_only P (editMessageText text).
Proof. apply calls_only_quiet. intros w. split; [discriminate | reflexivity]. Qed.

Lemma calls_only_update_session (P : Config -> Prop) (f : Session -> Session) :
  calls_only P (update_session f).
Proof.
  apply calls_only_quiet. intros w. unfold update_session.
  destruct (ctx_session w); split; try discriminate; reflexivity.
Qed.

Lemma calls_only_modify (P : Config -> Prop) (f : World -> World) :
  (forall w, calls (f w) = calls w) -> calls_only P (modify f).
Proof. intros H. apply calls_only_quiet. intros w. split; [discriminate | apply H]. Qed.

Lemma calls_only_prop (P : Config -> Prop) (v : JSON) (k : string) :
  calls_only P (@prop World v k).
Proof. destruct v; cbn; (apply calls_only_ret || apply calls_only_throw). Qed.

Lemma calls_only_toLowerCase_of (P : Config -> Prop) (v : JSON) :
  calls_only P (@toLowerCase_of World v).
Proof. destruct v; cbn; (apply calls_only_ret || apply calls_only_throw). Qed.

Lemma calls_only_includes_of (P : Config -> Prop) (callee : string) (v : JSON)
  (sub : string) :
  calls_only P (@includes_of World callee v sub).
Proof. destruct v; cbn; (apply calls_only_ret || apply calls_only_throw). Qed.

Lemma calls_only_api_call (P : Config -> Prop)
  (api : Config -> ApiState -> (Response + Error) * ApiState) (c : Config) :
  P c -> calls_only P (api_call api c).
Proof.
  intros Hc w. unfold api_call.
  destruct (api c (api_state w)) as [[r|e] a]; cbn;
    (split; [discriminate|]; exists [c]; split; [reflexivity|];
     constructor; [exact Hc | constructor]).
Qed.

Create HintDb calls_only.

#[local] Hint Resolve calls_only_ret calls_only_throw calls_only_log
  calls_only_reply calls_only_editMessageText calls_only_update_session
  calls_only_prop calls_only_toLowerCase_of calls_only_includes_of
  : calls_only.

(** A call that does not move funds is allowed by [moves_only]. *)
Ltac not_a_transfer :=
  let H := fresh in
  intros H; exfalso; vm_compute in H; discriminate H.

#[local] Hint Extern 1 (calls_only (moves_only _) (api_call _ _)) =>
  apply calls_only_api_call; not_a_transfer : calls_only.

#[local] Hint Extern 1 (calls_only (moves_only _) (api_get _ _)) =>
  apply calls_only_api_call; not_a_transfer : calls_only.

#[local] Hint Extern 1 (calls_only (moves_only _) (api_post _ _ _)) =>
  apply calls_only_api_call; not_a_transfer : calls_only.

Ltac calls_only_step :=
  first
    [ solve [auto with calls_only]
    | apply calls_only_bind; [|intros ?]
    | apply calls_only_try_catch; [|intros ?]
    | match goal with
      | |- calls_only _ (if ?c then _ else _) => destruct c
      | |- calls_only _ (match ?x with _ => _ end) => destruct x
      end
    | progress cbv zeta ].

Ltac calls_only_auto := repeat calls_only_step.

Section WhatIsSent.

Variable api : Config -> ApiState -> (Response + Error) * ApiState.

Lemma moves_only_on_userError (st : TransferState) (email : string) (e : Error) :
  calls_only (moves_only st) (on_userError email e).
Proof. unfold on_userError. calls_only_auto. Qed.

#[local] Hint Resolve moves_only_on_userError : calls_only.

Lemma moves_only_checkRecipientEligibility (st : TransferState) (email : string) :
  calls_only (moves_only st) (checkRecipientEligibility api email).
Proof. unfold checkRecipientEligibility. calls_only_auto. Qed.

(** The transfer step asks for the transfer of the flow state, for
    nothing else that moves funds. *)
Lemma moves_only_perform_transfer (st : TransferState) :
  calls_only (moves_only st)
    (perform_transfer api st (default "" (recipient st)) (default "" (amount st))).
Proof.
  unfold perform_transfer.
  destruct (is_lit (type st) "EMAIL") eqn:He.
  - apply calls_only_bind; [|intros ?; apply calls_only_ret].
    unfold sendToEmail.
    apply calls_only_bind; [apply moves_only_checkRecipientEligibility|].
    intros eligibility.
    apply calls_only_bind; [apply calls_only_prop|]. intros isEligible.
    destruct (negb (truthy isEligible)); [apply calls_only_throw|].
    apply calls_only_api_call. intros _. left. split; [exact He | reflexivity].
  - destruct (is_lit (type st) "WALLET") eqn:Hw; [|apply calls_only_ret].
    destruct (negb (present (transfer_network st))).
    + calls_only_auto.
    + apply calls_only_bind; [|intros ?; apply calls_only_ret].
      unfold sendToWallet.
      apply calls_only_api_call. intros _. right. split; [exact Hw | reflexivity].
Qed.

End WhatIsSent.

(** X12. A confirmation sends what was entered and nothing else. Of the
    calls [handleTransferConfirm] makes, the only one that moves funds is
    the transfer its flow state describes: for an e-mail transfer the
    post to [/transfers/send] with the stored recipient and amount, for a
    wallet transfer the post to [/transfers/wallet-withdraw] with the
    stored address and amount. The network chosen for a wallet transfer
    is not part of that request. Without a session, a user or a flow
    state, no call moves funds. *)
Theorem confirmation_sends_what_was_entered :
  forall (api : Config -> ApiState -> (Response + Error) * ApiState) (w : World),
    exists made : list Config,
      calls (snd (handleTransferConfirm api w)) = (made ++ calls w)%list /\
      forall c : Config,
        In c made -> is_transfer c = true ->
        exists (s : Session) (st : TransferState),
          ctx_session w = Some s /\ transferState s = Some st /\
          transfer_of st c.
Proof.
  intros api w.
  destruct (session_user w) as [u|] eqn:Hu.
  2:{ rewrite (confirm_anonymous api w Hu). exists []. split; [reflexivity|].
      intros c []. }
  destruct (session_user_session w u Hu) as (s & Hs & _).
  destruct (transferState s) as [st|] eqn:Hst.
  2:{ rewrite (confirm_no_state api w u s Hu Hs Hst). exists [].
      split; [reflexivity|]. intros c []. }
  unfold handleTransferConfirm. unfold bind at 1.
  rewrite (checkAuth_user w u Hu). cbn [negb].
  unfold bind at 1. unfold read_session.
  cbn [ctx_session after_checkAuth set_api_state]. rewrite Hs, Hst.
  match goal with
  | |- context [snd (?f (after_checkAuth u w))] =>
      assert (Hf : calls_only (moves_only st) f)
  end.
  { apply calls_only_try_catch.
    - destruct (negb (present (recipient st)) || negb (present (amount st)))%bool;
        [apply calls_only_reply|].
      apply calls_only_try_catch.
      + apply calls_only_bind; [apply moves_only_perform_transfer|].
        intros completed. calls_only_auto.
      + intros e. calls_only_auto.
    - intros e. calls_only_auto.
      apply calls_only_modify. intros w0. destruct (ctx_session w0); reflexivity. }
  destruct (Hf (after_checkAuth u w)) as (_ & made & Hc & HP).
  exists made. split; [rewrite Hc; reflexivity|].
  intros c Hin Ht. exists s, st. split; [reflexivity|]. split; [exact Hst|].
  exact (proj1 (List.Forall_forall _ _) HP c Hin Ht).
Qed.

(** ** The two transfer flows, from the first input to the confirmation *)

Lemma fee_inquiry_moves_nothing (encodeURIComponent : string -> string)
  (type amount : string) (network : option string) :
  is_transfer (fee_config encodeURIComponent type amount network) = false.
Proof. reflexivity. Qed.

(** X13. The e-mail flow leads to a transfer that can be confirmed. For
    a logged-in user, a recipient that passes the e-mail check followed
    by an amount that passes the amount check leaves the flow state
    with type [EMAIL], that recipient and that amount; no funds have
    moved so far; the state is ready. The confirmation which follows,
    whatever Telegram and the API do, makes at most one transfer call;
    when it returns the flow state is empty, and when it does not the
    flow state is still the one the two inputs left. *)
Theorem email_flow_reaches_confirmation :
  forall (api : Config -> ApiState -> (Response + Error) * ApiState)
         (encodeURIComponent : string -> string)
         (inherited : string -> option string)
         (email sum : string) (w : World) (u : UserSession) (s : Session),
    session_user w = Some u -> ctx_session w = Some s ->
    emailRegex_test email = true -> amountRegex_test sum = true ->
    let st := {| type := Some "EMAIL"; recipient := Some email;
                 amount := Some sum;
                 transfer_network :=
                   transfer_network
                     (default empty_transferState (transferState s)) |} in
    exists w1 w2,
      transferHandler.handleEmailInput email w = (Ok tt, w1) /\
      handleAmountInput api encodeURIComponent inherited sum w1 = (Ok tt, w2) /\
      ctx_session w2 = Some (set_transferState (Some st) s) /\
      transfer_ready st = true /\
      transfer_calls w2 = transfer_calls w /\
      forall (telegram : list ChatAction -> ChatAction -> Delivery)
             (client : Config -> M ApiState Response),
        let out := Wire.handleTransferConfirm telegram client w2 in
        (transfer_calls (snd out) <= transfer_calls w + 1)%nat /\
        (fst out = Ok tt -> ctx_session (snd out) = Some (transfer_reset s)) /\
        (fst out <> Ok tt ->
         ctx_session (snd out) = Some (set_transferState (Some st) s)).
Proof.
  intros api encodeURIComponent inherited email sum w u s Hu Hs He Ha st.
  pose proof (transfer_handleEmailInput_valid email w u s Hu Hs He) as Hrun1.
  set (st1 := set_recipient (Some email)
                (set_type (Some "EMAIL")
                   (default empty_transferState (transferState s)))) in *.
  set (s1 := set_transferState (Some st1) s) in *.
  set (w1 := add_chat (Reply MSG_ENTER_AMOUNT_SEND (ForceReply "Enter amount"))
               (set_ctx_session (Some s1) (after_checkAuth u w))) in *.
  assert (Hu1 : session_user w1 = Some u).
  { unfold session_user. cbn. rewrite <- (session_user_of w s Hs). exact Hu. }
  destruct (handleAmountInput_valid api encodeURIComponent inherited sum
              w1 u s1 st1 Hu1 eq_refl eq_refl Ha)
    as (w2 & text & Hrun2 & Hs2 & Hc2 & _).
  assert (Hready : transfer_ready st = true).
  { unfold transfer_ready, st. cbn [recipient amount type transfer_network].
    rewrite (emailRegex_test_nonempty email He),
            (amountRegex_test_nonempty sum Ha). reflexivity. }
  assert (Hu2 : session_user w2 = Some u).
  { rewrite (session_user_of w2 _ Hs2). cbn.
    rewrite <- (session_user_of w s Hs). exact Hu. }
  assert (Ht2 : transfer_calls w2 = transfer_calls w).
  { unfold transfer_calls. rewrite Hc2. cbn [List.filter].
    rewrite fee_inquiry_moves_nothing. reflexivity. }
  exists w1, w2.
  split; [exact Hrun1|]. split; [exact Hrun2|]. split; [exact Hs2|].
  split; [exact Hready|]. split; [exact Ht2|].
  intros telegram client out.
  destruct (confirm_on_wire_ready telegram client w2 u _ st Hu2 Hs2 eq_refl Hready)
    as (r & w3 & Hrun3 & Ht3 & Hcase).
  unfold out. rewrite Hrun3. cbn [fst snd]. split; [lia|]. split.
  - intros ->. destruct Hcase as [[_ H] | [H _]]; [exact H | contradiction].
  - intros Hr. destruct Hcase as [[H _] | [_ H]]; [contradiction | exact H].
Qed.

Lemma email_flow_reaches_confirmation_witness :
  exists w1 w2,
    transferHandler.handleEmailInput "friend@example.com"
      (world_of fresh_client (Some session_of_alice)) = (Ok tt, w1) /\
    handleAmountInput (api_account "approved") encode_plain nothing_inherited
      "100.50" w1 = (Ok tt, w2) /\
    ctx_session w2 =
      Some (set_transferState
              (Some {| type := Some "EMAIL"; recipient := Some "friend@example.com";
                       amount := Some "100.50";
                       transfer_network :=
                         transfer_network
                           (default empty_transferState
                              (transferState session_of_alice)) |})
              session_of_alice) /\
    transfer_ready
      {| type := Some "EMAIL"; recipient := Some "friend@example.com";
         amount := Some "100.50";
         transfer_network :=
           transfer_network
             (default empty_transferState (transferState session_of_alice)) |}
      = true /\
    transfer_calls w2 =
      transfer_calls (world_of fresh_client (Some session_of_alice)) /\
    forall (telegram : list ChatAction -> ChatAction -> Delivery)
           (client : Config -> M ApiState Response),
      (transfer_calls (snd (Wire.handleTransferConfirm telegram client w2)) <=
       transfer_calls (world_of fresh_client (Some session_of_alice)) + 1)%nat /\
      (fst (Wire.handleTransferConfirm telegram client w2) = Ok tt ->
       ctx_session (snd (Wire.handleTransferConfirm telegram client w2)) =
         Some (transfer_reset session_of_alice)) /\
      (fst (Wire.handleTransferConfirm telegram client w2) <> Ok tt ->
       ctx_session (snd (Wire.handleTransferConfirm telegram client w2)) =
         Some (set_transferState
                 (Some {| type := Some "EMAIL";
                          recipient := Some "friend@example.com";
                          amount := Some "100.50";
                          transfer_network :=
                            transfer_network
                              (default empty_transferState
                                 (transferState session_of_alice)) |})
                 session_of_alice)).
Proof.
  apply (email_flow_reaches_confirmation (api_account "approved") encode_plain
           nothing_inherited "friend@example.com" "100.50"
           (world_of fresh_client (Some session_of_alice)) alice session_of_alice).
  - reflexivity.
  - reflexivity.
  - reflexivity.
  - reflexivity.
Defined.

(** X14. The wallet flow: a network, then an address, then an amount
    that passes the amount check leave the flow state with type
    [WALLET] and exactly these three values, whatever it held before.
    The only call made meanwhile is the fee inquiry, for a wallet
    transfer on that network. The address is stored as it was typed,
    unchecked: the state is ready for the confirmation exactly when the
    network and the address are not empty. *)
Theorem wallet_flow_reaches_confirmation :
  forall (api : Config -> ApiState -> (Response + Error) * ApiState)
         (encodeURIComponent : string -> string)
         (inherited : string -> option string)
         (network address sum : string)
         (w : World) (u : UserSession) (s : Session),
    session_user w = Some u -> ctx_session w = Some s ->
    amountRegex_test sum = true ->
    let st := {| type := Some "WALLET"; recipient := Some address;
                 amount := Some sum; transfer_network := Some network |} in
    exists w1 w2 w3,
      handleNetworkSelection network w = (Ok tt, w1) /\
      handleWalletAddressInput address w1 = (Ok tt, w2) /\
      handleAmountInput api encodeURIComponent inherited sum w2 = (Ok tt, w3) /\
      ctx_session w3 = Some (set_transferState (Some st) s) /\
      calls w3 =
        fee_config encodeURIComponent "WALLET" sum (Some network) :: calls w /\
      transfer_ready st =
        (negb (String.eqb address "") && negb (String.eqb network ""))%bool.
Proof.
  intros api encodeURIComponent inherited network address sum w u s
    Hu Hs Ha st.
  destruct (handleNetworkSelection_run network w u s Hu Hs) as (text1 & Hrun1).
  set (st1 := set_transfer_network (Some network)
                (set_type (Some "WALLET")
                   (default empty_transferState (transferState s)))) in *.
  set (s1 := set_transferState (Some st1) s) in *.
  set (w1 := add_chat (Reply text1 (ForceReply "Enter wallet address"))
               (set_ctx_session (Some s1) (after_checkAuth u w))) in *.
  assert (Hu1 : session_user w1 = Some u).
  { unfold session_user. cbn. rewrite <- (session_user_of w s Hs). exact Hu. }
  pose proof (handleWalletAddressInput_run address w1 u s1 Hu1 eq_refl) as Hrun2.
  set (st2 := set_recipient (Some address)
                (default empty_transferState (transferState s1))) in *.
  set (s2 := set_transferState (Some st2) s1) in *.
  set (w2 := add_chat (Reply MSG_ENTER_AMOUNT_WITHDRAW (ForceReply "Enter amount"))
               (set_ctx_session (Some s2) (after_checkAuth u w1))) in *.
  assert (Hu2 : session_user w2 = Some u).
  { unfold session_user. cbn. rewrite <- (session_user_of w s Hs). exact Hu. }
  destruct (handleAmountInput_valid api encodeURIComponent inherited sum
              w2 u s2 st2 Hu2 eq_refl eq_refl Ha)
    as (w3 & text & Hrun3 & Hs3 & Hc3 & _).
  exists w1, w2, w3.
  split; [exact Hrun1|]. split; [exact Hrun2|]. split; [exact Hrun3|].
  split; [exact Hs3|]. split; [exact Hc3|].
  unfold transfer_ready, st. cbn [recipient amount type transfer_network].
  rewrite (amountRegex_test_nonempty sum Ha).
  unfold present. cbn [is_lit String.eqb Ascii.eqb Bool.eqb negb orb andb].
  rewrite andb_true_r. reflexivity.
Qed.

Lemma wallet_flow_reaches_confirmation_witness :
  exists w1 w2 w3,
    handleNetworkSelection "137" (alice_confirms transfer_to_friend)
      = (Ok tt, w1) /\
    handleWalletAddressInput "0xabc" w1 = (Ok tt, w2) /\
    handleAmountInput api_500 encode_plain nothing_inherited "25" w2
      = (Ok tt, w3) /\
    ctx_session w3 =
      Some (set_transferState (Some transfer_to_wallet)
              (set_transferState (Some transfer_to_friend) session_of_alice)) /\
    calls w3 =
      fee_config encode_plain "WALLET" "25" (Some "137") ::
      calls (alice_confirms transfer_to_friend) /\
    transfer_ready transfer_to_wallet =
      (negb (String.eqb "0xabc" "") && negb (String.eqb "137" ""))%bool.
Proof.
  apply (wallet_flow_reaches_confirmation api_500 encode_plain nothing_inherited
           "137" "0xabc" "25" (alice_confirms transfer_to_friend) alice
           (set_transferState (Some transfer_to_friend) session_of_alice)).
  - reflexivity.
  - reflexivity.
  - reflexivity.
Defined.

(** ** Computations that keep a part of the world *)

Section Preservation.

Variable R : World -> World -> Prop.
Hypothesis R_refl : forall w, R w w.
Hypothesis R_trans : forall w1 w2 w3, R w1 w2 -> R w2 w3 -> R w1 w3.

Lemma preserves_ret {A} (a : A) : preserves R (ret a).
Proof. intros w. split; [discriminate | apply R_refl]. Qed.

Lemma preserves_throw {A} (e : Error) : preserves R (@throw World A e).
Proof. intros w. split; [discriminate | apply R_refl]. Qed.

Lemma preserves_bind {A B} (m : M World A) (k : A -> M World B) :
  preserves R m -> (forall a, preserves R (k a)) -> preserves R (bind m k).
Proof.
  intros Hm Hk w. unfold bind. destruct (Hm w) as (Hd & Hr).
  destruct (m w) as [[a|e|] w']; cbn in *.
  - destruct (Hk a w') as (Hd' & Hr'). split; [exact Hd' | eauto].
  - split; [discriminate | exact Hr].
  - contradiction.
Qed.

Lemma preserves_try_catch {A} (m : M World A) (h : Error -> M World A) :
  preserves R m -> (forall e, preserves R (h e)) -> preserves R (try_catch m h).
Proof.
  intros Hm Hh w. unfold try_catch. destruct (Hm w) as (Hd & Hr).
  destruct (m w) as [[a|e|] w']; cbn in *.
  - split; [discriminate | exact Hr].
  - destruct (Hh e w') as (Hd' & Hr'). split; [exact Hd' | eauto].
  - contradiction.
Qed.

Lemma preserves_prop (v : JSON) (k : string) : preserves R (@prop World v k).
Proof. destruct v; cbn; (apply preserves_ret || apply preserves_throw). Qed.

Lemma preserves_toLowerCase_of (v : JSON) : preserves R (@toLowerCase_of World v).
Proof. destruct v; cbn; (apply preserves_ret || apply preserves_throw). Qed.

(** A [try] whose handler ends with a value ends with a value. *)
Lemma preserves_returns {A} (m : M World A) (h : Error -> M World A) :
  preserves R m -> (forall e, returns (h e)) -> returns (try_catch m h).
Proof.
  intros Hm Hh w. unfold try_catch. destruct (Hm w) as (Hd & _).
  destruct (m w) as [[a|e|] w']; cbn in *.
  - eauto.
  - apply Hh.
  - contradiction.
Qed.

End Preservation.

Lemma same_session_refl (w : World) : same_session w w.
Proof. reflexivity. Qed.

Lemma same_session_trans (w1 w2 w3 : World) :
  same_session w1 w2 -> same_session w2 w3 -> same_session w1 w3.
Proof. unfold same_session. congruence. Qed.

Lemma keeps_session_step {A} (m : M World A) :
  (forall w, fst (m w) <> Diverge /\ ctx_session (snd (m w)) = ctx_session w) ->
  preserves same_session m.
Proof. intros H w. exact (H w). Qed.

Lemma keeps_session_log (line : string) : preserves same_session (log line).
Proof. apply keeps_session_step. intros w. split; [discriminate | reflexivity]. Qed.

Lemma keeps_session_reply (text : string) (markup : Markup) :
  preserves same_session (reply text markup).
Proof. apply keeps_session_step. intros w. split; [discriminate | reflexivity]. Qed.

Lemma keeps_session_api_call
  (api : Config -> ApiState -> (Response + Error) * ApiState) (c : Config) :
  preserves same_session (api_call api c).
Proof.
  apply keeps_session_step. intros w. unfold api_call.
  destruct (api c (api_state w)) as [[r|e] a]; split; try discriminate; reflexivity.
Qed.

Create HintDb keeps_session.

#[local] Hint Resolve keeps_session_log keeps_session_reply keeps_session_api_call
  : keeps_session.

#[local] Hint Extern 1 (preserves same_session (ret _)) =>
  apply (preserves_ret same_session same_session_refl) : keeps_session.

#[local] Hint Extern 1 (preserves same_session (throw _)) =>
  apply (preserves_throw same_session same_session_refl) : keeps_session.

#[local] Hint Extern 1 (preserves same_session (prop _ _)) =>
  apply (preserves_prop same_session same_session_refl) : keeps_session.

#[local] Hint Extern 1 (preserves same_session (toLowerCase_of _)) =>
  apply (preserves_toLowerCase_of same_session same_session_refl) : keeps_session.

#[local] Hint Extern 1 (preserves same_session (api_get _ _)) =>
  apply keeps_session_api_call : keeps_session.

#[local] Hint Extern 1 (preserves same_session (api_post _ _ _)) =>
  apply keeps_session_api_call : keeps_session.

Ltac keeps_session_step :=
  first
    [ solve [auto with keeps_session]
    | apply (preserves_bind same_session same_session_trans); [|intros ?]
    | apply (preserves_try_catch same_session same_session_trans); [|intros ?]
    | match goal with
      | |- preserves _ (if ?c then _ else _) => destruct c
      | |- preserves _ (match ?x with _ => _ end) => destruct x
      end
    | progress cbv zeta ].

Ltac keeps_session_auto := repeat keeps_session_step.

Section LoginMoreFacts.

Variable api : Config -> ApiState -> (Response + Error) * ApiState.
Variable getTime : JSON -> option Z.
Variable stringify : JSON -> string.

Lemma keeps_session_getKYCStatus : preserves same_session (getKYCStatus api).
Proof. unfold getKYCStatus. keeps_session_auto. Qed.

(** The KYC notice ends with a value and keeps the session. *)
Lemma kyc_notice_run (w : World) :
  exists w', kyc_notice api w = (Ok tt, w') /\ ctx_session w' = ctx_session w.
Proof.
  assert (Hk : preserves same_session (kyc_notice api)).
  { unfold kyc_notice.
    apply (preserves_try_catch same_session same_session_trans).
    - apply (preserves_bind same_session same_session_trans);
        [apply keeps_session_getKYCStatus|].
      intros kycResponse. keeps_session_auto.
    - intros e. apply keeps_session_log. }
  assert (Hr : returns (kyc_notice api)).
  { unfold kyc_notice.
    apply (preserves_returns same_session).
    - apply (preserves_bind same_session same_session_trans);
        [apply keeps_session_getKYCStatus|].
      intros kycResponse. keeps_session_auto.
    - intros e w0. eexists _, _. reflexivity. }
  destruct (Hr w) as ([] & w' & Hrun). destruct (Hk w) as (_ & Hs).
  exists w'. split; [exact Hrun|]. rewrite Hrun in Hs. exact Hs.
Qed.

End LoginMoreFacts.

(** ** The login flow: the reply to the OTP prompt *)

Lemma token_stored_twice_expiry (tok : JSON) (ttl : option Z) (a : ApiState) :
  authToken (token_stored_twice tok ttl a) = tok /\
  tokenExpiry (token_stored_twice tok ttl a) = Some (now a + 24 * 60 * 60 * 1000) /\
  isTokenExpired (token_stored_twice tok ttl a) = false.
Proof.
  unfold token_stored_twice.
  destruct (setAuthToken_run tok ttl (add_console "Authentication successful:" a))
    as (w1 & Hrun1 & _ & _ & _ & Hnow1 & _).
  rewrite Hrun1. cbn [snd].
  destruct (setAuthToken_run tok None w1) as (w2 & Hrun2 & Htok & _ & Hexp & Hnow2 & _).
  rewrite Hrun2. cbn [snd].
  cbn [num_truthy] in Hexp. rewrite Hnow1 in Hexp. cbn [now add_console] in Hexp.
  split; [exact Htok|]. split; [exact Hexp|].
  unfold isTokenExpired. rewrite Hexp, Hnow2, Hnow1. cbn [now add_console].
  unfold DAY_SECONDS, BUFFER_MS.
  destruct (Z.eqb_spec (now a + 24 * 60 * 60 * 1000) 0); [reflexivity|].
  rewrite Z.gtb_ltb. apply Z.ltb_ge. lia.
Qed.

Section OtpFacts.

Variable api : Config -> ApiState -> (Response + Error) * ApiState.
Variable getTime : JSON -> option Z.
Variable stringify : JSON -> string.

Lemma handleOTPInput_no_state (otp : string) (w : World) :
  otp_awaited w = None ->
  handleOTPInput api getTime stringify otp w =
    (Ok tt, add_chat (Reply MSG_INVALID_LOGIN_STATE (Keyboard [["🔑 Login"]])) w).
Proof. intros H. unfold handleOTPInput, bind, gets. rewrite H. reflexivity. Qed.

Lemma handleOTPInput_bad_format (otp email : string) (sid : JSON) (w : World) :
  otp_awaited w = Some (email, sid) -> otpRegex_test otp = false ->
  handleOTPInput api getTime stringify otp w =
    (Ok tt, add_chat (Reply MSG_INVALID_OTP NoMarkup) w).
Proof.
  intros H Hno. unfold handleOTPInput, bind, gets. rewrite H, Hno. reflexivity.
Qed.

(** The call of [authenticateWithOTP] fails: it rethrows the error,
    having written to the console only. *)
Lemma authenticateWithOTP_fails (email otp : string) (sid : JSON) (w : World)
  (e : Error) (a1 : ApiState) :
  api (authenticate_config email otp sid) (before_authenticate (api_state w))
    = (inr e, a1) ->
  exists a2,
    authenticateWithOTP api getTime email otp sid w =
      (Throw e,
       add_call (authenticate_config email otp sid) (set_api_state a2 w)) /\
    authToken a2 = authToken a1 /\ tokenExpiry a2 = tokenExpiry a1.
Proof.
  intros Hcall. unfold authenticateWithOTP.
  unfold bind at 1. unfold log at 1, lift_api, console_log, modify.
  unfold try_catch. unfold bind at 1. unfold api_post.
  fold (authenticate_config email otp sid). unfold api_call.
  cbn [api_state set_api_state]. fold (before_authenticate (api_state w)).
  rewrite Hcall.
  destruct e as [message [r|] config | message | message];
    cbn [error_response];
    try (eexists; split; [reflexivity|]; split; reflexivity).
  destruct (truthy (data r) && truthy (get (data r) "message"))%bool;
    [destruct (isArray (get (data r) "message"))|];
    (eexists; split; [reflexivity|]; split; reflexivity).
Qed.

Lemma handleOTPInput_failed (otp email : string) (sid : JSON) (w : World)
  (e : Error) (a1 : ApiState) :
  otp_awaited w = Some (email, sid) -> otpRegex_test otp = true ->
  api (authenticate_config email otp sid) (before_authenticate (api_state w))
    = (inr e, a1) ->
  exists w',
    handleOTPInput api getTime stringify otp w = (Ok tt, w') /\
    ctx_session w' = ctx_session w /\
    calls w' = authenticate_config email otp sid :: calls w /\
    chat w' =
      Reply "Would you like to request a new OTP?" retry_keyboard ::
      Reply (otp_error_message stringify e) NoMarkup :: chat w /\
    authToken (api_state w') = authToken a1 /\
    tokenExpiry (api_state w') = tokenExpiry a1.
Proof.
  intros H Hyes Hcall. unfold handleOTPInput. unfold bind at 1. unfold gets.
  rewrite H, Hyes. cbn [negb]. unfold try_catch. unfold bind at 1.
  destruct (authenticateWithOTP_fails email otp sid w e a1 Hcall)
    as (a2 & Hrun & Htok & Hexp).
  rewrite Hrun.
  eexists. split; [reflexivity|]. cbn. repeat split; assumption.
Qed.

Lemma typed_user_has_id (user : JSON) :
  typed_user user = true -> exists fields, user = JObj fields.
Proof.
  unfold typed_user. destruct user; cbn; try discriminate. eauto.
Qed.

Lemma handleOTPInput_logged_in (otp email t : string) (sid : JSON) (w : World)
  (s : Session) (r1 r2 : Response) (a1 a2 : ApiState) :
  ctx_session w = Some s ->
  otp_awaited w = Some (email, sid) -> otpRegex_test otp = true ->
  api (authenticate_config email otp sid) (before_authenticate (api_state w))
    = (inl r1, a1) ->
  get (data r1) "accessToken" = JStr t -> t <> "" ->
  api profile_config
    (token_stored_twice (JStr t)
       (ttl_of getTime (get (data r1) "expireAt") (now a1)) a1)
    = (inl r2, a2) ->
  typed_user (data r2) = true ->
  exists w',
    handleOTPInput api getTime stringify otp w = (Ok tt, w') /\
    ctx_session w' =
      Some (set_user (Some (user_of_profile (data r2) (JStr t))) s).
Proof.
  intros Hs H Hyes Hcall Htok Hne Hprofile Htyped.
  assert (Htruthy : truthy (JStr t) = true).
  { cbn. destruct t; [contradiction | reflexivity]. }
  destruct (typed_user_has_id _ Htyped) as (fields & Huser).
  unfold handleOTPInput. unfold bind at 1. unfold gets.
  rewrite H, Hyes. cbn [negb]. unfold try_catch at 1. unfold bind at 1.
  unfold authenticateWithOTP.
  unfold bind at 1. unfold log at 1, lift_api at 1, console_log, modify.
  unfold try_catch at 1. unfold bind at 1. unfold api_post.
  fold (authenticate_config email otp sid). unfold api_call at 1.
  cbn [api_state set_api_state]. fold (before_authenticate (api_state w)).
  rewrite Hcall.
  unfold bind at 1. unfold log at 1, lift_api at 1, console_log, modify.
  cbn [api_state set_api_state add_call].
  assert (Hdata : exists f1, data r1 = JObj f1).
  { destruct (data r1); cbn in Htok; try discriminate. eauto. }
  destruct Hdata as (f1 & Hdata).
  unfold bind at 1. rewrite Hdata. cbn [prop ret].
  rewrite Hdata in Htok. rewrite Htok, Htruthy.
  unfold bind at 1. unfold bind at 1.
  unfold lift_api at 1. unfold gets at 1. cbn [api_state set_api_state now add_console].
  unfold lift_api at 1. cbn [api_state set_api_state].
  destruct (setAuthToken_run (JStr t)
              (if truthy (get (JObj f1) "expireAt")
               then match getTime (get (JObj f1) "expireAt") with
                    | Some ms => Some ((ms - now a1) / 1000)
                    | None => None
                    end
               else None)
              (add_console "Authentication successful:" a1))
    as (b1 & Hset1 & _).
  rewrite Hset1. cbn [ret].
  unfold bind at 1. cbn [prop ret]. rewrite Htok, Htruthy. cbn [negb].
  unfold bind at 1. unfold lift_api at 1. cbn [api_state set_api_state].
  destruct (setAuthToken_run (JStr t) None b1) as (b2 & Hset2 & _).
  rewrite Hset2.
  assert (Hb2 : b2 = token_stored_twice (JStr t)
                       (ttl_of getTime (get (data r1) "expireAt") (now a1)) a1).
  { unfold token_stored_twice, ttl_of. rewrite Hdata, Hset1. cbn [snd].
    rewrite Hset2. reflexivity. }
  unfold bind at 1. unfold getUserProfile, api_get. fold profile_config.
  unfold api_call at 1. cbn [api_state set_api_state]. rewrite Hb2, Hprofile.
  rewrite Huser. unfold bind at 1. cbn [prop ret].
  unfold bind at 1. unfold update_session.
  cbn [ctx_session set_api_state add_call]. rewrite Hs.
  unfold bind at 1. unfold reply at 1, modify.
  match goal with
  | |- context [kyc_notice api ?w0] =>
      destruct (kyc_notice_run api w0) as (w' & Hrun & Hsess)
  end.
  rewrite Hrun. exists w'. split; [reflexivity|]. rewrite Hsess. reflexivity.
Qed.

End OtpFacts.

(** X15. Logging out removes the user from the session and does nothing
    else: the flow states of the session stay as they are, no call is
    made, and the token store of the client is not touched (the token
    of the user who left is still the one the client holds).
    Afterwards the commands of the transfer flow answer that a login is
    needed, and change nothing. *)
Theorem logout_ends_the_session_only :
  forall (api : Config -> ApiState -> (Response + Error) * ApiState)
         (parseFloat : JSON -> FloatSign)
         (w : World) (u : UserSession) (s : Session),
    session_user w = Some u -> ctx_session w = Some s ->
    exists w1,
      logoutHandler w = (Ok tt, w1) /\
      ctx_session w1 = Some (set_user None s) /\
      api_state w1 = api_state w /\ calls w1 = calls w /\
      sendHandler api parseFloat w1 =
        (Ok tt, add_chat (Reply MSG_LOGIN_FIRST (Keyboard [["🔑 Login"]])) w1) /\
      handleTransferConfirm api w1 =
        (Ok tt, add_chat (Reply MSG_LOGIN_FIRST (Keyboard [["🔑 Login"]])) w1).
Proof.
  intros api parseFloat w u s Hu Hs.
  exists (add_chat (Reply MSG_LOGGED_OUT login_keyboard)
            (set_ctx_session (Some (set_user None s)) w)).
  split.
  - unfold logoutHandler, bind, gets. rewrite Hu.
    unfold update_session, reply, modify. rewrite Hs. reflexivity.
  - split; [reflexivity|]. split; [reflexivity|]. split; [reflexivity|].
    split; [apply sendHandler_anonymous | apply confirm_anonymous]; reflexivity.
Qed.

Lemma logout_ends_the_session_only_witness :
  exists w1,
    logoutHandler (alice_confirms transfer_to_friend) = (Ok tt, w1) /\
    ctx_session w1 =
      Some (set_user None
              (set_transferState (Some transfer_to_friend) session_of_alice)) /\
    api_state w1 = api_state (alice_confirms transfer_to_friend) /\
    calls w1 = calls (alice_confirms transfer_to_friend) /\
    sendHandler (api_account "approved") parseFloat_example w1 =
      (Ok tt, add_chat (Reply MSG_LOGIN_FIRST (Keyboard [["🔑 Login"]])) w1) /\
    handleTransferConfirm (api_account "approved") w1 =
      (Ok tt, add_chat (Reply MSG_LOGIN_FIRST (Keyboard [["🔑 Login"]])) w1).
Proof.
  apply (logout_ends_the_session_only (api_account "approved") parseFloat_example
           (alice_confirms transfer_to_friend) alice
           (set_transferState (Some transfer_to_friend) session_of_alice)).
  - reflexivity.
  - reflexivity.
Defined.



(** X17. A cancelled login takes no OTP. After [login:cancel] the flow
    holds no address and no [sid] and awaits no OTP, and no call of the
    API was made. An OTP typed afterwards in reply to either OTP prompt
    is not checked: the handler of text messages does not hand it to
    [handleOTPInput], it answers with the help text, makes no call of
    the API and leaves the session as it is. *)
Theorem cancelled_login_takes_no_otp :
  forall (api : Config -> ApiState -> (Response + Error) * ApiState)
         (getTime : JSON -> option Z) (stringify : JSON -> string)
         (encodeURIComponent : string -> string)
         (inherited : string -> option string)
         (handleDepositAmountInput : string -> M World unit)
         (otp : string) (w : World) (s : Session),
    ctx_session w = Some s ->
    exists w1,
      login_cancel w = (Ok tt, w1) /\
      ctx_session w1 =
        Some (set_authState
                (Some {| auth_email := None; awaitingOTP := false;
                         sid := JUndefined |}) s) /\
      otp_awaited w1 = None /\
      calls w1 = calls w /\
      forall prompt : string,
        prompt = MSG_OTP_SENT \/ prompt = MSG_NEW_OTP_SENT ->
        exists w2,
          on_text_message api getTime stringify encodeURIComponent inherited
            handleDepositAmountInput prompt otp w1 = (Ok tt, w2) /\
          chat w2 = Reply MSG_HELP NoMarkup :: chat w1 /\
          calls w2 = calls w1 /\ ctx_session w2 = ctx_session w1.
Proof.
  intros api getTime stringify encodeURIComponent inherited
    handleDepositAmountInput otp w s Hs.
  eexists. split.
  - unfold login_cancel, bind, modify, editMessageText, reply. rewrite Hs.
    reflexivity.
  - split; [reflexivity|]. split; [reflexivity|]. split; [reflexivity|].
    intros prompt Hprompt.
    unfold on_text_message, on_text, bind, gets.
    destruct Hprompt as [-> | ->].
    + replace (includes MSG_OTP_SENT "enter your email address") with false
        by (vm_compute; reflexivity).
      replace (includes MSG_OTP_SENT "recipient's email address") with false
        by (vm_compute; reflexivity).
      replace (includes MSG_OTP_SENT "recipient wallet address") with false
        by (vm_compute; reflexivity).
      replace (includes MSG_OTP_SENT "amount") with false
        by (vm_compute; reflexivity).
      replace (includes MSG_OTP_SENT "amount you want to deposit") with false
        by (vm_compute; reflexivity).
      rewrite andb_false_r. cbv beta iota.
      change (awaiting_otp _) with false.
      repeat (rewrite ?andb_false_r; cbn [andb]; cbv beta iota).
      eexists. split; [reflexivity|]. repeat split.
    + replace (includes MSG_NEW_OTP_SENT "enter your email address") with false
        by (vm_compute; reflexivity).
      replace (includes MSG_NEW_OTP_SENT "recipient's email address") with false
        by (vm_compute; reflexivity).
      replace (includes MSG_NEW_OTP_SENT "recipient wallet address") with false
        by (vm_compute; reflexivity).
      replace (includes MSG_NEW_OTP_SENT "amount") with false
        by (vm_compute; reflexivity).
      replace (includes MSG_NEW_OTP_SENT "amount you want to deposit") with false
        by (vm_compute; reflexivity).
      rewrite andb_false_r. cbv beta iota.
      change (awaiting_otp _) with false.
      repeat (rewrite ?andb_false_r; cbn [andb]; cbv beta iota).
      eexists. split; [reflexivity|]. repeat split.
Qed.

Lemma cancelled_login_takes_no_otp_witness :
  exists w1,
    login_cancel (world_of fresh_client (Some login_awaiting_otp)) = (Ok tt, w1) /\
    ctx_session w1 =
      Some (set_authState
              (Some {| auth_email := None; awaitingOTP := false;
                       sid := JUndefined |}) login_awaiting_otp) /\
    otp_awaited w1 = None /\
    calls w1 = calls (world_of fresh_client (Some login_awaiting_otp)) /\
    forall prompt : string,
      prompt = MSG_OTP_SENT \/ prompt = MSG_NEW_OTP_SENT ->
      exists w2,
        on_text_message api_login getTime_example stringify_example encode_plain
          nothing_inherited (fun _ => ret tt) prompt "123456" w1 = (Ok tt, w2) /\
        chat w2 = Reply MSG_HELP NoMarkup :: chat w1 /\
        calls w2 = calls w1 /\ ctx_session w2 = ctx_session w1.
Proof.
  apply (cancelled_login_takes_no_otp api_login getTime_example stringify_example
           encode_plain nothing_inherited (fun _ => ret tt)
           "123456" (world_of fresh_client (Some login_awaiting_otp))
           login_awaiting_otp).
  reflexivity.
Defined.





(** ** The handler of text messages *)

Lemma prefix_app (a b s : string) :
  String.prefix (a +:+ b) s = true -> String.prefix a s = true.
Proof.
  revert s. induction a as [|c a IH]; intros s H; [destruct s; reflexivity|].
  rewrite append_cons in H.
  destruct s as [|d s]; [discriminate|].
  cbn [String.prefix] in *.
  destruct (ascii_dec c d); [apply IH; exact H | discriminate].
Qed.

Lemma includes_app (s a b : string) :
  includes s (a +:+ b) = true -> includes s a = true.
Proof.
  induction s as [|c s IH]; cbn [includes]; intros H.
  - apply orb_prop in H as [H | H]; [|discriminate].
    rewrite (prefix_app a b "" H). reflexivity.
  - apply orb_prop in H as [H | H].
    + rewrite (prefix_app a b _ H). reflexivity.
    + rewrite (IH H). apply orb_true_r.
Qed.

(** X20. The prompts of the flows and the tests of the text handler
    agree: a reply to the OTP prompt (the first one or the one of a
    new OTP) while an OTP is awaited is handed to [handleOTPInput], a
    reply to the recipient prompt of an e-mail transfer to the
    [handleEmailInput] of the transfer flow, a reply to either amount
    prompt in a transfer flow to [handleAmountInput]; and a message that
    replies to nothing gets the help text. *)
Theorem text_replies_follow_the_prompts :
  forall (api : Config -> ApiState -> (Response + Error) * ApiState)
         (getTime : JSON -> option Z) (stringify : JSON -> string)
         (encodeURIComponent : string -> string)
         (inherited : string -> option string)
         (handleDepositAmountInput : string -> M World unit)
         (text : string) (w : World),
    let route := on_text_message api getTime stringify encodeURIComponent
                   inherited handleDepositAmountInput in
    (awaiting_otp w = true ->
     route MSG_OTP_SENT text w = handleOTPInput api getTime stringify text w /\
     route MSG_NEW_OTP_SENT text w = handleOTPInput api getTime stringify text w) /\
    (transfer_type_is "EMAIL" w = true ->
     route MSG_ENTER_RECIPIENT text w = transferHandler.handleEmailInput text w) /\
    (has_transferState w = true ->
     route MSG_ENTER_AMOUNT_SEND text w =
       handleAmountInput api encodeURIComponent inherited text w /\
     route MSG_ENTER_AMOUNT_WITHDRAW text w =
       handleAmountInput api encodeURIComponent inherited text w) /\
    route "" text w = (log "Unknown command received:" ;; helpHandler) w.
Proof.
  intros api getTime stringify encodeURIComponent inherited
    handleDepositAmountInput text w route.
  unfold route, on_text_message, on_text.
  split; [intros Hotp; split | split; [intros Hmail | split; [intros Hstate; split|]]];
    unfold bind, gets.
  - replace (includes MSG_OTP_SENT "enter your email address") with false
      by (vm_compute; reflexivity).
    replace (includes MSG_OTP_SENT "enter the OTP") with true
      by (vm_compute; reflexivity).
    replace (negb (String.eqb MSG_OTP_SENT "")) with true
      by (vm_compute; reflexivity).
    rewrite andb_false_r. cbv beta iota. rewrite Hotp. reflexivity.
  - replace (includes MSG_NEW_OTP_SENT "enter your email address") with false
      by (vm_compute; reflexivity).
    replace (includes MSG_NEW_OTP_SENT "enter the OTP") with true
      by (vm_compute; reflexivity).
    replace (negb (String.eqb MSG_NEW_OTP_SENT "")) with true
      by (vm_compute; reflexivity).
    rewrite andb_false_r. cbv beta iota. rewrite Hotp. reflexivity.
  - replace (includes MSG_ENTER_RECIPIENT "enter your email address") with false
      by (vm_compute; reflexivity).
    replace (includes MSG_ENTER_RECIPIENT "enter the OTP") with false
      by (vm_compute; reflexivity).
    replace (includes MSG_ENTER_RECIPIENT "recipient's email address") with true
      by (vm_compute; reflexivity).
    replace (negb (String.eqb MSG_ENTER_RECIPIENT "")) with true
      by (vm_compute; reflexivity).
    repeat (rewrite andb_false_r; cbv beta iota). rewrite Hmail. reflexivity.
  - replace (includes MSG_ENTER_AMOUNT_SEND "enter your email address") with false
      by (vm_compute; reflexivity).
    replace (includes MSG_ENTER_AMOUNT_SEND "enter the OTP") with false
      by (vm_compute; reflexivity).
    replace (includes MSG_ENTER_AMOUNT_SEND "recipient's email address") with false
      by (vm_compute; reflexivity).
    replace (includes MSG_ENTER_AMOUNT_SEND "recipient wallet address") with false
      by (vm_compute; reflexivity).
    replace (includes MSG_ENTER_AMOUNT_SEND "amount") with true
      by (vm_compute; reflexivity).
    replace (negb (String.eqb MSG_ENTER_AMOUNT_SEND "")) with true
      by (vm_compute; reflexivity).
    repeat (rewrite andb_false_r; cbv beta iota). rewrite Hstate. reflexivity.
  - replace (includes MSG_ENTER_AMOUNT_WITHDRAW "enter your email address")
      with false by (vm_compute; reflexivity).
    replace (includes MSG_ENTER_AMOUNT_WITHDRAW "enter the OTP") with false
      by (vm_compute; reflexivity).
    replace (includes MSG_ENTER_AMOUNT_WITHDRAW "recipient's email address")
      with false by (vm_compute; reflexivity).
    replace (includes MSG_ENTER_AMOUNT_WITHDRAW "recipient wallet address")
      with false by (vm_compute; reflexivity).
    replace (includes MSG_ENTER_AMOUNT_WITHDRAW "amount") with true
      by (vm_compute; reflexivity).
    replace (negb (String.eqb MSG_ENTER_AMOUNT_WITHDRAW "")) with true
      by (vm_compute; reflexivity).
    repeat (rewrite andb_false_r; cbv beta iota). rewrite Hstate. reflexivity.
  - reflexivity.
Qed.

Lemma text_replies_follow_the_prompts_witness :
  on_text_message api_login getTime_example stringify_example encode_plain
    nothing_inherited (fun _ => ret tt) MSG_OTP_SENT "123456"
    (world_of fresh_client (Some login_awaiting_otp)) =
  handleOTPInput api_login getTime_example stringify_example "123456"
    (world_of fresh_client (Some login_awaiting_otp)).
Proof.
  apply (proj1 (proj1 (text_replies_follow_the_prompts api_login getTime_example
                         stringify_example encode_plain nothing_inherited
                         (fun _ => ret tt) "123456"
                         (world_of fresh_client (Some login_awaiting_otp)))
                  eq_refl)).
Defined.

(** X21. The amount test of the text handler shadows the one for
    deposits. The handler tests for a transfer flow and the word
    [amount] before it tests for a deposit flow and the words
    [amount you want to deposit]: once the session holds a transfer
    state, even the empty one, no text message is handed to the
    deposit handler. Whatever that handler is, the outcome is the
    same. *)
Theorem deposit_amount_is_shadowed :
  forall (api : Config -> ApiState -> (Response + Error) * ApiState)
         (getTime : JSON -> option Z) (stringify : JSON -> string)
         (encodeURIComponent : string -> string)
         (inherited : string -> option string)
         (deposit1 deposit2 : string -> M World unit)
         (replyText text : string) (w : World),
    has_transferState w = true ->
    on_text_message api getTime stringify encodeURIComponent inherited
      deposit1 replyText text w =
    on_text_message api getTime stringify encodeURIComponent inherited
      deposit2 replyText text w.
Proof.
  intros api getTime stringify encodeURIComponent inherited deposit1 deposit2
    replyText text w Hstate.
  unfold on_text_message, on_text, bind, gets.
  destruct (negb (String.eqb replyText "") && awaiting_email w &&
            includes replyText "enter your email address")%bool; [reflexivity|].
  cbv beta iota.
  destruct (negb (String.eqb replyText "") && awaiting_otp w &&
            includes replyText "enter the OTP")%bool; [reflexivity|].
  cbv beta iota.
  destruct (negb (String.eqb replyText "") && transfer_type_is "EMAIL" w &&
            includes replyText "recipient's email address")%bool; [reflexivity|].
  cbv beta iota.
  destruct (negb (String.eqb replyText "") && transfer_type_is "WALLET" w &&
            includes replyText "recipient wallet address")%bool; [reflexivity|].
  cbv beta iota.
  rewrite Hstate.
  destruct (negb (String.eqb replyText "") && true &&
            includes replyText "amount")%bool eqn:Hamount; [reflexivity|].
  cbv beta iota.
  assert (Hno : (negb (String.eqb replyText "") && has_depositState w &&
                 includes replyText "amount you want to deposit")%bool = false).
  { destruct (includes replyText "amount you want to deposit") eqn:Hd;
      [|apply andb_false_r].
    change "amount you want to deposit"
      with ("amount" +:+ " you want to deposit") in Hd.
    rewrite (includes_app _ _ _ Hd), andb_true_r, andb_true_r in Hamount.
    rewrite Hamount. reflexivity. }
  rewrite Hno. reflexivity.
Qed.

Lemma deposit_amount_is_shadowed_witness :
  on_text_message api_500 getTime_example stringify_example encode_plain
    nothing_inherited (fun _ => ret tt)
    "Please enter the amount you want to deposit:" "50"
    (alice_confirms empty_transferState) =
  on_text_message api_500 getTime_example stringify_example encode_plain
    nothing_inherited (fun _ => throw (JsError "deposit"))
    "Please enter the amount you want to deposit:" "50"
    (alice_confirms empty_transferState).
Proof.
  apply (deposit_amount_is_shadowed api_500 getTime_example stringify_example
           encode_plain nothing_inherited (fun _ => ret tt)
           (fun _ => throw (JsError "deposit"))
           "Please enter the amount you want to deposit:" "50"
           (alice_confirms empty_transferState)).
  reflexivity.
Defined.

(** ** The services of deposits and of batches *)

Lemma talks_only_properties_of (messages : list JSON) :
  talks_only (properties_of messages).
Proof.
  induction messages as [|m rest IH]; cbn [properties_of].
  - apply talks_only_ret.
  - apply talks_only_bind; [apply talks_only_prop|]. intros p.
    apply talks_only_bind; [apply IH|]. intros more. apply talks_only_ret.
Qed.

#[local] Hint Resolve talks_only_properties_of : talks_only.

Lemma valid_chain_number (chain : string) :
  existsb (String.eqb chain) validChainIds = true ->
  In chain validChainIds /\ In (parseInt_digits chain) valid_chain_numbers.
Proof.
  unfold validChainIds. cbn [existsb]. intros H.
  repeat (apply orb_prop in H as [H | H];
          [apply String.eqb_eq in H; subst chain; split; vm_compute; tauto |]).
  discriminate H.
Qed.

(** X22. [createDeposit] validates before it calls. An amount that is
    not a number or is below one, or a chain id outside the supported
    list, makes it throw its own validation error with no call made and
    nothing written. With an amount of at least one and a supported
    chain id it makes exactly one call, the post of the deposit, whose
    chain id is the number of one of the eight supported chains;
    whatever the API answers, no further call follows. *)
Theorem createDeposit_validates_first :
  forall (api : Config -> ApiState -> (Response + Error) * ApiState)
         (below_one : string -> bool) (sum chain : string) (w : World),
    (below_one sum = true ->
     createDeposit api below_one sum chain w
       = (Throw (JsError MSG_AMOUNT_BELOW_ONE), w)) /\
    (below_one sum = false ->
     existsb (String.eqb chain) validChainIds = false ->
     createDeposit api below_one sum chain w
       = (Throw (JsError MSG_INVALID_CHAIN), w)) /\
    (below_one sum = false ->
     existsb (String.eqb chain) validChainIds = true ->
     calls (snd (createDeposit api below_one sum chain w))
       = deposit_config sum chain :: calls w /\
     In (parseInt_digits chain) valid_chain_numbers /\
     fst (createDeposit api below_one sum chain w) <> Diverge).
Proof.
  intros api below_one sum chain w. split; [|split].
  - intros Hlow. unfold createDeposit, try_catch. rewrite Hlow. reflexivity.
  - intros Hok Hbad. unfold createDeposit, try_catch. rewrite Hok, Hbad.
    reflexivity.
  - intros Hok Hgood. destruct (valid_chain_number chain Hgood) as (_ & Hnum).
    assert (Hrun : exists r w',
               createDeposit api below_one sum chain w = (r, w') /\
               calls w' = deposit_config sum chain :: calls w /\
               r <> Diverge).
    { unfold createDeposit, try_catch. rewrite Hok, Hgood. cbn [negb].
      unfold bind at 1. unfold log at 1, lift_api, console_log, modify.
      unfold api_post. fold (deposit_config sum chain). unfold api_call.
      cbn [api_state set_api_state].
      destruct (api (deposit_config sum chain) _) as [[response|e] a].
      + eexists _, _. split; [reflexivity|]. split; [reflexivity | discriminate].
      + match goal with
        | |- context [?h ?w0 = _] =>
            match type of h with
            | M World Response => assert (Hh : talks_only h)
            end
        end.
        { destruct (negb (String.eqb (error_message e) "") &&
                    includes (error_message e) "Validation error")%bool;
            [apply talks_only_throw|].
          talks_only_auto. }
        match goal with
        | |- context [?h ?w0 = _] =>
            match type of h with
            | M World Response =>
                destruct (Hh w0) as (Hd & _ & Hc); destruct (h w0) as [r w']
            end
        end.
        exists r, w'. split; [reflexivity|]. split; [exact Hc | exact Hd]. }
    destruct Hrun as (r & w' & Hrun & Hc & Hd). rewrite Hrun.
    split; [exact Hc|]. split; [exact Hnum | exact Hd].
Qed.

Lemma createDeposit_validates_first_witness :
  createDeposit api_500 below_one_example "0.5" "137"
    (world_of fresh_client None)
  = (Throw (JsError MSG_AMOUNT_BELOW_ONE), world_of fresh_client None).
Proof.
  apply (proj1 (createDeposit_validates_first api_500 below_one_example
                  "0.5" "137" (world_of fresh_client None))).
  reflexivity.
Defined.

Section BatchFacts.

Variable api : Config -> ApiState -> (Response + Error) * ApiState.
Variable ok : string -> bool.
Variable reason : string -> string.
Hypothesis api_answers : answers_by api ok reason.

Lemma checks_of_cons (transfer : BatchTransfer) (rest : list BatchTransfer) :
  checks_of (transfer :: rest) =
    (checks_of rest ++ [check_recipient_config (batch_email transfer)])%list.
Proof. reflexivity. Qed.

(** One turn of the loop. *)
Lemma check_recipient_turn (transfer : BatchTransfer) (w : World) :
  exists w1,
    checkRecipientEligibility api (batch_email transfer) w =
      (Ok (if ok (batch_email transfer) then eligible
           else not_eligible (reason (batch_email transfer))), w1) /\
    calls w1 = check_recipient_config (batch_email transfer) :: calls w.
Proof.
  destruct (api_answers (batch_email transfer) (api_state w)) as (a' & Hcall).
  rewrite (checkRecipientEligibility_primary api _ w _ a' Hcall).
  eexists. split; reflexivity.
Qed.

Lemma check_recipients_all_ok (transfers : list BatchTransfer) :
  all_ok ok transfers = true ->
  forall w, exists w',
    check_recipients api transfers w = (Ok tt, w') /\
    calls w' = (checks_of transfers ++ calls w)%list.
Proof.
  induction transfers as [|transfer rest IH]; intros Hall w.
  - exists w. split; reflexivity.
  - cbn [all_ok forallb] in Hall. apply andb_prop in Hall as [Hok Hrest].
    destruct (check_recipient_turn transfer w) as (w1 & Hrun & Hc1).
    destruct (IH Hrest w1) as (w' & Hloop & Hc').
    exists w'. split.
    + cbn [check_recipients]. unfold bind at 1. rewrite Hrun, Hok.
      unfold bind at 1. cbn. exact Hloop.
    + rewrite Hc', Hc1, checks_of_cons, <- app_assoc. reflexivity.
Qed.

Lemma check_recipients_rejected (before after : list BatchTransfer)
  (transfer : BatchTransfer) :
  all_ok ok before = true -> ok (batch_email transfer) = false ->
  forall w, exists w',
    check_recipients api (before ++ transfer :: after) w =
      (Throw (JsError ("Recipient " +:+ batch_email transfer +:+
                       " is not eligible: " +:+ reason (batch_email transfer))),
       w') /\
    calls w' = (checks_of (before ++ [transfer]) ++ calls w)%list.
Proof.
  induction before as [|first rest IH]; intros Hall Hno w.
  - destruct (check_recipient_turn transfer w) as (w1 & Hrun & Hc1).
    exists w1. split.
    + cbn [app check_recipients]. unfold bind at 1. rewrite Hrun, Hno.
      reflexivity.
    + rewrite Hc1. reflexivity.
  - cbn [all_ok forallb] in Hall. apply andb_prop in Hall as [Hok Hrest].
    destruct (check_recipient_turn first w) as (w1 & Hrun & Hc1).
    destruct (IH Hrest Hno w1) as (w' & Hloop & Hc').
    exists w'. split.
    + cbn [app check_recipients]. unfold bind at 1. rewrite Hrun, Hok.
      unfold bind at 1. cbn. exact Hloop.
    + rewrite Hc', Hc1. cbn [app]. rewrite checks_of_cons, <- app_assoc.
      reflexivity.
Qed.

End BatchFacts.

(** X23. A batch is sent whole or not at all, and the recipients are
    checked in order. With an eligibility endpoint that answers by a
    rule: when every recipient is eligible, [sendBatch] checks each one
    once, in the order of the list, and then posts the batch, one
    request per transfer; when one is not, it throws the error that
    names the first such recipient and the reason given for it, the
    recipients after that one are not checked, and nothing is posted. *)
Theorem sendBatch_all_or_nothing :
  forall (api : Config -> ApiState -> (Response + Error) * ApiState)
         (ok : string -> bool) (reason : string -> string),
    answers_by api ok reason ->
    (forall (transfers : list BatchTransfer) (w : World),
        all_ok ok transfers = true ->
        calls (snd (sendBatch api transfers w)) =
          (batch_config transfers :: checks_of transfers ++ calls w)%list /\
        fst (sendBatch api transfers w) <> Diverge /\
        get (body (batch_config transfers)) "requests" =
          JArr (imap batch_request transfers) /\
        length (imap batch_request transfers) = length transfers) /\
    (forall (before after : list BatchTransfer) (transfer : BatchTransfer)
            (w : World),
        all_ok ok before = true -> ok (batch_email transfer) = false ->
        fst (sendBatch api (before ++ transfer :: after) w) =
          Throw (JsError ("Recipient " +:+ batch_email transfer +:+
                          " is not eligible: " +:+
                          reason (batch_email transfer))) /\
        calls (snd (sendBatch api (before ++ transfer :: after) w)) =
          (checks_of (before ++ [transfer]) ++ calls w)%list).
Proof.
  intros api ok reason Hapi. split.
  - intros transfers w Hall.
    destruct (check_recipients_all_ok api ok reason Hapi transfers Hall w)
      as (w' & Hloop & Hc).
    unfold sendBatch, bind. rewrite Hloop. unfold api_post.
    fold (batch_config transfers). unfold api_call.
    destruct (api (batch_config transfers) (api_state w')) as [[r|e] a]; cbn;
      rewrite Hc; (split; [reflexivity|]); (split; [discriminate|]);
      (split; [reflexivity | apply length_imap]).
  - intros before after transfer w Hall Hno.
    destruct (check_recipients_rejected api ok reason Hapi before after transfer
                Hall Hno w) as (w' & Hloop & Hc).
    unfold sendBatch, bind. rewrite Hloop. cbn. split; [reflexivity | exact Hc].
Qed.

Lemma api_knows_friend_answers :
  answers_by api_knows_friend knows_friend (fun _ => "unknown recipient").
Proof. intros email a. exists a. reflexivity. Qed.

Lemma sendBatch_all_or_nothing_witness :
  fst (sendBatch api_knows_friend ([to_friend] ++ to_stranger :: [to_friend])
         (world_of fresh_client None)) =
    Throw (JsError ("Recipient " +:+ batch_email to_stranger +:+
                    " is not eligible: " +:+ "unknown recipient")) /\
  calls (snd (sendBatch api_knows_friend ([to_friend] ++ to_stranger :: [to_friend])
                (world_of fresh_client None))) =
    (checks_of ([to_friend] ++ [to_stranger]) ++
     calls (world_of fresh_client None))%list.
Proof.
  apply (proj2 (sendBatch_all_or_nothing api_knows_friend knows_friend
                  (fun _ => "unknown recipient") api_knows_friend_answers)
           [to_friend] [to_friend] to_stranger (world_of fresh_client None)).
  - reflexivity.
  - reflexivity.
Defined.

(** ** The middleware *)

Lemma session_seen_chat (id : Z) (b : Bot) :
  id <> 0 -> session_seen (Some id) b = Some (default empty_session (sessions b !! id)).
Proof.
  intros Hid. unfold session_seen.
  destruct (Z.eqb_spec id 0); [contradiction | reflexivity].
Qed.

(** X24. The session of a chat survives from one update to the next,
    and belongs to that chat alone. When the handlers of an update of
    chat [id] end normally with the session [s1], the next update of
    that chat starts with [s1]. When they throw, what they had assigned
    to the session so far is kept if the chat had a stored session (it
    is the stored object they changed) and lost if the session was new.
    In both cases the middleware ends as the handlers did, and the
    session any other chat starts with is what it was. *)
Theorem session_survives_between_updates :
  forall (id : Z) (next : M World unit) (b : Bot)
         (r : Res unit) (w1 : World) (s1 : Session),
    id <> 0 ->
    next (world_in b (session_seen (Some id) b)) = (r, w1) ->
    ctx_session w1 = Some s1 ->
    fst (sessionMiddleware (Some id) next b) = r /\
    (r = Ok tt ->
     session_seen (Some id) (snd (sessionMiddleware (Some id) next b)) = Some s1) /\
    (r <> Ok tt ->
     session_seen (Some id) (snd (sessionMiddleware (Some id) next b)) =
       Some (match sessions b !! id with
             | Some _ => s1
             | None => empty_session
             end)) /\
    (forall j : Z,
        j <> id ->
        session_seen (Some j) (snd (sessionMiddleware (Some id) next b)) =
          session_seen (Some j) b).
Proof.
  intros id next b r w1 s1 Hid Hrun Hs1.
  rewrite (session_seen_chat id b Hid) in Hrun.
  assert (Hother : forall (m : gmap Z Session) (j : Z),
             j <> id -> m !! j = sessions b !! j ->
             session_seen (Some j) (bot_after m w1) = session_seen (Some j) b).
  { intros m j Hj Hm. unfold session_seen. cbn [sessions bot_after].
    rewrite Hm. reflexivity. }
  unfold sessionMiddleware.
  destruct (Z.eqb_spec id 0) as [|_]; [contradiction|].
  rewrite Hrun, Hs1.
  destruct r as [[]|e|].
  - cbn [fst snd]. split; [reflexivity|]. split; [|split].
    + intros _. rewrite session_seen_chat by exact Hid. cbn [sessions bot_after].
      rewrite lookup_insert_eq. reflexivity.
    + intros H. contradiction.
    + intros j Hj. apply Hother; [exact Hj|].
      apply lookup_insert_ne. congruence.
  - cbn [fst snd]. split; [reflexivity|]. split; [|split].
    + intros H. discriminate H.
    + intros _. rewrite session_seen_chat by exact Hid. cbn [sessions bot_after].
      destruct (sessions b !! id) as [s0|] eqn:Hstored.
      * rewrite lookup_insert_eq. reflexivity.
      * rewrite Hstored. reflexivity.
    + intros j Hj. apply Hother; [exact Hj|].
      destruct (sessions b !! id); [|reflexivity].
      apply lookup_insert_ne. congruence.
  - cbn [fst snd]. split; [reflexivity|]. split; [|split].
    + intros H. discriminate H.
    + intros _. rewrite session_seen_chat by exact Hid. cbn [sessions bot_after].
      destruct (sessions b !! id) as [s0|] eqn:Hstored.
      * rewrite lookup_insert_eq. reflexivity.
      * rewrite Hstored. reflexivity.
    + intros j Hj. apply Hother; [exact Hj|].
      destruct (sessions b !! id); [|reflexivity].
      apply lookup_insert_ne. congruence.
Qed.

Lemma session_survives_between_updates_witness :
  session_seen (Some 42) (snd (sessionMiddleware (Some 42) login_then_fail fresh_bot))
  = Some (match sessions fresh_bot !! 42 with
          | Some _ => login_started
          | None => empty_session
          end).
Proof.
  apply (proj1 (proj2 (proj2
           (session_survives_between_updates 42 login_then_fail fresh_bot
              (Throw (JsError "later"))
              (add_chat (Reply MSG_ENTER_EMAIL (ForceReply "Enter your email"))
                 (set_ctx_session (Some login_started)
                    (world_in fresh_bot (Some empty_session))))
              login_started
              ltac:(discriminate) eq_refl eq_refl)))).
  discriminate.
Defined.

Section AuthMiddlewareFacts.

Variable refresh : M ApiState (option TokenInfo).

Lemma authMiddleware_anonymous (next : M World unit) (w : World) :
  session_user w = None -> authMiddleware refresh next w = next w.
Proof.
  intros Hu. unfold authMiddleware. unfold bind at 1. unfold bind at 1.
  unfold gets. rewrite Hu. reflexivity.
Qed.

Lemma authMiddleware_fresh (next : M World unit) (w : World) (u : UserSession) :
  session_user w = Some u -> isTokenExpired (api_state w) = false ->
  authMiddleware refresh next w = next (after_checkAuth u w).
Proof.
  intros Hu Hfresh. unfold authMiddleware. unfold bind at 1. unfold bind at 1.
  unfold gets at 1. rewrite Hu. unfold bind at 1.
  unfold lift_api at 1. unfold gets at 1. cbn [fst snd]. rewrite Hfresh.
  unfold lift_api, after_checkAuth.
  destruct (setAuthToken_run (JStr (user_token u)) None (api_state w))
    as (a & Hrun & _).
  destruct w as [aw sess ch cl]. cbn [api_state set_api_state] in *.
  rewrite Hrun. reflexivity.
Qed.

End AuthMiddlewareFacts.

(** X25. Every update of a logged-in chat re-arms the client with the
    token of that chat. While the stored token is not seen as expired,
    [authMiddleware] stores the token of the session afresh before the
    handlers run: they start in a state in which the client holds the
    token of this chat, whatever chat's token it held before, with an
    expiry of 24 hours from now, so not expired. A chat that is not
    logged in passes through unchanged. *)
Theorem authMiddleware_rearms_the_client :
  forall (refresh : M ApiState (option TokenInfo)) (next : M World unit)
         (w : World),
    (session_user w = None -> authMiddleware refresh next w = next w) /\
    (forall u : UserSession,
        session_user w = Some u -> isTokenExpired (api_state w) = false ->
        authMiddleware refresh next w = next (after_checkAuth u w) /\
        authToken (api_state (after_checkAuth u w)) = JStr (user_token u) /\
        tokenExpiry (api_state (after_checkAuth u w)) =
          Some (now (api_state w) + 24 * 60 * 60 * 1000) /\
        isTokenExpired (api_state (after_checkAuth u w)) = false /\
        ctx_session (after_checkAuth u w) = ctx_session w).
Proof.
  intros refresh next w. split; [apply authMiddleware_anonymous|].
  intros u Hu Hfresh. split; [apply authMiddleware_fresh; assumption|].
  unfold after_checkAuth. cbn [api_state set_api_state ctx_session].
  destruct (setAuthToken_run (JStr (user_token u)) None (api_state w))
    as (a & Hrun & Htok & _ & Hexp & Hnow & _).
  rewrite Hrun. cbn [snd]. cbn [num_truthy] in Hexp.
  split; [exact Htok|]. split; [exact Hexp|]. split; [|reflexivity].
  unfold isTokenExpired. rewrite Hexp, Hnow. unfold DAY_SECONDS, BUFFER_MS.
  destruct (Z.eqb_spec (now (api_state w) + 24 * 60 * 60 * 1000) 0);
    [reflexivity|].
  rewrite Z.gtb_ltb. apply Z.ltb_ge. lia.
Qed.

Lemma authMiddleware_rearms_the_client_witness :
  authMiddleware (ret None) (ret tt)
    (world_of (client_with_token 1000 10000000) (Some session_of_alice)) =
  ret tt (after_checkAuth alice
            (world_of (client_with_token 1000 10000000) (Some session_of_alice))).
Proof.
  apply (proj1 (proj2 (authMiddleware_rearms_the_client (ret None) (ret tt)
                         (world_of (client_with_token 1000 10000000)
                            (Some session_of_alice)))
                  alice eq_refl eq_refl)).
Defined.

(** X26. Once the stored token is seen as expired, no update of a
    logged-in chat is handled. [authMiddleware] calls [refreshToken],
    which posts through the client, whose interceptor calls
    [refreshToken] again: whatever the budget and the network, the
    middleware does not end, the handlers that follow it are never
    run, and nothing is sent, said or changed in the session. *)
Theorem expired_token_blocks_every_update :
  forall (fuel : nat) (env : Env) (next : M World unit)
         (w : World) (u : UserSession),
    session_user w = Some u ->
    truthy (authToken (api_state w)) = true ->
    isTokenExpired (api_state w) = true ->
    let out := authMiddleware (refreshToken env (request fuel env)) next w in
    fst out = Diverge /\
    sent (api_state (snd out)) = sent (api_state w) /\
    chat (snd out) = chat w /\ calls (snd out) = calls w /\
    ctx_session (snd out) = ctx_session w.
Proof.
  intros fuel env next w u Hu Ht He out.
  assert (Hrun : exists w',
             authMiddleware (refreshToken env (request fuel env)) next w
               = (Diverge, w') /\
             sent (api_state w') = sent (api_state w) /\
             chat w' = chat w /\ calls w' = calls w /\
             ctx_session w' = ctx_session w).
  { unfold authMiddleware.
    unfold bind at 1. unfold bind at 1. unfold gets at 1. rewrite Hu.
    unfold bind at 1. unfold lift_api at 1. unfold gets at 1. cbn [fst snd].
    rewrite He. unfold bind at 1.
    unfold log at 1, lift_api at 1, console_log, modify.
    cbn [api_state set_api_state].
    unfold try_catch at 1. unfold bind at 1. unfold lift_api at 1.
    cbn [api_state set_api_state].
    destruct (request_expired_diverges env fuel refresh_config
                (add_console "Session token expired, attempting to refresh..."
                   (api_state w)) Ht He)
      as (a' & Hreq & Hs & _).
    rewrite (refreshToken_diverges env (request fuel env) _ a' Hreq).
    eexists. split; [reflexivity|]. cbn. repeat split. exact Hs. }
  destruct Hrun as (w' & Hrun & H1 & H2 & H3 & H4).
  unfold out. rewrite Hrun. cbn [fst snd]. repeat split; assumption.
Qed.

Lemma expired_token_blocks_every_update_witness :
  fst (authMiddleware (refreshToken env_ok (request 30 env_ok)) (ret tt)
         (world_of (client_with_token 400000 1000) (Some session_of_alice)))
  = Diverge.
Proof.
  apply (expired_token_blocks_every_update 30 env_ok (ret tt)
           (world_of (client_with_token 400000 1000) (Some session_of_alice))
           alice eq_refl eq_refl eq_refl).
Defined.

(** ** The notification bridge: keys and their subscriptions *)

Lemma pretty_N_char_colon_free (n : N) :
  Ascii.eqb (pretty_N_char n) ":" = false.
Proof.
  destruct n as [|p]; [reflexivity|].
  do 4 (destruct p as [p|p|]; try reflexivity).
Qed.

Lemma pretty_N_go_colon_free (x : N) :
  forall s, colon_free s = true -> colon_free (pretty_N_go x s) = true.
Proof.
  induction x as [x IH] using (well_founded_ind N.lt_wf_0). intros s Hs.
  destruct (N.eq_dec x 0%N) as [->|Hx].
  - rewrite pretty_N_go_0. exact Hs.
  - rewrite pretty_N_go_step by lia. apply IH.
    + apply N.div_lt; lia.
    + cbn [colon_free]. rewrite pretty_N_char_colon_free, Hs. reflexivity.
Qed.

Lemma pretty_Z_colon_free (z : Z) : colon_free (pretty z) = true.
Proof.
  assert (HN : forall n : N, colon_free (pretty n) = true).
  { intros n. unfold pretty, pretty_N. destruct (decide (n = 0%N)); [reflexivity|].
    apply pretty_N_go_colon_free. reflexivity. }
  destruct z as [|p|p].
  - reflexivity.
  - apply (HN (N.pos p)).
  - change (pretty (Z.neg p)) with ("-" +:+ pretty (N.pos p)).
    rewrite append_cons, append_nil. cbn [colon_free].
    rewrite (HN (N.pos p)). reflexivity.
Qed.

(** A text is cut at its first colon in one way only. *)
Lemma cut_at_colon (a a' b b' : string) :
  colon_free a = true -> colon_free a' = true ->
  a +:+ ":" +:+ b = a' +:+ ":" +:+ b' -> a = a' /\ b = b'.
Proof.
  revert a'. induction a as [|c a IH]; intros a' Ha Ha' H.
  - destruct a' as [|c' a'].
    + rewrite !append_nil in H. injection H as H. split; [reflexivity | exact H].
    + rewrite append_nil, !append_cons in H. rewrite append_nil in H.
      injection H as Hc _. subst c'. cbn in Ha'. discriminate Ha'.
  - destruct a' as [|c' a'].
    + rewrite append_nil, !append_cons in H. rewrite append_nil in H.
      injection H as Hc _. subst c. cbn in Ha. discriminate Ha.
    + rewrite !append_cons in H. injection H as Hc H. subst c'.
      cbn [colon_free] in Ha, Ha'.
      apply andb_prop in Ha as [_ Ha]. apply andb_prop in Ha' as [_ Ha'].
      destruct (IH a' Ha Ha' H) as (-> & ->). split; reflexivity.
Qed.

Lemma instanceKey_inj (chat1 chat2 : Z) (org1 org2 : string) :
  instanceKey chat1 org1 = instanceKey chat2 org2 ->
  chat1 = chat2 /\ org1 = org2.
Proof.
  unfold instanceKey. intros H.
  destruct (cut_at_colon _ _ _ _ (pretty_Z_colon_free chat1)
              (pretty_Z_colon_free chat2) H) as (Hc & Ho).
  split; [apply (inj pretty); exact Hc | exact Ho].
Qed.

Section MoreBridgeFacts.

Variable apiBaseUrl : string.
Variable provider_accepts : list Pusher -> bool.

(** Where the provider refuses the client, arming changes neither the
    registry nor the clients. *)
Lemma initializeUserPusher_refused (chatId : Z) (token org : string) (w : Bridge) :
  activePusherInstances w !! instanceKey chatId org = None ->
  provider_accepts (pushers w) = false ->
  exists w1,
    initializeUserPusher apiBaseUrl provider_accepts chatId token org w
      = (Ok tt, w1) /\
    pushers w1 = pushers w /\
    activePusherInstances w1 = activePusherInstances w.
Proof.
  intros H Hacc. unfold initializeUserPusher, bind, gets. rewrite H.
  unfold try_catch, bind, bridge_log, bridge_lift, console_log, modify.
  cbn [bridge_api set_bridge_api].
  destruct (setAuthToken_run (JStr token) None
              (add_console "Initializing Pusher for user " (bridge_api w)))
    as (a & Hrun & _).
  rewrite Hrun. unfold new_subscribed_Pusher. cbn [pushers set_bridge_api].
  rewrite Hacc. eexists. split; [reflexivity|]. split; reflexivity.
Qed.

(** Arming a key: what it does to the registry and to the clients, in
    every state. *)
Lemma initializeUserPusher_effect (chatId : Z) (token org : string) (w : Bridge) :
  exists w1,
    initializeUserPusher apiBaseUrl provider_accepts chatId token org w
      = (Ok tt, w1) /\
    (forall key, key <> instanceKey chatId org ->
       activePusherInstances w1 !! key = activePusherInstances w !! key) /\
    (forall i, (i < length (pushers w))%nat -> pushers w1 !! i = pushers w !! i).
Proof.
  destruct (activePusherInstances w !! instanceKey chatId org) as [p|] eqn:Hreg.
  - rewrite (initializeUserPusher_registered apiBaseUrl provider_accepts
               chatId token org w p Hreg).
    eexists. split; [reflexivity|]. split; intros; reflexivity.
  - destruct (provider_accepts (pushers w)) eqn:Hacc.
    + destruct (initializeUserPusher_fresh apiBaseUrl provider_accepts
                  chatId token org w Hreg Hacc) as (w1 & Hrun & Hp & Hm).
      exists w1. split; [exact Hrun|]. split.
      * intros key Hkey. rewrite Hm. apply lookup_insert_ne. congruence.
      * intros i Hi. rewrite Hp. apply lookup_app_l. exact Hi.
    + destruct (initializeUserPusher_refused chatId token org w Hreg Hacc)
        as (w1 & Hrun & Hp & Hm).
      exists w1. split; [exact Hrun|]. rewrite Hp, Hm.
      split; intros; reflexivity.
Qed.

Lemma cleanupUserPusher_unregistered (chatId : Z) (org : string) (w : Bridge) :
  activePusherInstances w !! instanceKey chatId org = None ->
  cleanupUserPusher chatId org w = (Ok tt, w).
Proof.
  intros H. unfold cleanupUserPusher, bind, gets. rewrite H. reflexivity.
Qed.

End MoreBridgeFacts.

(** X27. Subscriptions are kept per chat and organization. The key of
    the registry determines the chat and the organization: two pairs
    that differ never share a key. Hence arming one pair, whether it
    creates a client, finds one or fails, leaves the registered
    subscription of every other pair and every client that existed
    as they were; and so does disarming, but for the one client
    registered under the pair disarmed. *)
Theorem subscriptions_are_per_chat_and_organization :
  forall (chat1 chat2 : Z) (org1 org2 : string),
    (instanceKey chat1 org1 = instanceKey chat2 org2 ->
     chat1 = chat2 /\ org1 = org2) /\
    ((chat1, org1) <> (chat2, org2) ->
     forall (apiBaseUrl token : string) (provider_accepts : list Pusher -> bool)
            (w : Bridge),
       (activePusherInstances
          (snd (initializeUserPusher apiBaseUrl provider_accepts
                  chat1 token org1 w)) !! instanceKey chat2 org2
        = activePusherInstances w !! instanceKey chat2 org2) /\
       (forall i, (i < length (pushers w))%nat ->
          pushers (snd (initializeUserPusher apiBaseUrl provider_accepts
                          chat1 token org1 w)) !! i = pushers w !! i) /\
       (activePusherInstances (snd (cleanupUserPusher chat1 org1 w))
          !! instanceKey chat2 org2
        = activePusherInstances w !! instanceKey chat2 org2) /\
       (forall i,
          activePusherInstances w !! instanceKey chat1 org1 <> Some i ->
          pushers (snd (cleanupUserPusher chat1 org1 w)) !! i = pushers w !! i)).
Proof.
  intros chat1 chat2 org1 org2. split; [apply instanceKey_inj|].
  intros Hpair apiBaseUrl token provider_accepts w.
  assert (Hkey : instanceKey chat2 org2 <> instanceKey chat1 org1).
  { intros H. apply instanceKey_inj in H as (-> & ->). apply Hpair. reflexivity. }
  destruct (initializeUserPusher_effect apiBaseUrl provider_accepts
              chat1 token org1 w) as (w1 & Hrun & Hm & Hp).
  rewrite Hrun. cbn [snd].
  split; [apply Hm; exact Hkey|]. split; [exact Hp|].
  destruct (activePusherInstances w !! instanceKey chat1 org1) as [p|] eqn:Hreg.
  - destruct (cleanupUserPusher_registered chat1 org1 w p Hreg)
      as (w3 & Hrun3 & Hm3 & Hp3).
    rewrite Hrun3. cbn [snd]. split.
    + rewrite Hm3. apply lookup_delete_ne. congruence.
    + intros i Hi. rewrite Hp3. apply list_lookup_alter_ne. congruence.
  - rewrite (cleanupUserPusher_unregistered chat1 org1 w Hreg). cbn [snd].
    split; [reflexivity | intros; reflexivity].
Qed.

Lemma subscriptions_are_per_chat_and_organization_witness :
  activePusherInstances
    (snd (initializeUserPusher "https://api" always_accepts 1 "T" "2:x"
            (snd (initializeUserPusher "https://api" always_accepts 12 "T" "x"
                    fresh_bridge)))) !! instanceKey 12 "x"
  = activePusherInstances
      (snd (initializeUserPusher "https://api" always_accepts 12 "T" "x"
              fresh_bridge)) !! instanceKey 12 "x".
Proof.
  apply (proj1 (proj2 (subscriptions_are_per_chat_and_organization 1 12 "2:x" "x")
                  ltac:(discriminate) "https://api" "T" always_accepts
                  (snd (initializeUserPusher "https://api" always_accepts 12 "T" "x"
                          fresh_bridge)))).
Defined.

Section DisarmFacts.

Variable apiBaseUrl : string.
Variable provider_accepts : list Pusher -> bool.

(** The bridge after arming a key that was not armed and disarming it
    again. *)
Lemma arm_then_disarm (chatId : Z) (token org : string) (w : Bridge) :
  activePusherInstances w !! instanceKey chatId org = None ->
  provider_accepts (pushers w) = true ->
  exists w1 w2,
    initializeUserPusher apiBaseUrl provider_accepts chatId token org w
      = (Ok tt, w1) /\
    cleanupUserPusher chatId org w1 = (Ok tt, w2) /\
    activePusherInstances w2 = activePusherInstances w /\
    pushers w2 =
      (pushers w ++ [disconnect (subscribed_Pusher apiBaseUrl token org)])%list.
Proof.
  intros Hnone Hacc.
  destruct (initializeUserPusher_fresh apiBaseUrl provider_accepts
              chatId token org w Hnone Hacc) as (w1 & Hrun1 & Hp1 & Hm1).
  assert (Hreg : activePusherInstances w1 !! instanceKey chatId org
                 = Some (length (pushers w))).
  { rewrite Hm1. apply lookup_insert_eq. }
  destruct (cleanupUserPusher_registered chatId org w1 _ Hreg)
    as (w2 & Hrun2 & Hm2 & Hp2).
  exists w1, w2. split; [exact Hrun1|]. split; [exact Hrun2|]. split.
  - rewrite Hm2, Hm1. apply delete_insert_id. exact Hnone.
  - rewrite Hp2, Hp1.
    replace (length (pushers w)) with (length (pushers w) + 0)%nat at 1 by lia.
    rewrite alter_app_r. reflexivity.
Qed.

Lemma active_subscriptions_app (org : string) (w w' : Bridge) (p : Pusher) :
  pushers w' = (pushers w ++ [p])%list ->
  active_subscriptions org w' =
    (active_subscriptions org w ++
     (if decide (connected p = true /\
                 channel p = "private-organization." +:+ org)
      then [p] else []))%list.
Proof.
  intros Hp. unfold active_subscriptions. rewrite Hp, filter_app. reflexivity.
Qed.

End DisarmFacts.

(** X28. Disarming undoes arming. From a state in which a pair of chat
    and organization is not armed, arming it and then disarming it
    leaves the registry as it was and, for every organization, the
    same connected subscriptions as before: the client created in
    between stays, disconnected. Disarming once more changes nothing.
    Arming the pair again creates a second client, registered under
    the key, and the organization has one connected subscription more
    than at the start. *)
Theorem disarming_undoes_arming :
  forall (apiBaseUrl : string) (provider_accepts : list Pusher -> bool)
         (chatId : Z) (token org : string) (w : Bridge),
    activePusherInstances w !! instanceKey chatId org = None ->
    provider_accepts (pushers w) = true ->
    let w1 := snd (initializeUserPusher apiBaseUrl provider_accepts
                     chatId token org w) in
    let w2 := snd (cleanupUserPusher chatId org w1) in
    let w3 := snd (initializeUserPusher apiBaseUrl provider_accepts
                     chatId token org w2) in
    activePusherInstances w2 = activePusherInstances w /\
    (forall org', active_subscriptions org' w2 = active_subscriptions org' w) /\
    cleanupUserPusher chatId org w2 = (Ok tt, w2) /\
    (provider_accepts
       (pushers w ++ [disconnect (subscribed_Pusher apiBaseUrl token org)])%list
       = true ->
     activePusherInstances w3 !! instanceKey chatId org
       = Some (S (length (pushers w))) /\
     pushers w3 !! (S (length (pushers w)))
       = Some (subscribed_Pusher apiBaseUrl token org) /\
     active_subscriptions org w3 =
       (active_subscriptions org w ++ [subscribed_Pusher apiBaseUrl token org])%list).
Proof.
  intros apiBaseUrl provider_accepts chatId token org w Hnone Hacc w1 w2 w3.
  destruct (arm_then_disarm apiBaseUrl provider_accepts chatId token org w
              Hnone Hacc) as (w1' & w2' & Hrun1 & Hrun2 & Hm2 & Hp2).
  assert (Hw1 : w1 = w1') by (unfold w1; rewrite Hrun1; reflexivity).
  assert (Hw2 : w2 = w2') by (unfold w2; rewrite Hw1, Hrun2; reflexivity).
  clearbody w1 w2. subst w1' w2'.
  assert (Hnone2 : activePusherInstances w2 !! instanceKey chatId org = None)
    by (rewrite Hm2; exact Hnone).
  assert (Hsame : forall org',
             active_subscriptions org' w2 = active_subscriptions org' w).
  { intros org'.
    rewrite (active_subscriptions_app org' w w2 _ Hp2).
    destruct (decide _) as [[Hc _]|_]; [discriminate Hc | apply app_nil_r]. }
  split; [exact Hm2|]. split; [exact Hsame|].
  split; [apply cleanupUserPusher_unregistered; exact Hnone2|].
  intros Hacc2. rewrite <- Hp2 in Hacc2.
  destruct (initializeUserPusher_fresh apiBaseUrl provider_accepts
              chatId token org w2 Hnone2 Hacc2) as (w3' & Hrun3 & Hp3 & Hm3).
  assert (Hw3 : w3 = w3') by (unfold w3; rewrite Hrun3; reflexivity).
  clearbody w3. subst w3'.
  assert (Hlen : length (pushers w2) = S (length (pushers w))).
  { rewrite Hp2, length_app. cbn. lia. }
  split; [|split].
  - rewrite Hm3, Hlen. apply lookup_insert_eq.
  - rewrite Hp3, <- Hlen. rewrite lookup_app_r by lia.
    replace (length (pushers w2) - length (pushers w2))%nat with 0%nat by lia.
    reflexivity.
  - rewrite (active_subscriptions_app org w2 w3 _ Hp3), Hsame.
    destruct (decide _) as [_|Hno]; [reflexivity|].
    exfalso. apply Hno. split; reflexivity.
Qed.

Lemma disarming_undoes_arming_witness :
  activePusherInstances
    (snd (cleanupUserPusher 42 "org1"
            (snd (initializeUserPusher "https://api" always_accepts 42 "T" "org1"
                    fresh_bridge))))
  = activePusherInstances fresh_bridge.
Proof.
  apply (proj1 (disarming_undoes_arming "https://api" always_accepts 42 "T" "org1"
                  fresh_bridge eq_refl eq_refl)).
Defined.

(** ** The login flow: a new OTP *)

Section NewOtpFacts.

Variable api : Config -> ApiState -> (Response + Error) * ApiState.

Lemma login_new_otp_no_email (w : World) :
  present (session_email w) = false ->
  login_new_otp api w =
    (Ok tt,
     add_chat (EditMessageText
                 "❌ Session expired. Please start the login process again.") w).
Proof.
  intros H. unfold login_new_otp, bind, gets. rewrite H. reflexivity.
Qed.

Lemma login_new_otp_failed (email : string) (w : World) (e : Error)
  (a1 : ApiState) :
  session_email w = Some email -> present (Some email) = true ->
  api (otp_config email) (before_otp_request (api_state w)) = (inr e, a1) ->
  exists w',
    login_new_otp api w = (Ok tt, w') /\
    ctx_session w' = ctx_session w /\
    chat w' = EditMessageText MSG_OTP_FAILED :: chat w.
Proof.
  intros Hmail Hp Hcall. unfold login_new_otp. unfold bind at 1. unfold gets.
  rewrite Hmail, Hp. cbn [negb]. change (default "" (Some email)) with email.
  unfold try_catch. unfold bind at 1. unfold requestEmailOTP.
  unfold bind at 1. unfold log at 1, lift_api, console_log, modify.
  unfold bind at 1. unfold api_post. fold (otp_config email).
  unfold api_call. cbn [api_state set_api_state].
  fold (before_otp_request (api_state w)). rewrite Hcall.
  eexists. split; [reflexivity|]. split; reflexivity.
Qed.

Lemma login_new_otp_sent (email : string) (w : World) (s : Session)
  (a : AuthState) (r : Response) (a1 : ApiState) :
  ctx_session w = Some s -> authState s = Some a ->
  auth_email a = Some email -> present (Some email) = true ->
  api (otp_config email) (before_otp_request (api_state w)) = (inl r, a1) ->
  data r <> JNull -> data r <> JUndefined ->
  exists w',
    login_new_otp api w = (Ok tt, w') /\
    ctx_session w' =
      Some (set_authState
              (Some {| auth_email := Some email; awaitingOTP := true;
                       sid := get (data r) "sid" |}) s) /\
    chat w' = EditMessageText MSG_NEW_OTP_SENT :: chat w.
Proof.
  intros Hs Ha Hmail Hp Hcall Hn Hu.
  assert (Hsm : session_email w = Some email).
  { unfold session_email. rewrite Hs, Ha. exact Hmail. }
  destruct w as [aw sess ch cl]. cbn [ctx_session api_state] in Hs, Hcall.
  subst sess. destruct s as [us au ts hs wa ds]. cbn [authState] in Ha. subst au.
  destruct a as [am aw0 asid]. cbn [auth_email] in Hmail. subst am.
  unfold login_new_otp. unfold bind at 1. unfold gets.
  rewrite Hsm, Hp. cbn [negb]. change (default "" (Some email)) with email.
  unfold try_catch. unfold bind at 1. unfold requestEmailOTP.
  unfold bind at 1. unfold log at 1, lift_api, console_log, modify.
  unfold bind at 1. unfold api_post. fold (otp_config email).
  unfold api_call. cbn [api_state set_api_state].
  fold (before_otp_request aw). rewrite Hcall.
  unfold bind at 1. unfold log at 1, lift_api, console_log, modify.
  cbn [api_state set_api_state add_call ret].
  unfold bind at 1. unfold has_authState.
  cbn [ctx_session set_ctx_session set_api_state add_call authState].
  unfold update_authState, update_session, read_session, bind.
  cbn [ctx_session set_ctx_session set_api_state add_call authState set_authState].
  destruct (data r) eqn:Hd; try contradiction;
    cbn [prop ret get ctx_session set_ctx_session set_api_state add_call
         authState set_authState auth_email awaitingOTP sid];
    (eexists; split; [reflexivity|]; cbn; split; reflexivity).
Qed.

End NewOtpFacts.

(** X29. A new OTP replaces the [sid] the login goes on with. Without
    an e-mail address in the session, [login:new_otp] only reports that
    the session expired and makes no call. With one: when the OTP
    request returns a body, the flow awaits the OTP with the same
    address and the [sid] of that body, and it is with this [sid] that
    the next code typed will be checked; when the request fails, the
    session is as it was and the failure is reported. *)
Theorem new_otp_replaces_the_sid :
  forall (api : Config -> ApiState -> (Response + Error) * ApiState)
         (w : World),
    (present (session_email w) = false ->
     login_new_otp api w =
       (Ok tt,
        add_chat (EditMessageText
                    "❌ Session expired. Please start the login process again.")
          w)) /\
    (forall (s : Session) (a : AuthState) (email : string),
        ctx_session w = Some s -> authState s = Some a ->
        auth_email a = Some email -> present (Some email) = true ->
        (forall r a1,
            api (otp_config email) (before_otp_request (api_state w))
              = (inl r, a1) ->
            data r <> JNull -> data r <> JUndefined ->
            exists w',
              login_new_otp api w = (Ok tt, w') /\
              ctx_session w' =
                Some (set_authState
                        (Some {| auth_email := Some email; awaitingOTP := true;
                                 sid := get (data r) "sid" |}) s) /\
              chat w' = EditMessageText MSG_NEW_OTP_SENT :: chat w /\
              (truthy (get (data r) "sid") = true ->
               otp_awaited w' = Some (email, get (data r) "sid"))) /\
        (forall e a1,
            api (otp_config email) (before_otp_request (api_state w))
              = (inr e, a1) ->
            exists w',
              login_new_otp api w = (Ok tt, w') /\
              ctx_session w' = ctx_session w /\
              chat w' = EditMessageText MSG_OTP_FAILED :: chat w)).
Proof.
  intros api w. split; [apply login_new_otp_no_email|].
  intros s a email Hs Ha Hmail Hp. split.
  - intros r a1 Hcall Hn Hu.
    destruct (login_new_otp_sent api email w s a r a1 Hs Ha Hmail Hp Hcall Hn Hu)
      as (w' & Hrun & Hs' & Hc').
    exists w'. split; [exact Hrun|]. split; [exact Hs'|]. split; [exact Hc'|].
    intros Hsid. unfold otp_awaited. rewrite Hs'.
    cbn [authState set_authState auth_email awaitingOTP sid default].
    rewrite Hp, Hsid. reflexivity.
  - intros e a1 Hcall.
    apply (login_new_otp_failed api email w e a1); try assumption.
    unfold session_email. rewrite Hs, Ha. exact Hmail.
Qed.

Lemma new_otp_replaces_the_sid_witness :
  login_new_otp api_otp (world_of fresh_client (Some login_started)) =
    (Ok tt,
     add_chat (EditMessageText
                 "❌ Session expired. Please start the login process again.")
       (world_of fresh_client (Some login_started))).
Proof.
  apply (proj1 (new_otp_replaces_the_sid api_otp
                  (world_of fresh_client (Some login_started)))).
  reflexivity.
Defined.

(** X30. The e-mail check of the two flows reads its regular
    expression, over the UTF-16 code units of the text as the engine
    does: [emailRegex_test] accepts exactly the texts whose code units
    are a non-empty run of units that are neither white space (the
    class [\s], with its members above U+00FF) nor [@], then [@], then
    such a run, a dot, and such a run; a text it accepts is not
    empty. *)
Theorem email_check_reads_the_expression :
  forall email : string,
    (emailRegex_test email = true <-> email_shape email) /\
    (emailRegex_test email = true -> email <> "").
Proof.
  intros email. split; [apply emailRegex_test_shape|].
  intros H ->. discriminate H.
Qed.

(** ** The history on the wire *)

#[local] Hint Extern 1 (always same_session (ret _)) =>
  apply (always_ret same_session same_session_refl) : wire_session.
#[local] Hint Extern 1 (always same_session (throw _)) =>
  apply (always_throw same_session same_session_refl) : wire_session.
#[local] Hint Extern 1 (always same_session (prop _ _)) =>
  apply (always_prop same_session same_session_refl) : wire_session.

Lemma wire_session_log (line : string) : always same_session (log line).
Proof. intros w. reflexivity. Qed.

Lemma wire_session_send
  (telegram : list ChatAction -> ChatAction -> Delivery) (a : ChatAction) :
  always same_session (Wire.send telegram a).
Proof.
  intros w. unfold Wire.send. destruct (telegram (chat w) a); reflexivity.
Qed.

Lemma wire_session_api_call (client : Config -> M ApiState Response)
  (c : Config) :
  always same_session (Wire.api_call client c).
Proof.
  intros w. unfold Wire.api_call.
  destruct (client c (api_state w)) as [r a]. reflexivity.
Qed.

#[local] Hint Resolve wire_session_log wire_session_send wire_session_api_call
  : wire_session.

Ltac wire_session_step :=
  first
    [ solve [auto with wire_session]
    | apply (always_bind same_session same_session_trans); [|intros ?]
    | apply (always_try_catch same_session same_session_trans); [|intros ?]
    | match goal with
      | |- always same_session (if ?c then _ else _) => destruct c
      | |- always same_session (match ?x with _ => _ end) => destruct x
      end
    | progress cbv zeta ].

Ltac wire_session_auto := repeat wire_session_step.

Lemma wire_session_history_row (index : nat) (transaction : JSON) :
  always same_session (history_row index transaction).
Proof. unfold history_row. wire_session_auto. Qed.

Lemma wire_session_history_rows (transactions : list JSON) :
  forall index, always same_session (history_rows index transactions).
Proof.
  induction transactions as [|t rest IH]; intros index; cbn [history_rows].
  - apply (always_ret same_session same_session_refl).
  - apply (always_bind same_session same_session_trans);
      [apply wire_session_history_row|]. intros row.
    apply (always_bind same_session same_session_trans); [apply IH|].
    intros more. apply (always_ret same_session same_session_refl).
Qed.

#[local] Hint Resolve wire_session_history_rows : wire_session.

Section HistoryOnWire.

Variable telegram : list ChatAction -> ChatAction -> Delivery.
Variable client : Config -> M ApiState Response.
Variable history_text : list JSON -> JSON -> Z -> string.
Variable lessThan : Z -> JSON -> bool.

(** With a paging state stored, fetching a page leaves the session as
    it is, however the fetch ends. *)
Lemma fetch_on_wire_keeps_session (w : World) (s : Session) (h : HistoryState) :
  ctx_session w = Some s -> historyState s = Some h ->
  ctx_session (snd (Wire.fetchAndDisplayHistory telegram client history_text
                      lessThan w)) = Some s.
Proof.
  intros Hs Hh. unfold Wire.fetchAndDisplayHistory. unfold bind at 1.
  unfold ensure_historyState. unfold bind at 1. unfold read_session.
  rewrite Hs, Hh. cbn [ret].
  match goal with
  | |- ctx_session (snd (?m w)) = _ =>
      assert (Hm : always same_session m)
  end.
  { unfold Wire.reply, Wire.deleteMessage, Wire.getTransfers, Wire.api_get.
    wire_session_auto. }
  rewrite (Hm w). exact Hs.
Qed.

(** An action brings the session to the page it asks for and fetches
    that page. *)
Lemma handleHistoryPagination_on_wire (action : string) (w : World)
  (u : UserSession) (s : Session) :
  session_user w = Some u -> ctx_session w = Some s ->
  Wire.handleHistoryPagination telegram client history_text lessThan action w =
  Wire.fetchAndDisplayHistory telegram client history_text lessThan
    (turned_to (page_after action (paging_of s)) u s w).
Proof.
  intros Hu Hs. unfold Wire.handleHistoryPagination. unfold bind at 1.
  rewrite (checkAuth_on_wire telegram w u Hu). cbn [negb].
  unfold bind at 1. unfold ensure_historyState, bind, read_session.
  cbn [ctx_session after_checkAuth set_api_state]. rewrite Hs.
  unfold page_after, paging_of, turned_to, after_checkAuth, with_page.
  destruct (historyState s) as [h0|] eqn:Hh.
  - change (default first_page (Some h0)) with h0. cbn [ret].
    destruct (String.eqb action "prev" && (1 <? page h0))%bool;
      [|destruct (String.eqb action "next")];
      unfold update_session, ret; cbn [ctx_session set_api_state];
      rewrite ?Hs; try reflexivity.
    f_equal. unfold set_ctx_session, set_api_state. cbn. rewrite Hs.
    do 3 f_equal. destruct s; cbn in *. rewrite Hh. reflexivity.
  - change (default first_page None) with first_page.
    unfold update_session, ret. cbn [ctx_session set_api_state]. rewrite Hs.
    cbv beta iota.
    change (1 <? page first_page) with false. rewrite !andb_false_r.
    cbn [ctx_session set_ctx_session].
    destruct (String.eqb action "next"); reflexivity.
Qed.

(** However a tap on a button of the history ends, the session holds the
    page the button asks for. *)
Lemma tap_session (action : string) (w : World) (u : UserSession) (s : Session) :
  session_user w = Some u -> ctx_session w = Some s ->
  ctx_session (snd (Wire.handleHistoryPagination telegram client history_text
                      lessThan action w)) =
    Some (set_historyState (Some (page_after action (paging_of s))) s).
Proof.
  intros Hu Hs. rewrite (handleHistoryPagination_on_wire action w u s Hu Hs).
  apply (fetch_on_wire_keeps_session _ _ (page_after action (paging_of s)));
    reflexivity.
Qed.

Lemma page_after_positive (action : string) (h : HistoryState) :
  1 <= page h ->
  1 <= page (page_after action h) /\ limit (page_after action h) = limit h.
Proof.
  intros Hp. unfold page_after.
  destruct (String.eqb action "prev" && (1 <? page h))%bool eqn:Hprev.
  - apply andb_prop in Hprev as [_ Hlt]. apply Z.ltb_lt in Hlt.
    cbn [with_page page limit]. split; [lia | reflexivity].
  - destruct (String.eqb action "next"); cbn [with_page page limit];
      split; try lia; reflexivity.
Qed.

Lemma taps_keep (actions : list string) :
  forall (w : World) (u : UserSession) (s : Session),
    session_user w = Some u -> ctx_session w = Some s ->
    1 <= page (paging_of s) ->
    exists s',
      ctx_session (taps telegram client history_text lessThan actions w)
        = Some s' /\
      user s' = Some u /\
      1 <= page (paging_of s') /\ limit (paging_of s') = limit (paging_of s).
Proof.
  induction actions as [|action rest IH]; intros w u s Hu Hs Hp.
  - exists s. split; [exact Hs|]. split.
    + rewrite <- (session_user_of w s Hs). exact Hu.
    + split; [exact Hp | reflexivity].
  - cbn [taps].
    pose proof (tap_session action w u s Hu Hs) as Hs1.
    destruct (page_after_positive action (paging_of s) Hp) as [Hp1 Hl1].
    destruct (IH _ u _
                ltac:(rewrite (session_user_of _ _ Hs1); cbn;
                      rewrite <- (session_user_of w s Hs); exact Hu)
                Hs1 Hp1)
      as (s' & Hrun & Hu' & Hp' & Hl').
    exists s'. split; [exact Hrun|]. split; [exact Hu'|].
    split; [exact Hp'|]. rewrite Hl'. exact Hl1.
Qed.

End HistoryOnWire.

(** X5. The paging of the history is safe under any series of button
    taps, whatever Telegram and the API do. For a logged-in user whose
    page is at least 1 (a session without a paging state counts as page
    1): whatever actions are handled one after the other, known or
    unknown, and however each of them ends (Telegram may reject its
    messages, the API may answer, fail or never answer), the session
    still holds the user, the stored page is still at least 1 and the
    page size is the one stored before. *)
Theorem history_page_stays_positive :
  forall (telegram : list ChatAction -> ChatAction -> Delivery)
         (client : Config -> M ApiState Response)
         (history_text : list JSON -> JSON -> Z -> string)
         (lessThan : Z -> JSON -> bool)
         (actions : list string) (w : World) (u : UserSession) (s : Session),
    session_user w = Some u -> ctx_session w = Some s ->
    1 <= page (paging_of s) ->
    exists s',
      ctx_session (taps telegram client history_text lessThan actions w)
        = Some s' /\
      user s' = Some u /\
      1 <= page (paging_of s') /\ limit (paging_of s') = limit (paging_of s).
Proof.
  intros telegram client history_text lessThan actions w u s.
  apply taps_keep.
Qed.

Lemma history_page_stays_positive_witness :
  exists s',
    ctx_session (taps refusing (request 25 env_401) plain_history_text
                   lessThan_example
                   ["prev"; "prev"; "next"; "first"; "prev"; "prev"]
                   (alice_on_page 1)) = Some s' /\
    user s' = Some alice /\
    1 <= page (paging_of s') /\
    limit (paging_of s') =
      limit (paging_of (set_historyState (Some {| page := 1; limit := 5 |})
                          session_of_alice)).
Proof.
  apply (history_page_stays_positive refusing (request 25 env_401)
           plain_history_text lessThan_example
           ["prev"; "prev"; "next"; "first"; "prev"; "prev"] (alice_on_page 1)
           alice
           (set_historyState (Some {| page := 1; limit := 5 |}) session_of_alice)).
  - reflexivity.
  - reflexivity.
  - cbn. lia.
Defined.
